(** * Door-lock cloud server: access-decision engine

    A shallow embedding of [cloud_server.py] and [mongo_config.py]:
    the QR validator, the face matcher, the gallery load, the session
    issuer and the access-decision recorder, together with the two
    digests of [hashlib] the server calls; then the status route and the
    user, encoding and log methods of the storage layer. *)

From Stdlib Require Import ZArith QArith Qabs Qround Lqa String Ascii List Lia Bool.
From Stdlib Require Import Floats.
From stdpp Require Import gmap strings pretty sorting.
Import ListNotations.

Set Warnings "-inexact-float".

Local Open Scope Z_scope.

(** ** hashlib

    [hashlib.sha256] and [hashlib.md5] over byte strings.  A 32-bit word
    is a [Z] in [0, 2^32); every addition is reduced modulo [2^32]. *)

Module Hashlib.

Definition w32 (x : Z) : Z := x mod 0x100000000.
Definition add32 (a b : Z) : Z := w32 (a + b).
Definition not32 (a : Z) : Z := 0xffffffff - a.
Definition rotr (n x : Z) : Z :=
  Z.lor (Z.shiftr x n) (w32 (Z.shiftl x (32 - n))).
Definition rotl (n x : Z) : Z :=
  Z.lor (w32 (Z.shiftl x n)) (Z.shiftr x (32 - n)).

(** [str.encode()]: a [string] is kept as its UTF-8 bytes, one [ascii]
    per byte. *)
Definition encode (s : string) : list Z :=
  map (fun c => Z.of_N (N_of_ascii c)) (list_ascii_of_string s).

Fixpoint chunks (k : nat) (n : nat) (l : list Z) : list (list Z) :=
  match n with
  | O => []
  | S n' => firstn k l :: chunks k n' (skipn k l)
  end.

Definition blocks_of (l : list Z) : list (list Z) :=
  chunks 64 (List.length l / 64) l.

Definition word_be (b : list Z) : Z :=
  fold_left (fun acc x => acc * 256 + x) b 0.
Definition word_le (b : list Z) : Z :=
  fold_right (fun x acc => acc * 256 + x) 0 b.

Definition bytes_be (n : nat) (x : Z) : list Z :=
  map (fun i => Z.shiftr x (8 * Z.of_nat i) mod 256) (rev (seq 0 n)).
Definition bytes_le (n : nat) (x : Z) : list Z :=
  map (fun i => Z.shiftr x (8 * Z.of_nat i) mod 256) (seq 0 n).

(** Merkle-Damgard padding: a [0x80] byte, zeros up to 56 modulo 64, then
    the bit length on 8 bytes. *)
Definition pad (len_bytes : Z -> list Z) (msg : list Z) : list Z :=
  let len := Z.of_nat (List.length msg) in
  msg ++ [0x80] ++ repeat 0 (Z.to_nat ((55 - len) mod 64))
      ++ len_bytes (8 * len).

Definition hex_digit (n : Z) : ascii :=
  nth (Z.to_nat n)
      ["0"; "1"; "2"; "3"; "4"; "5"; "6"; "7";
       "8"; "9"; "a"; "b"; "c"; "d"; "e"; "f"]%char "0"%char.

Definition hex_byte (b : Z) : string :=
  String (hex_digit (b / 16 mod 16)) (String (hex_digit (b mod 16)) EmptyString).

Definition hex_word_be (w : Z) : string :=
  (hex_byte (Z.shiftr w 24) ++ hex_byte (Z.shiftr w 16)
   ++ hex_byte (Z.shiftr w 8) ++ hex_byte w)%string.

Definition hex_word_le (w : Z) : string :=
  (hex_byte w ++ hex_byte (Z.shiftr w 8)
   ++ hex_byte (Z.shiftr w 16) ++ hex_byte (Z.shiftr w 24))%string.

(** *** SHA-256 (FIPS 180-4) *)

(** The first 64 primes. *)
Definition primes : list Z :=
  [2; 3; 5; 7; 11; 13; 17; 19; 23; 29; 31; 37; 41; 43; 47; 53; 59; 61; 67;
   71; 73; 79; 83; 89; 97; 101; 103; 107; 109; 113; 127; 131; 137; 139; 149;
   151; 157; 163; 167; 173; 179; 181; 191; 193; 197; 199; 211; 223; 227;
   229; 233; 239; 241; 251; 257; 263; 269; 271; 277; 281; 283; 293; 307;
   311].

(** The integer cube root of [n < 2^108], found bit by bit from the top. *)
Definition cbrt (n : Z) : Z :=
  fold_left
    (fun r i => let r' := r + Z.shiftl 1 (Z.of_nat i) in
                if r' * r' * r' <=? n then r' else r)
    (rev (seq 0 36)) 0.

(** The round constants: the first 32 bits of the fractional parts of the
    cube roots of the first 64 primes. *)
Definition sha256_K : list Z :=
  Eval vm_compute in map (fun p => w32 (cbrt (Z.shiftl p 96))) primes.

(** The initial hash value: the same for the square roots of the first
    8 primes. *)
Definition sha256_H0 : list Z :=
  Eval vm_compute in
    map (fun p => w32 (Z.sqrt (Z.shiftl p 64))) (firstn 8 primes).

Record sha_state := ShaState
  { sa : Z; sb : Z; sc : Z; sd : Z; se : Z; sf : Z; sg : Z; sh : Z }.

Definition sha256_init : sha_state :=
  let h i := nth i sha256_H0 0 in
  ShaState (h 0%nat) (h 1%nat) (h 2%nat) (h 3%nat)
           (h 4%nat) (h 5%nat) (h 6%nat) (h 7%nat).

Definition ssig0 (x : Z) : Z :=
  Z.lxor (Z.lxor (rotr 7 x) (rotr 18 x)) (Z.shiftr x 3).
Definition ssig1 (x : Z) : Z :=
  Z.lxor (Z.lxor (rotr 17 x) (rotr 19 x)) (Z.shiftr x 10).
Definition bsig0 (x : Z) : Z :=
  Z.lxor (Z.lxor (rotr 2 x) (rotr 13 x)) (rotr 22 x).
Definition bsig1 (x : Z) : Z :=
  Z.lxor (Z.lxor (rotr 6 x) (rotr 11 x)) (rotr 25 x).
Definition ch (x y z : Z) : Z :=
  Z.lxor (Z.land x y) (Z.land (not32 x) z).
Definition maj (x y z : Z) : Z :=
  Z.lxor (Z.lxor (Z.land x y) (Z.land x z)) (Z.land y z).

(** The message schedule, most recent word first. *)
Fixpoint schedule (n : nat) (w : list Z) : list Z :=
  match n with
  | O => w
  | S n' =>
      let x := add32 (add32 (ssig1 (nth 1 w 0)) (nth 6 w 0))
                     (add32 (ssig0 (nth 14 w 0)) (nth 15 w 0)) in
      schedule n' (x :: w)
  end.

Definition sha_round (s : sha_state) (kw : Z * Z) : sha_state :=
  let t1 := add32 (add32 (add32 (sh s) (bsig1 (se s)))
                         (add32 (ch (se s) (sf s) (sg s)) (fst kw)))
                  (snd kw) in
  let t2 := add32 (bsig0 (sa s)) (maj (sa s) (sb s) (sc s)) in
  ShaState (add32 t1 t2) (sa s) (sb s) (sc s)
           (add32 (sd s) t1) (se s) (sf s) (sg s).

Definition sha_compress (s : sha_state) (block : list Z) : sha_state :=
  let w16 := map word_be (chunks 4 16 block) in
  let w := rev (schedule 48 (rev w16)) in
  let r := fold_left sha_round (combine sha256_K w) s in
  ShaState (add32 (sa s) (sa r)) (add32 (sb s) (sb r))
           (add32 (sc s) (sc r)) (add32 (sd s) (sd r))
           (add32 (se s) (se r)) (add32 (sf s) (sf r))
           (add32 (sg s) (sg r)) (add32 (sh s) (sh r)).

Definition sha256_hexdigest (msg : list Z) : string :=
  let s := fold_left sha_compress (blocks_of (pad (bytes_be 8) msg))
                     sha256_init in
  (hex_word_be (sa s) ++ hex_word_be (sb s) ++ hex_word_be (sc s)
   ++ hex_word_be (sd s) ++ hex_word_be (se s) ++ hex_word_be (sf s)
   ++ hex_word_be (sg s) ++ hex_word_be (sh s))%string.

(** *** MD5 (RFC 1321) *)

Definition md5_K : list Z :=
  [ 0xd76aa478; 0xe8c7b756; 0x242070db; 0xc1bdceee; 0xf57c0faf; 0x4787c62a;
    0xa8304613; 0xfd469501; 0x698098d8; 0x8b44f7af; 0xffff5bb1; 0x895cd7be;
    0x6b901122; 0xfd987193; 0xa679438e; 0x49b40821; 0xf61e2562; 0xc040b340;
    0x265e5a51; 0xe9b6c7aa; 0xd62f105d; 0x02441453; 0xd8a1e681; 0xe7d3fbc8;
    0x21e1cde6; 0xc33707d6; 0xf4d50d87; 0x455a14ed; 0xa9e3e905; 0xfcefa3f8;
    0x676f02d9; 0x8d2a4c8a; 0xfffa3942; 0x8771f681; 0x6d9d6122; 0xfde5380c;
    0xa4beea44; 0x4bdecfa9; 0xf6bb4b60; 0xbebfbc70; 0x289b7ec6; 0xeaa127fa;
    0xd4ef3085; 0x04881d05; 0xd9d4d039; 0xe6db99e5; 0x1fa27cf8; 0xc4ac5665;
    0xf4292244; 0x432aff97; 0xab9423a7; 0xfc93a039; 0x655b59c3; 0x8f0ccc92;
    0xffeff47d; 0x85845dd1; 0x6fa87e4f; 0xfe2ce6e0; 0xa3014314; 0x4e0811a1;
    0xf7537e82; 0xbd3af235; 0x2ad7d2bb; 0xeb86d391 ].

Definition md5_S : list Z :=
  [ 7; 12; 17; 22; 7; 12; 17; 22; 7; 12; 17; 22; 7; 12; 17; 22;
    5; 9; 14; 20; 5; 9; 14; 20; 5; 9; 14; 20; 5; 9; 14; 20;
    4; 11; 16; 23; 4; 11; 16; 23; 4; 11; 16; 23; 4; 11; 16; 23;
    6; 10; 15; 21; 6; 10; 15; 21; 6; 10; 15; 21; 6; 10; 15; 21 ].

Record md5_state := Md5State { ma : Z; mb : Z; mc : Z; md : Z }.

Definition md5_init : md5_state :=
  Md5State 0x67452301 0xefcdab89 0x98badcfe 0x10325476.

Definition md5_step (m : list Z) (s : md5_state) (i : nat) : md5_state :=
  let zi := Z.of_nat i in
  let b := mb s in let c := mc s in let d := md s in
  let '(f, g) :=
    if zi <? 16 then (Z.lor (Z.land b c) (Z.land (not32 b) d), zi)
    else if zi <? 32 then
      (Z.lor (Z.land d b) (Z.land (not32 d) c), (5 * zi + 1) mod 16)
    else if zi <? 48 then (Z.lxor (Z.lxor b c) d, (3 * zi + 5) mod 16)
    else (Z.lxor c (Z.lor b (not32 d)), (7 * zi) mod 16) in
  let f' := add32 (add32 f (ma s))
                  (add32 (nth i md5_K 0) (nth (Z.to_nat g) m 0)) in
  Md5State d (add32 b (rotl (nth i md5_S 0) f')) b c.

Definition md5_compress (s : md5_state) (block : list Z) : md5_state :=
  let m := map word_le (chunks 4 16 block) in
  let r := fold_left (md5_step m) (seq 0 64) s in
  Md5State (add32 (ma s) (ma r)) (add32 (mb s) (mb r))
           (add32 (mc s) (mc r)) (add32 (md s) (md r)).

Definition md5_hexdigest (msg : list Z) : string :=
  let s := fold_left md5_compress (blocks_of (pad (bytes_le 8) msg))
                     md5_init in
  (hex_word_le (ma s) ++ hex_word_le (mb s) ++ hex_word_le (mc s)
   ++ hex_word_le (md s))%string.

End Hashlib.

Arguments Hashlib.sha256_hexdigest : simpl never.
Arguments Hashlib.md5_hexdigest : simpl never.


(** ** Python runtime: exceptions, state and output *)

(** The exceptions the two modules can raise.  All of them derive from
    [Exception], so an [except Exception] clause catches every one. *)
Inductive exn :=
| RuntimeError (msg : string)
| Exception (msg : string)
| ConnectionFailure (msg : string)
| PyMongoError (msg : string)
| KeyError (key : string)
| IndexError (msg : string)
| ValueError (msg : string)
| AttributeError (msg : string)
| UnicodeDecodeError (msg : string)
| binascii_Error (msg : string)
| cv2_error (msg : string).

(** [str(e)] *)
Definition exn_str (e : exn) : string :=
  match e with
  | RuntimeError m | Exception m | ConnectionFailure m | PyMongoError m
  | IndexError m | ValueError m | AttributeError m | UnicodeDecodeError m
  | binascii_Error m | cv2_error m => m
  | KeyError k => "'" ++ k ++ "'"
  end.

Inductive outcome (A : Type) :=
| Return (a : A)
| Raise (e : exn).
Arguments Return {A} a.
Arguments Raise {A} e.

(** A statement or call running against a state [S]: it returns or
    raises, and the state it leaves behind is kept in both cases. *)
Definition py (S A : Type) : Type := S -> outcome A * S.

Section Py.
Context {S : Type}.

Definition ret {A} (a : A) : py S A := fun s => (Return a, s).
Definition raise {A} (e : exn) : py S A := fun s => (Raise e, s).
Definition bind {A B} (c : py S A) (k : A -> py S B) : py S B :=
  fun s => match c s with
           | (Return a, s') => k a s'
           | (Raise e, s') => (Raise e, s')
           end.
Definition gets {A} (f : S -> A) : py S A := fun s => (Return (f s), s).
Definition modify (f : S -> S) : py S unit := fun s => (Return tt, f s).

(** [try: c except Exception as e: h e] *)
Definition try_except {A} (c : py S A) (h : exn -> py S A) : py S A :=
  fun s => match c s with
           | (Return a, s') => (Return a, s')
           | (Raise e, s') => h e s'
           end.
End Py.

Declare Scope py_scope.
Delimit Scope py_scope with py.
Notation "x <~ c ;; k" := (bind c (fun x => k))
  (at level 100, c at next level, right associativity) : py_scope.
Notation "c ;;; k" := (bind c (fun _ => k))
  (at level 100, right associativity) : py_scope.

(** ** datetime *)

Record datetime := Datetime
  { year : N; month : N; day : N;
    hour : N; minute : N; second : N; microsecond : N }.

Definition zfill (width : nat) (n : N) : string :=
  let s := pretty n in
  string_of_list_ascii (repeat "0"%char (width - String.length s)) +:+ s.

(** [str(d)], that is [d.isoformat(sep=' ')]: the fraction is printed
    only when the microsecond field is not zero. *)
Definition datetime_str (d : datetime) : string :=
  zfill 4 (year d) +:+ "-" +:+ zfill 2 (month d) +:+ "-" +:+ zfill 2 (day d)
  +:+ " " +:+ zfill 2 (hour d) +:+ ":" +:+ zfill 2 (minute d)
  +:+ ":" +:+ zfill 2 (second d)
  +:+ (if N.eqb (microsecond d) 0 then "" else "." +:+ zfill 6 (microsecond d)).

(** ** Floats

    numpy's float64 values are the kernel's binary64 floats: [1 - d],
    [confidence * 100] and [confidence > 0.5] are the IEEE 754
    operations, rounded to nearest, ties to even. *)

(** The magnitude [m * 2^e] of a finite float. *)
Definition magnitude (m : positive) (e : Z) : Q :=
  inject_Z (Zpos m) * Qpower 2 e.

Definition round_half_even (x : Q) : Z :=
  let f := Qfloor x in
  match Qcompare (x - inject_Z f) (1 # 2) with
  | Lt => f
  | Gt => f + 1
  | Eq => if Z.even f then f else f + 1
  end.

(** [f"{x:.1f}"]: the decimal with one digit after the point that is
    nearest to the exact value of [x], ties to even. *)
Definition format_1f (x : float) : string :=
  match Prim2SF x with
  | S754_nan => "nan"
  | S754_infinity s => (if s then "-" else "") +:+ "inf"
  | S754_zero s => (if s then "-" else "") +:+ "0.0"
  | S754_finite s m e =>
      let t := round_half_even (magnitude m e * 10) in
      (if s then "-" else "")
      +:+ pretty (t / 10) +:+ "." +:+ pretty (t mod 10)
  end.

(** The rank of a value that is not a NaN, in the order of [SFcompare]. *)
Definition rank (x : spec_float) : Z :=
  match x with
  | S754_zero _ | S754_nan => 0
  | S754_infinity s => if s then - 2 ^ 70 else 2 ^ 70
  | S754_finite s m e =>
      let r := (e + 1075) * 2 ^ 53 + Zpos m in
      if s then - r else r
  end.

Definition not_nan (x : spec_float) : Prop := x <> S754_nan.

(** ** External collaborators

    [cv2], [pyzbar], [base64] and [face_recognition] are not part of the
    repository.  The server reaches them through the calls below; the two
    laws are the library's documented contracts (one encoding per face
    location, one distance per gallery vector, in order); a distance is
    a float64, the Euclidean norm numpy computed. *)

Class VisionProvider := {
  frame : Type;
  location : Type;
  encoding : Type;
  (** [base64.b64decode]; [None] when it raises [binascii.Error] *)
  b64decode : string -> option (list Z);
  (** [cv2.imdecode(np.frombuffer(..), cv2.IMREAD_COLOR)]; [None] is
      Python's [None], returned for bytes that are not an image *)
  imdecode : list Z -> option frame;
  (** [pyzbar.decode(gray)], each symbol given as the result of
      [.data.decode("utf-8")]: [None] when the bytes are not UTF-8 *)
  pyzbar_decode : frame -> list (option string);
  face_locations : frame -> list location;
  face_encodings : frame -> list location -> list encoding;
  face_distance : list encoding -> encoding -> list float;
  face_encodings_length : forall f locs,
    List.length (face_encodings f locs) = List.length locs;
  face_distance_length : forall known probe,
    List.length (face_distance known probe) = List.length known
}.

(** ** mongo_config.py *)

Section Server.
Context `{VP : VisionProvider}.

(** The builtin [int] on strings; [None] when it raises [ValueError]. *)
Variable int : string -> option Z.

(** A document of the [face_encodings] collection; an absent key is
    [None]. *)
Record encoding_doc := EncodingDoc
  { doc_encoding : option encoding;
    doc_user_name : option string }.

(** What iterating [encodings_collection.find()] delivers: documents, and
    possibly a driver error at some point of the iteration. *)
Inductive cursor_item :=
| Doc (d : encoding_doc)
| CursorError (msg : string).

Record AccessLogEntry := LogEntry
  { user_name : string;
    status : string;
    access_type : string;
    confidence : option string;
    timestamp : datetime }.

(** The [MongoDBConfig] object: the collections it points to live in the
    database, which is part of [world]. *)
Record MongoDBConfig := MkMongoDBConfig { connection_string : string }.

(** Everything outside the Python process. *)
Record world := World
  { environ : gmap string string;
    (** [Some e]: [client.server_info()] raises [ConnectionFailure(e)] *)
    connect_fault : option string;
    (** [Some e]: [create_index] raises *)
    index_fault : option string;
    encodings_cursor : list cursor_item;
    access_logs_collection : list AccessLogEntry;
    (** [Some e]: [insert_one] on the access log raises *)
    insert_fault : option string;
    now : datetime;
    utcnow : datetime;
    stdout : list string }.

(** The module globals of [cloud_server.py]. *)
Record globals := Globals
  { QR_HASH : string;
    PORT : Z;
    mongo_db : option MongoDBConfig;
    known_face_encodings : list encoding;
    known_face_names : list string;
    encodings_loaded : bool;
    session_cache : gmap string bool }.

Record state := State { glob : globals; ext : world }.

Definition set_stdout (f : list string -> list string) (w : world) : world :=
  World (environ w) (connect_fault w) (index_fault w) (encodings_cursor w)
        (access_logs_collection w) (insert_fault w) (now w) (utcnow w)
        (f (stdout w)).

Definition set_access_logs (f : list AccessLogEntry -> list AccessLogEntry)
    (w : world) : world :=
  World (environ w) (connect_fault w) (index_fault w) (encodings_cursor w)
        (f (access_logs_collection w)) (insert_fault w) (now w) (utcnow w)
        (stdout w).


Local Open Scope py_scope.

(** [print(line)], on a bare [world] and on a full [state] *)
Definition print_w (line : string) : py world unit :=
  modify (set_stdout (fun out => out ++ [line])).

(** Runs a database call inside a request: the globals are untouched. *)
Definition lift {A} (c : py world A) : py state A :=
  fun s => let '(r, w') := c (ext s) in (r, State (glob s) w').

Definition print (line : string) : py state unit := lift (print_w line).

(** [MongoDBConfig.__init__] *)
Definition MongoDBConfig_init (connection_string : option string)
    : py world MongoDBConfig :=
  cs <~ match connection_string with
        | None => gets (fun w => environ w !! "MONGO_URI")
        | Some c => ret (Some c)
        end ;;
  match cs with
  | None | Some "" => raise (Exception "MONGO_URI environment variable not set")
  | Some uri =>
      try_except
        (f <~ gets connect_fault ;;
         match f with
         | Some e => raise (ConnectionFailure e)
         | None => print_w "✓ Connected to MongoDB successfully"
         end)
        (fun e =>
           match e with
           | ConnectionFailure m =>
               print_w ("✗ MongoDB connection failed: " +:+ m) ;;; raise e
           | _ => raise e
           end) ;;;
      f <~ gets index_fault ;;
      match f with
      | Some e => raise (PyMongoError e)
      | None => ret (MkMongoDBConfig uri)
      end
  end.

(** The [for doc in find()] loop of [get_all_face_encodings], with the two
    local lists it appends to.  On an exception the lists are returned as
    they stand at that point. *)
Fixpoint for_doc_in (c : list cursor_item)
    (encodings : list encoding) (names : list string)
    : option exn * (list encoding * list string) :=
  match c with
  | [] => (None, (encodings, names))
  | CursorError e :: _ => (Some (PyMongoError e), (encodings, names))
  | Doc d :: rest =>
      match doc_encoding d with
      | None => (Some (KeyError "encoding"), (encodings, names))
      | Some enc =>
          let encodings := encodings ++ [enc] in
          match doc_user_name d with
          | None => (Some (KeyError "user_name"), (encodings, names))
          | Some n => for_doc_in rest encodings (names ++ [n])
          end
      end
  end.

Definition get_all_face_encodings (self : MongoDBConfig)
    : py world (list encoding * list string) :=
  c <~ gets encodings_cursor ;;
  match for_doc_in c [] [] with
  | (None, (encodings, names)) => ret (encodings, names)
  | (Some e, _) =>
      print_w ("✗ Failed to load encodings: " +:+ exn_str e) ;;;
      ret ([], [])
  end.

(** A [datetime] as the driver writes it and reads it back: a BSON date
    counts milliseconds, the microseconds below are dropped. *)
Definition bson_date (t : datetime) : datetime :=
  Datetime (year t) (month t) (day t) (hour t) (minute t) (second t)
           (microsecond t / 1000 * 1000)%N.

(** The document that is stored for [doc]. *)
Definition stored (doc : AccessLogEntry) : AccessLogEntry :=
  LogEntry (user_name doc) (status doc) (access_type doc) (confidence doc)
           (bson_date (timestamp doc)).

Definition insert_one (doc : AccessLogEntry) : py world unit :=
  f <~ gets insert_fault ;;
  match f with
  | Some e => raise (PyMongoError e)
  | None => modify (set_access_logs (fun l => l ++ [stored doc]))
  end.

(** [MongoDBConfig.log_access(user_name, status, access_type, confidence=None)] *)
Definition log_access (self : MongoDBConfig)
    (user_name status access_type : string) (confidence : option string)
    : py world unit :=
  try_except
    (t <~ gets utcnow ;;
     insert_one (LogEntry user_name status access_type confidence t))
    (fun e => print_w ("✗ Failed to log access: " +:+ exn_str e)).

(** ** cloud_server.py *)

Definition set_mongo_db (db : MongoDBConfig) (s : state) : state :=
  let g := glob s in
  State (Globals (QR_HASH g) (PORT g) (Some db) (known_face_encodings g)
                 (known_face_names g) (encodings_loaded g) (session_cache g))
        (ext s).

Definition set_gallery (encodings : list encoding) (names : list string)
    (s : state) : state :=
  let g := glob s in
  State (Globals (QR_HASH g) (PORT g) (mongo_db g) encodings names true
                 (session_cache g))
        (ext s).

Definition set_session (session_id : string) (s : state) : state :=
  let g := glob s in
  State (Globals (QR_HASH g) (PORT g) (mongo_db g) (known_face_encodings g)
                 (known_face_names g) (encodings_loaded g)
                 (<[session_id := true]> (session_cache g)))
        (ext s).

(** The attribute lookup [mongo_db.<attr>]: fails on [None]. *)
Definition the_mongo_db (attr : string) : py state MongoDBConfig :=
  db <~ gets (fun s => mongo_db (glob s)) ;;
  match db with
  | Some db => ret db
  | None => raise (AttributeError
      ("'NoneType' object has no attribute '" +:+ attr +:+ "'"))
  end.

Definition load_faces_from_mongo : py state unit :=
  db <~ the_mongo_db "get_all_face_encodings" ;;
  r <~ lift (get_all_face_encodings db) ;;
  let '(encodings, names) := r in
  if Nat.eqb (List.length encodings) 0 then
    print "⚠ No face encodings found in MongoDB"
  else
    modify (set_gallery encodings names) ;;;
    print ("✓ Loaded " +:+ pretty (List.length encodings) +:+ " face encodings").

Definition banner : string := "==================================================".

Definition initialize_system : py state unit :=
  print banner ;;;
  print "ESP32-CAM CLOUD SERVER STARTING" ;;;
  print banner ;;;
  try_except
    (mongo_uri <~ gets (fun s => environ (ext s) !! "MONGO_URI") ;;
     match mongo_uri with
     | None | Some "" => raise (Exception "MONGO_URI not set")
     | Some uri =>
         db <~ lift (MongoDBConfig_init (Some uri)) ;;
         modify (set_mongo_db db) ;;;
         print "✓ MongoDB Atlas connected" ;;;
         load_faces_from_mongo
     end)
    (fun e => print ("✗ Startup error: " +:+ exn_str e)) ;;;
  print "✓ Server Ready" ;;;
  print banner.

(** The globals as the module assigns them before [initialize_system]
    is called. *)
Definition process_start (qr_hash : string) (port : Z) : globals :=
  Globals qr_hash port None [] [] false ∅.

(** Importing the module: the environment is read, the globals get their
    initial values and [initialize_system()] runs.  [Return g]: the import
    succeeded and the application serves requests on the globals [g];
    [Raise e]: the import failed and no request is ever served. *)
Definition cloud_server (w : world) : outcome globals * world :=
  match environ w !! "QR_HASH" with
  | None | Some "" =>
      (Raise (RuntimeError "QR_HASH environment variable not set"), w)
  | Some qr_hash =>
      match match environ w !! "PORT" with
            | None => Some 5000%Z
            | Some p => int p
            end with
      | None => (Raise (ValueError "invalid literal for int()"), w)
      | Some port =>
          match initialize_system (State (process_start qr_hash port) w) with
          | (Return _, s) => (Return (glob s), ext s)
          | (Raise e, s) => (Raise e, ext s)
          end
      end
  end.

(** [cv2.cvtColor(image_np, ..)]: raises on [None]; the colour space is
    not tracked. *)
Definition cvtColor (image_np : option frame) : py state frame :=
  match image_np with
  | Some f => ret f
  | None => raise (cv2_error "(-215:Assertion failed) !_src.empty() in function 'cvtColor'")
  end.

Definition decode_qr (image_np : option frame) : py state (option string) :=
  gray <~ cvtColor image_np ;;
  match pyzbar_decode gray with
  | [] => ret None
  | Some data :: _ => ret (Some data)
  | None :: _ => raise (UnicodeDecodeError "'utf-8' codec can't decode")
  end.

Definition validate_qr (g : globals) (qr_data : option string) : bool :=
  match qr_data with
  | None | Some "" => false
  | Some qr_data =>
      if String.eqb qr_data (QR_HASH g) then true
      else
        let hashed := Hashlib.sha256_hexdigest (Hashlib.encode qr_data) in
        String.eqb hashed (QR_HASH g)
  end.

(** [l[i]] *)
Definition index {A} (l : list A) (i : nat) : py state A :=
  match l !! i with
  | Some x => ret x
  | None => raise (IndexError "index out of range")
  end.

(** [np.argmin] on float64: the scan keeps the first least value and
    stops at the first NaN, which it takes for the minimum. *)
Fixpoint argmin_from (best : nat) (m : float) (i : nat) (l : list float)
    : nat :=
  match l with
  | [] => best
  | x :: t =>
      if (m <=? x)%float then argmin_from best m (S i) t
      else if is_nan x then i
      else argmin_from i x (S i) t
  end.

Definition argmin (l : list float) : py state nat :=
  match l with
  | [] => raise (ValueError "attempt to get argmin of an empty sequence")
  | x :: t => ret (if is_nan x then 0%nat else argmin_from 0 x 1 t)
  end.

Definition recognize_face (image_np : option frame)
    : py state (option string * string) :=
  loaded <~ gets (fun s => encodings_loaded (glob s)) ;;
  if negb loaded then ret (None, "No encodings loaded")
  else
    rgb <~ cvtColor image_np ;;
    let locations := face_locations rgb in
    match locations with
    | [] => ret (None, "No face detected")
    | _ =>
        let encodings := face_encodings rgb locations in
        face_encoding <~ index encodings 0 ;;
        known <~ gets (fun s => known_face_encodings (glob s)) ;;
        let distances := face_distance known face_encoding in
        best_match <~ argmin distances ;;
        d <~ index distances best_match ;;
        let confidence := (1 - d)%float in
        if (0.5 <? confidence)%float then
          names <~ gets (fun s => known_face_names (glob s)) ;;
          name <~ index names best_match ;;
          ret (Some name, format_1f (confidence * 100) +:+ "%")
        else ret (None, "Face not recognized")
    end.

(** *** Routes *)

Inductive jval :=
| JBool (b : bool)
| JStr (s : string).

(** [jsonify(body), code]; an exception that leaves a route is answered
    by Flask with a 500 and is kept as [Raise]. *)
Record response := Response { body : gmap string jval; code : nat }.

(** [base64.b64decode(data["image"])] followed by [cv2.imdecode] *)
Definition load_image (image : string) : py state (option frame) :=
  match b64decode image with
  | None => raise (binascii_Error "Incorrect padding")
  | Some bytes => ret (imdecode bytes)
  end.

(** [if name:] on a value that is [None] or a string: the name when it
    is a non-empty string. *)
Definition truthy (name : option string) : option string :=
  match name with
  | Some "" => None
  | _ => name
  end.

Definition verify_qr (data : gmap string string) : py state response :=
  match data !! "image" with
  | None => ret (Response {[ "error" := JStr "No image" ]} 400)
  | Some image =>
      image_np <~ load_image image ;;
      qr_data <~ decode_qr image_np ;;
      valid <~ gets (fun s => validate_qr (glob s) qr_data) ;;
      if valid then
        t <~ gets (fun s => now (ext s)) ;;
        let session_id :=
          Hashlib.md5_hexdigest (Hashlib.encode (datetime_str t)) in
        modify (set_session session_id) ;;;
        db <~ the_mongo_db "log_access" ;;
        lift (log_access db "QR" "opened" "qr" None) ;;;
        ret (Response {[ "valid" := JBool true;
                         "session_id" := JStr session_id ]} 200)
      else
        db <~ the_mongo_db "log_access" ;;
        lift (log_access db "QR" "denied" "qr" None) ;;;
        ret (Response {[ "valid" := JBool false ]} 200)
  end.

Definition recognize_face_api (data : gmap string string) : py state response :=
  loaded <~ gets (fun s => encodings_loaded (glob s)) ;;
  if negb loaded then
    ret (Response {[ "error" := JStr "No face encodings available" ]} 503)
  else
    match data !! "image" with
    | None => ret (Response {[ "error" := JStr "No image" ]} 400)
    | Some image =>
        image_np <~ load_image image ;;
        r <~ recognize_face image_np ;;
        let '(name, msg) := r in
        match truthy name with
        | Some name =>
            db <~ the_mongo_db "log_access" ;;
            lift (log_access db name "opened" "face" None) ;;;
            ret (Response {[ "recognized" := JBool true;
                             "name" := JStr name;
                             "confidence" := JStr msg;
                             "access" := JStr "granted" ]} 200)
        | None =>
            db <~ the_mongo_db "log_access" ;;
            lift (log_access db "Unknown" "denied" "face" None) ;;;
            ret (Response {[ "recognized" := JBool false;
                             "access" := JStr "denied" ]} 200)
        end
    end.

(** The two decision routes of the Flask application. *)
Inductive endpoint := VerifyQr | RecognizeFace.

Definition route (e : endpoint) : gmap string string -> py state response :=
  match e with
  | VerifyQr => verify_qr
  | RecognizeFace => recognize_face_api
  end.

(** What holds of the globals in every state the server runs in: the two
    gallery lists are aligned, and a loaded gallery is not empty and was
    read through a live [mongo_db]. *)
Definition inv (g : globals) : Prop :=
  List.length (known_face_encodings g) = List.length (known_face_names g) /\
  (encodings_loaded g = true ->
   known_face_encodings g <> [] /\ mongo_db g <> None).

(** The world after one call of [log_access] for [entry]: the entry is
    appended, as it is stored, when the store takes the write, and a line
    goes to the standard output when it does not. *)
Definition recorded (entry : AccessLogEntry) (w : world) : world :=
  match insert_fault w with
  | None => set_access_logs (fun l => l ++ [stored entry]) w
  | Some e => set_stdout (fun out => out ++ ["✗ Failed to log access: " +:+ e]) w
  end.

(** The part of the world a request can read apart from the access log,
    the health of its store and the standard output. *)
Definition readable (w : world) :=
  (environ w, connect_fault w, index_fault w, encodings_cursor w,
   now w, utcnow w).

(** Two states that differ at most in the access log, in the health of
    its store and in the standard output. *)
Definition same_but_storage (s1 s2 : state) : Prop :=
  glob s1 = glob s2 /\ readable (ext s1) = readable (ext s2).


(** The world after [log_access] ran for each of [entries] in turn. *)
Definition replay (entries : list AccessLogEntry) (w : world) : world :=
  fold_left (fun w entry => recorded entry w) entries w.

(** All [c] does to the world is to call [log_access], and only for
    entries that satisfy [P]. *)
Definition records (P : AccessLogEntry -> Prop) {A} (c : py state A) : Prop :=
  forall s, exists entries,
    ext (snd (c s)) = replay entries (ext s) /\ Forall P entries.


Definition channel (e : endpoint) : string :=
  match e with
  | VerifyQr => "qr"
  | RecognizeFace => "face"
  end.

(** The text of the first QR symbol of a frame, as [decode_qr] returns
    it. *)
Definition qr_text (f : frame) : option string :=
  match pyzbar_decode f with
  | Some data :: _ => Some data
  | _ => None
  end.

(** The status a response announces to the caller: ["opened"] for a
    grant, ["denied"] for a denial. *)
Definition announced (e : endpoint) (r : response) : option string :=
  match e with
  | VerifyQr =>
      match body r !! "valid" with
      | Some (JBool true) => Some "opened"
      | Some (JBool false) => Some "denied"
      | _ => None
      end
  | RecognizeFace =>
      match body r !! "access" with
      | Some (JStr "granted") => Some "opened"
      | Some (JStr "denied") => Some "denied"
      | _ => None
      end
  end.

(** What [get_all_face_encodings] hands back for a cursor: the two lists
    the loop built when it ran to the end, two empty lists when it
    raised. *)
Definition fetched (c : list cursor_item) : list encoding * list string :=
  match for_doc_in c [] [] with
  | (None, pairs) => pairs
  | (Some _, _) => ([], [])
  end.

(** A storage configuration error at start: no [MONGO_URI], or a server
    that cannot be reached or refuses the index creation. *)
Definition storage_misconfigured (w : world) : Prop :=
  environ w !! "MONGO_URI" = None \/ environ w !! "MONGO_URI" = Some "" \/
  connect_fault w <> None \/ index_fault w <> None.

(** The value of [PORT] the import computes, [None] when [int] raises. *)
Definition port_of (w : world) : option Z :=
  match environ w !! "PORT" with
  | None => Some 5000%Z
  | Some p => int p
  end.

(** The states the application can be in: the one the import leaves, and
    those a request leads to, with any change of the world in between. *)
Inductive reachable : state -> Prop :=
| reach_start w g w' :
    cloud_server w = (Return g, w') -> reachable (State g w')
| reach_request s e data :
    reachable s -> reachable (snd (route e data s))
| reach_world s w :
    reachable s -> reachable (State (glob s) w).

(** [c] leaves every global but [session_cache] as it found it. *)
Definition keeps_gallery {A} (c : py state A) : Prop :=
  forall s,
    known_face_encodings (glob (snd (c s))) = known_face_encodings (glob s) /\
    known_face_names (glob (snd (c s))) = known_face_names (glob s) /\
    encodings_loaded (glob (snd (c s))) = encodings_loaded (glob s) /\
    mongo_db (glob (snd (c s))) = mongo_db (glob s) /\
    QR_HASH (glob (snd (c s))) = QR_HASH (glob s).

(** Every value [c] can return satisfies [P]. *)
Definition answers {A} (P : A -> Prop) (c : py state A) : Prop :=
  forall s a s', c s = (Return a, s') -> P a.

(** The response carries a [session_id] exactly when it says
    [valid: true]. *)
Definition session_iff_valid (r : response) : Prop :=
  body r !! "valid" = Some (JBool true) <-> is_Some (body r !! "session_id").

(** The payloads the spec authorizes for the configured value [secret]:
    the value itself, or a text whose SHA-256 digest is the value. *)
Definition qr_authorized (secret : string) (p : option string) : Prop :=
  match p with
  | None => False
  | Some p =>
      p = secret \/ Hashlib.sha256_hexdigest (Hashlib.encode p) = secret
  end.

(** The session identifier [verify_qr] derives from a clock reading. *)
Definition session_id_at (t : datetime) : string :=
  Hashlib.md5_hexdigest (Hashlib.encode (datetime_str t)).

(** A Python tuple of values that are [None] or strings, as the caller
    of [recognize_face] receives it. *)
Inductive pyval :=
| PyNone
| PyStr (s : string).

Definition as_tuple (r : option string * string) : list pyval :=
  [match fst r with None => PyNone | Some n => PyStr n end; PyStr (snd r)].


Fixpoint ends_with_percent (s : string) : bool :=
  match s with
  | EmptyString => false
  | String c EmptyString => Ascii.eqb c "%"
  | String _ rest => ends_with_percent rest
  end.

End Server.

Arguments Globals {VP}.
Arguments State {VP}.
Arguments World {VP}.

(** ** A concrete provider

    Embeddings of dimension one, where the Euclidean distance is the
    absolute difference.  An image is its own bytes: the first byte tells
    what the frame shows, ["Q"] for a QR symbol carrying the rest as
    text, ["F"] for one face whose embedding is the tenths digit that
    follows, anything else for an empty scene. *)
Module Demo.

Definition text_of (bytes : list Z) : string :=
  string_of_list_ascii (map (fun b => ascii_of_N (Z.to_N b)) bytes).

Definition demo_imdecode (bytes : list Z) : option (list Z) :=
  match bytes with
  | [] => None
  | _ => Some bytes
  end.

Definition demo_pyzbar (f : list Z) : list (option string) :=
  match f with
  | 81%Z :: rest => [Some (text_of rest)]
  | _ => []
  end.

Definition demo_locations (f : list Z) : list unit :=
  match f with
  | 70%Z :: _ => [tt]
  | _ => []
  end.

(** The embedding a frame shows: the digit after the mark, in tenths. *)
Definition tenths (digit : Z) : float :=
  match digit with
  | 49 => 0.1 | 50 => 0.2 | 51 => 0.3 | 52 => 0.4 | 53 => 0.5
  | 54 => 0.6 | 55 => 0.7 | 56 => 0.8 | 57 => 0.9 | _ => 0
  end%float.

Definition demo_encodings (f : list Z) (locs : list unit) : list float :=
  map (fun _ => match f with
                | _ :: d :: _ => tenths d
                | _ => 0%float
                end) locs.

(** The Euclidean distance in dimension one. *)
Definition demo_distance (known : list float) (probe : float) : list float :=
  map (fun k => abs (k - probe)%float) known.

#[export] Instance provider : VisionProvider := {|
  frame := list Z;
  location := unit;
  encoding := float;
  b64decode := fun s => Some (Hashlib.encode s);
  imdecode := demo_imdecode;
  pyzbar_decode := demo_pyzbar;
  face_locations := demo_locations;
  face_encodings := demo_encodings;
  face_distance := demo_distance;
  face_encodings_length := fun f locs => length_map _ locs;
  face_distance_length := fun known probe => length_map _ known
|}.

(** [int] on plain decimal literals. *)
Definition int (s : string) : option Z :=
  match list_ascii_of_string s with
  | [] => None
  | l =>
      fold_left
        (fun acc c =>
           match acc with
           | None => None
           | Some n =>
               let d := Z.of_N (N_of_ascii c) - 48 in
               if (0 <=? d) && (d <=? 9) then Some (10 * n + d) else None
           end) l (Some 0)
  end.

Definition epoch : datetime := Datetime 2026 11 4 9 30 15 250000.

Definition store (docs : list cursor_item) (fault : option string) : world :=
  World {[ "QR_HASH" := "ABC123"; "MONGO_URI" := "mongodb://db" ]}
        None None docs [] fault epoch epoch [].

Definition alice : list cursor_item :=
  [Doc (EncodingDoc (Some 0%float) (Some "alice"))].

(** The server after a start on [store alice fault]. *)
Definition running (fault : option string) : state :=
  State (Globals "ABC123" 5000 (Some (MkMongoDBConfig "mongodb://db"))
                 [0%float] ["alice"] true ∅)
        (store alice fault).

(** A face at distance 0.3, one at distance 0.5 and one at distance 0.6
    from alice. *)
Definition face_03 : list Z := [70; 51].
Definition face_05 : list Z := [70; 53].
Definition face_06 : list Z := [70; 54].

(** The JSON body [{"image": payload}]. *)
Definition img (payload : string) : gmap string string :=
  {[ "image" := payload ]}.

(** The process before any load: no storage handle, no gallery. *)
Definition idle : state :=
  State (process_start "ABC123" 5000) (store [] None).

(** An environment with the QR secret and no [MONGO_URI]. *)
Definition no_mongo_uri : world :=
  World {[ "QR_HASH" := "ABC123" ]} None None [] [] None epoch epoch [].

(** Globals whose configured value is the SHA-256 digest of the empty
    string. *)
Definition digest_of_empty : globals :=
  Globals "e3b0c44298fc1c149afbf4c8996fb92427ae41e4649b934ca495991b7852b855"
          5000 None [] [] false ∅.

(** Globals whose configured value is the secret itself, and globals
    whose configured value is its SHA-256 digest. *)
Definition plain_secret : globals :=
  Globals "ABC123" 5000 None [] [] false ∅.
Definition hashed_secret : globals :=
  Globals "e0bebd22819993425814866b62701e2919ea26f1370499c1037b53b9d49c2c8a"
          5000 None [] [] false ∅.

End Demo.

(** ** The remaining routes *)

Section Status.
Context `{VP : VisionProvider}.

Local Open Scope py_scope.

(** [len(set(names))] *)
Definition distinct_count (names : list string) : nat :=
  size (list_to_set names : gset string).

(** The JSON object [status()] answers with: two booleans and an
    integer. *)
Record status_body := StatusBody
  { online : bool; faces_loaded : bool; known_faces : nat }.

(** [str(b)] of a boolean inside an f-string *)
Definition bool_str (b : bool) : string := if b then "True" else "False".

(** The route [/api/status], called [status] in the source. *)
Definition api_status : py state status_body :=
  loaded <~ gets (fun s => encodings_loaded (glob s)) ;;
  names <~ gets (fun s => known_face_names (glob s)) ;;
  print ("DEBUG: encodings_loaded=" +:+ bool_str loaded
         +:+ ", known_face_names count=" +:+ pretty (List.length names)) ;;;
  ret (StatusBody true loaded (distinct_count names)).

(** The route [/], called [home] in the source. *)
Definition api_home : py state (gmap string jval) :=
  ret {[ "service" := JStr "ESP32-CAM Door Lock"; "status" := JStr "running" ]}.

(** A run of the application: the decision requests are handled one
    after the other, each on the state the one before left, whether it
    returned or raised. *)
Fixpoint serve (requests : list (endpoint * gmap string string)) (s : state)
    : state :=
  match requests with
  | [] => s
  | (e, data) :: rest => serve rest (snd (route e data s))
  end.

(** All [c] does to the world is to call [log_access] at most [n]
    times. *)
Definition records_upto (n : nat) {A} (c : py state A) : Prop :=
  forall s, exists entries,
    (List.length entries <= n)%nat /\
    ext (snd (c s)) = replay entries (ext s).

(** [c] leaves every session of [session_cache] valid. *)
Definition keeps_sessions {A} (c : py state A) : Prop :=
  forall s sid,
    session_cache (glob s) !! sid = Some true ->
    session_cache (glob (snd (c s))) !! sid = Some true.

End Status.

(** ** mongo_config.py: users, stored encodings and the log reader

    The two collections the server itself never writes, with the
    documents as [add_user] and [save_face_encoding] build them. *)

Section Database.
Context `{VP : VisionProvider}.

Local Open Scope py_scope.

(** An [ObjectId] is modelled by the rank of its creation; [str] of it
    is injective. *)
Definition oid_str (oid : N) : string := pretty oid.

Record user_doc := UserDoc
  { user_oid : N;
    user_doc_name : string;
    user_role : string;
    user_created_at : datetime;
    user_is_active : bool }.

Record face_doc := FaceDoc
  { face_oid : N;
    face_user_id : option string;
    face_user_name : string;
    face_encoding : encoding;
    face_image_name : option string;
    face_created_at : datetime }.

(** The database behind a [MongoDBConfig]: the [users] and
    [face_encodings] collections in insertion order, the source of fresh
    [ObjectId]s, the outcome of the driver calls to come ([Some e]: the
    call raises [e]; an exhausted list: every call goes through), and the
    rest of the world ([srv]), whose fields [encodings_cursor] and
    [insert_fault] are not read here: [view] computes them. *)
Record database := Database
  { users_collection : list user_doc;
    encodings_collection : list face_doc;
    next_oid : N;
    faults : list (option string);
    srv : world }.

Definition set_users (f : list user_doc -> list user_doc) (d : database) :=
  Database (f (users_collection d)) (encodings_collection d) (next_oid d)
           (faults d) (srv d).

Definition set_encodings (f : list face_doc -> list face_doc) (d : database) :=
  Database (users_collection d) (f (encodings_collection d)) (next_oid d)
           (faults d) (srv d).

Definition set_srv (w : world) (d : database) :=
  Database (users_collection d) (encodings_collection d) (next_oid d)
           (faults d) w.

(** One round trip to the server: it consumes the next outcome. *)
Definition driver_call : py database unit :=
  fun d =>
    let d' := Database (users_collection d) (encodings_collection d)
                       (next_oid d) (tail (faults d)) (srv d) in
    match faults d with
    | Some e :: _ => (Raise (PyMongoError e), d')
    | _ => (Return tt, d')
    end.

(** A fresh [ObjectId], generated by the driver before the insert is
    sent. *)
Definition fresh_oid : py database N :=
  fun d => (Return (next_oid d),
            Database (users_collection d) (encodings_collection d)
                     (N.succ (next_oid d)) (faults d) (srv d)).

Definition db_print (line : string) : py database unit :=
  modify (fun d => set_srv (set_stdout (fun out => out ++ [line]) (srv d)) d).

(** [users_collection.find_one({"name": name})] *)
Definition get_user_by_name (name : string) : py database (option user_doc) :=
  driver_call ;;;
  gets (fun d => List.find (fun u => String.eqb (user_doc_name u) name)
                           (users_collection d)).

(** [users_collection.find({"is_active": True})] *)
Definition get_all_users : py database (list user_doc) :=
  driver_call ;;;
  gets (fun d => List.filter user_is_active (users_collection d)).

(** [users_collection.insert_one]: the unique index on ["name"], created
    by [_create_indexes], refuses a second document of the same name. *)
Definition insert_user (name role : string) (t : datetime) : py database N :=
  oid <~ fresh_oid ;;
  driver_call ;;;
  users <~ gets users_collection ;;
  if existsb (fun u => String.eqb (user_doc_name u) name) users then
    raise (PyMongoError "E11000 duplicate key error")
  else
    modify (set_users
              (fun l => l ++ [UserDoc oid name role (bson_date t) true])) ;;;
    ret oid.

(** [add_user(name, role="user")] *)
Definition add_user (name role : string) : py database (option string) :=
  try_except
    (t <~ gets (fun d => utcnow (srv d)) ;;
     oid <~ insert_user name role t ;;
     ret (Some (oid_str oid)))
    (fun _ =>
       user <~ get_user_by_name name ;;
       ret (match user with
            | Some u => Some (oid_str (user_oid u))
            | None => None
            end)).

(** [save_face_encoding(user_name, encoding, image_name=None)];
    [encoding.tolist()] and the [np.array] of the reader are inverse to
    each other and are not tracked. *)
Definition save_face_encoding (user_name : string) (enc : encoding)
    (image_name : option string) : py database (option string) :=
  try_except
    (user <~ get_user_by_name user_name ;;
     user_id <~ match user with
                | Some u => ret (Some (oid_str (user_oid u)))
                | None => add_user user_name "user"
                end ;;
     t <~ gets (fun d => utcnow (srv d)) ;;
     oid <~ fresh_oid ;;
     driver_call ;;;
     modify (set_encodings
               (fun l => l ++ [FaceDoc oid user_id user_name enc image_name
                                        (bson_date t)])) ;;;
     ret (Some (oid_str oid)))
    (fun e =>
       db_print ("✗ Failed to save encoding: " +:+ exn_str e) ;;;
       ret None).

(** [delete_user_encodings(user_name)] *)
Definition delete_user_encodings (user_name : string) : py database nat :=
  try_except
    (driver_call ;;;
     docs <~ gets encodings_collection ;;
     let gone := List.filter
                   (fun f => String.eqb (face_user_name f) user_name) docs in
     modify (set_encodings
               (List.filter
                  (fun f => negb (String.eqb (face_user_name f) user_name)))) ;;;
     ret (List.length gone))
    (fun _ => ret 0%nat).

(** What the server reads of a stored encoding. *)
Definition cursor_doc (f : face_doc) : cursor_item :=
  Doc (EncodingDoc (Some (face_encoding f)) (Some (face_user_name f))).

(** The world as the next call of [get_all_face_encodings] or
    [log_access] finds it: the cursor over the stored encodings and the
    health of the access log follow the next outcome. *)
Definition view (d : database) : world :=
  let w := srv d in
  World (environ w) (connect_fault w) (index_fault w)
        (match faults d with
         | Some e :: _ => [CursorError e]
         | _ => List.map cursor_doc (encodings_collection d)
         end)
        (access_logs_collection w)
        (match faults d with
         | Some e :: _ => Some e
         | _ => None
         end)
        (now w) (utcnow w) (stdout w).

(** A method of the claims' model, each of which makes one driver call,
    run against the database. *)
Definition on_view {A} (c : py world A) : py database A :=
  fun d =>
    let '(r, w') := c (view d) in
    (r, Database (users_collection d) (encodings_collection d) (next_oid d)
                 (tail (faults d))
                 (World (environ w') (connect_fault w') (index_fault w')
                        (encodings_cursor (srv d)) (access_logs_collection w')
                        (insert_fault (srv d)) (now w') (utcnow w')
                        (stdout w'))).

(** Timestamps are stored and compared at millisecond precision. *)
Definition datetime_key (t : datetime) : list N :=
  [year t; month t; day t; hour t; minute t; second t;
   (microsecond t / 1000)%N].

Fixpoint lex_leb (a b : list N) : bool :=
  match a, b with
  | [], _ => true
  | _ :: _, [] => false
  | x :: a', y :: b' =>
      if (x <? y)%N then true
      else if (y <? x)%N then false
      else lex_leb a' b'
  end.

(** [a] is not older than [b]: the order of [.sort("timestamp", -1)]. *)
Definition newer_first (a b : AccessLogEntry) : Prop :=
  lex_leb (datetime_key (timestamp b)) (datetime_key (timestamp a)) = true.

#[export] Instance newer_first_dec (a b : AccessLogEntry) :
  Decision (newer_first a b).
Proof. unfold newer_first. apply _. Defined.

(** [get_access_logs(limit=100, user_name=None)] for a limit that is
    not negative; [.limit(0)] sets no limit.  The argument [user_name] is
    called [wanted] here, next to the field of that name. *)
Definition get_access_logs (limit : N) (wanted : option string)
    : py database (list AccessLogEntry) :=
  driver_call ;;;
  logs <~ gets (fun d => access_logs_collection (srv d)) ;;
  let found :=
    match wanted with
    | None | Some "" => logs
    | Some name => List.filter (fun en => String.eqb (user_name en) name) logs
    end in
  let sorted := merge_sort newer_first found in
  ret (if (limit =? 0)%N then sorted else firstn (N.to_nat limit) sorted).

(** All the identifiers in use. *)
Definition all_oids (d : database) : list N :=
  (user_oid <$> users_collection d) ++ (face_oid <$> encodings_collection d).

(** No two users share a name, no two documents an identifier, and the
    identifiers in use are older than the next fresh one. *)
Definition consistent (d : database) : Prop :=
  NoDup (user_doc_name <$> users_collection d) /\
  NoDup (all_oids d) /\
  Forall (fun oid => (oid < next_oid d)%N) (all_oids d).

Definition steady {A} (c : py database A) : Prop :=
  forall d, consistent d -> consistent (snd (c d)).

(** From [d] to [d'] nothing was written but, at most, one user of
    the name given. *)
Definition adds_at_most_user (name : string) (d d' : database) : Prop :=
  encodings_collection d' = encodings_collection d /\
  srv d' = srv d /\
  (users_collection d' = users_collection d \/
   exists usr, users_collection d' = users_collection d ++ [usr] /\
               user_doc_name usr = name).

(** The entries a query for [wanted] selects: every entry when no name,
    or the empty name, is given. *)
Definition selects (wanted : option string) (en : AccessLogEntry) : Prop :=
  forall name, wanted = Some name -> name <> "" -> user_name en = name.

End Database.

(** ** A second concrete provider

    A frame is a picture of an album: the QR symbols and the face
    embeddings (of dimension one) it shows, in the order the detectors
    report them.  The image payload is one letter, the rank of the
    picture; ["!"] is not valid base64. *)
Module Album.

Record picture :=
  Picture { symbols : list (option string); faces : list float }.

Definition album : list picture :=
  [ Picture [Some "nope"; Some "ABC123"] [];
    Picture [Some "nope"] [];
    Picture [] [0.3; 0.9]%float;
    Picture [] [0.3]%float;
    Picture [] [5]%float;
    Picture [None] [];
    Picture [Some "ABC123"] [];
    Picture [] [0x1.fffffffffffffp-2]%float;
    Picture [] [0.0005]%float ].

Definition album_b64decode (s : string) : option (list Z) :=
  if String.eqb s "!" then None else Some (Hashlib.encode s).

Definition album_imdecode (bytes : list Z) : option picture :=
  match bytes with
  | [b] => album !! Z.to_nat (b - 97)
  | _ => None
  end.

Definition album_locations (f : picture) : list nat :=
  seq 0 (List.length (faces f)).

Definition album_encodings (f : picture) (locs : list nat) : list float :=
  map (fun i => nth i (faces f) 0%float) locs.

Definition provider : VisionProvider := {|
  frame := picture;
  location := nat;
  encoding := float;
  b64decode := album_b64decode;
  imdecode := album_imdecode;
  pyzbar_decode := symbols;
  face_locations := album_locations;
  face_encodings := album_encodings;
  face_distance := Demo.demo_distance;
  face_encodings_length := fun f locs => length_map _ locs;
  face_distance_length := fun known probe => length_map _ known
|}.

Definition quiet : world (VP := provider) :=
  World (VP := provider)
        {[ "QR_HASH" := "ABC123"; "MONGO_URI" := "mongodb://db" ]}
        None None [] [] None Demo.epoch Demo.epoch [].

(** A server with three enrolled embeddings, one of them under the
    empty name, and one session. *)
Definition enrolled : state (VP := provider) :=
  State (Globals (VP := provider) "ABC123" 5000
                 (Some (MkMongoDBConfig "mongodb://db"))
                 [0; 1; 5]%float ["alice"; "bob"; ""] true
                 {[ "s1" := true ]})
        quiet.

(** The same server without a storage handle. *)
Definition detached : state (VP := provider) :=
  State (Globals (VP := provider) "ABC123" 5000 None [] [] false ∅) quiet.

Definition photo (letter : string) : gmap string string :=
  {[ "image" := letter ]}.

(** An environment whose [PORT] is not a number. *)
Definition bad_port : world (VP := provider) :=
  World (VP := provider)
        {[ "QR_HASH" := "ABC123"; "PORT" := "http" ]}
        None None [] [] None Demo.epoch Demo.epoch [].


(** A database with one user and one stored encoding. *)
Definition small_db : database (VP := provider) :=
  Database [UserDoc 0 "alice" "admin" Demo.epoch true]
           [FaceDoc (VP := provider) 1 (Some "0") "alice" 0%float None Demo.epoch]
           2 [] quiet.

(** The same database after three decisions, stored out of order. *)
Definition audited : database (VP := provider) :=
  Database [UserDoc 0 "alice" "admin" Demo.epoch true]
           [FaceDoc (VP := provider) 1 (Some "0") "alice" 0%float None Demo.epoch]
           2 []
           (World (VP := provider)
                  {[ "QR_HASH" := "ABC123"; "MONGO_URI" := "mongodb://db" ]}
                  None None []
                  [ LogEntry "alice" "opened" "face" (Some "70.0%")
                             (Datetime 2026 11 4 9 30 15 250000);
                    LogEntry "bob" "opened" "face" (Some "81.5%")
                             (Datetime 2026 11 4 9 31 2 0);
                    LogEntry "alice" "opened" "face" (Some "66.0%")
                             (Datetime 2026 11 4 9 29 40 120000) ]
                  None Demo.epoch Demo.epoch []).

End Album.

(** * Properties *)

Section FloatOrder.

Lemma digits2_pos_bounds (p : positive) :
  2 ^ (Zpos (digits2_pos p) - 1) <= Zpos p < 2 ^ Zpos (digits2_pos p).
Proof.
  induction p as [p IH|p IH|]; cbn [digits2_pos].
  - rewrite Pos2Z.inj_succ.
    replace (Z.succ (Zpos (digits2_pos p)) - 1) with (Z.succ (Zpos (digits2_pos p) - 1)) by lia.
    rewrite !Z.pow_succ_r by lia. lia.
  - rewrite Pos2Z.inj_succ.
    replace (Z.succ (Zpos (digits2_pos p)) - 1) with (Z.succ (Zpos (digits2_pos p) - 1)) by lia.
    rewrite !Z.pow_succ_r by lia. lia.
  - cbn. lia.
Qed.

Lemma digits2_pos_unique (p : positive) (d : Z) :
  2 ^ (d - 1) <= Zpos p < 2 ^ d -> Zpos (digits2_pos p) = d.
Proof.
  intros [Hlo Hhi]. pose proof (digits2_pos_bounds p) as [Hlo' Hhi'].
  assert (Hd : 0 < d).
  { destruct (Z.ltb_spec 0 d) as [|Hle]; [assumption|].
    rewrite (Z.pow_neg_r 2 (d - 1)) in Hlo by lia.
    destruct (Z.eqb_spec d 0) as [->|]; [cbn in Hhi; lia|].
    rewrite Z.pow_neg_r in Hhi by lia. lia. }
  destruct (Z.lt_trichotomy (Zpos (digits2_pos p)) d) as [Hlt|[Heq|Hgt]];
    [|exact Heq|].
  - assert (2 ^ Zpos (digits2_pos p) <= 2 ^ (d - 1))
      by (apply Z.pow_le_mono_r; lia). lia.
  - assert (2 ^ d <= 2 ^ (Zpos (digits2_pos p) - 1))
      by (apply Z.pow_le_mono_r; lia). lia.
Qed.

(** What [valid_binary] says of a finite binary64 value. *)
Lemma valid_finite (s : bool) (m : positive) (e : Z) :
  valid_binary (S754_finite s m e) = true ->
  -1074 <= e <= 971 /\ Zpos m < 2 ^ 53 /\ (-1074 < e -> 2 ^ 52 <= Zpos m).
Proof.
  cbn [SpecFloat.valid_binary]. unfold bounded, canonical_mantissa, fexp.
  intros H. apply andb_true_iff in H as [Hc He].
  apply Z.eqb_eq in Hc. apply Z.leb_le in He.
  change (emax - prec) with 971 in He. change (SpecFloat.emin prec emax) with (-1074) in Hc.
  change prec with 53 in Hc.
  pose proof (digits2_pos_bounds m) as [Hlo Hhi].
  set (d := Zpos (digits2_pos m)) in *.
  assert (Hd : d <= 53) by lia.
  split; [lia|]. split.
  - assert (2 ^ d <= 2 ^ 53) by (apply Z.pow_le_mono_r; lia). lia.
  - intros Hn. assert (d = 53) by lia. subst d.
    replace (2 ^ 52) with (2 ^ (Zpos (digits2_pos m) - 1)); [exact Hlo|].
    rewrite H. reflexivity.
Qed.

Ltac order_by_rank :=
  match goal with
  | |- (?a ?= ?b) = Lt => change (a < b); lia
  | |- (?a ?= ?b) = Gt => change (a > b); lia
  | |- (?a ?= ?b) = Eq => apply Z.compare_eq_iff; lia
  end.

Lemma SFcompare_rank (x y : spec_float) :
  valid_binary x = true -> valid_binary y = true ->
  not_nan x -> not_nan y ->
  SFcompare x y = Some (rank x ?= rank y).
Proof.
  intros Hx Hy Nx Ny.
  assert (H70 : 2 ^ 70 = 1180591620717411303424) by reflexivity.
  assert (H53 : 2 ^ 53 = 9007199254740992) by reflexivity.
  destruct x as [sx|sx| |sx mx ex], y as [sy|sy| |sy my ey];
    try (exfalso; apply Nx; reflexivity); try (exfalso; apply Ny; reflexivity);
    try apply valid_finite in Hx as (Hex & Hmx & _);
    try apply valid_finite in Hy as (Hey & Hmy & _);
    cbn [SFcompare rank]; rewrite ?H70, ?H53 in *;
    try (destruct sx); try (destruct sy); try reflexivity;
    f_equal; symmetry; try order_by_rank.
  - destruct (Z.compare_spec ex ey) as [->|Hlt|Hgt]; [|order_by_rank..].
    change (Pos.compare_cont Eq mx my) with (Pos.compare mx my).
    rewrite Pos2Z.inj_compare.
    destruct (Z.compare_spec (Zpos mx) (Zpos my)); cbn [CompOpp];
      order_by_rank.
  - destruct (Z.compare_spec ex ey) as [->|Hlt|Hgt]; [|order_by_rank..].
    change (Pos.compare_cont Eq mx my) with (Pos.compare mx my).
    rewrite Pos2Z.inj_compare.
    destruct (Z.compare_spec (Zpos mx) (Zpos my)); order_by_rank.
Qed.

Lemma is_nan_spec (x : float) : is_nan x = true <-> Prim2SF x = S754_nan.
Proof.
  unfold is_nan. rewrite FloatAxioms.eqb_spec. unfold SFeqb.
  pose proof (Prim2SF_valid x) as Hv.
  destruct (Prim2SF x) as [s|s| |s m e] eqn:E.
  - cbn. split; discriminate.
  - destruct s; cbn; split; discriminate.
  - cbn. split; reflexivity.
  - rewrite (SFcompare_rank _ _ Hv Hv) by discriminate.
    rewrite Z.compare_refl. cbn. split; discriminate.
Qed.

Lemma is_nan_false (x : float) : is_nan x = false <-> not_nan (Prim2SF x).
Proof.
  unfold not_nan. rewrite <- is_nan_spec. destruct (is_nan x); split; congruence.
Qed.

(** On values that are not NaN, [<=?] and [<?] are the order of the
    ranks; a comparison with a NaN is false. *)
Lemma leb_rank (x y : float) :
  is_nan x = false -> is_nan y = false ->
  (x <=? y)%float = (rank (Prim2SF x) <=? rank (Prim2SF y)).
Proof.
  intros Hx Hy. apply is_nan_false in Hx, Hy.
  rewrite FloatAxioms.leb_spec. unfold SFleb.
  rewrite (SFcompare_rank _ _ (Prim2SF_valid x) (Prim2SF_valid y) Hx Hy).
  unfold Z.leb. destruct (rank (Prim2SF x) ?= rank (Prim2SF y)); reflexivity.
Qed.

Lemma ltb_rank (x y : float) :
  is_nan x = false -> is_nan y = false ->
  (x <? y)%float = (rank (Prim2SF x) <? rank (Prim2SF y)).
Proof.
  intros Hx Hy. apply is_nan_false in Hx, Hy.
  rewrite FloatAxioms.ltb_spec. unfold SFltb.
  rewrite (SFcompare_rank _ _ (Prim2SF_valid x) (Prim2SF_valid y) Hx Hy).
  unfold Z.ltb. destruct (rank (Prim2SF x) ?= rank (Prim2SF y)); reflexivity.
Qed.

Lemma leb_not_nan (x y : float) :
  (x <=? y)%float = true -> is_nan x = false /\ is_nan y = false.
Proof.
  rewrite FloatAxioms.leb_spec. unfold SFleb. intros H.
  destruct (is_nan x) eqn:Hx.
  { apply is_nan_spec in Hx. rewrite Hx in H. discriminate. }
  destruct (is_nan y) eqn:Hy; [|auto].
  apply is_nan_spec in Hy. rewrite Hy in H.
  destruct (Prim2SF x); discriminate.
Qed.

Lemma ltb_not_nan (x y : float) :
  (x <? y)%float = true -> is_nan x = false /\ is_nan y = false.
Proof.
  rewrite FloatAxioms.ltb_spec. unfold SFltb. intros H.
  destruct (is_nan x) eqn:Hx.
  { apply is_nan_spec in Hx. rewrite Hx in H. discriminate. }
  destruct (is_nan y) eqn:Hy; [|auto].
  apply is_nan_spec in Hy. rewrite Hy in H.
  destruct (Prim2SF x); discriminate.
Qed.

Lemma leb_refl (x : float) : is_nan x = false -> (x <=? x)%float = true.
Proof. intros H. rewrite leb_rank by assumption. apply Z.leb_refl. Qed.

Lemma leb_trans (x y z : float) :
  (x <=? y)%float = true -> (y <=? z)%float = true -> (x <=? z)%float = true.
Proof.
  intros Hxy Hyz.
  destruct (leb_not_nan _ _ Hxy) as [Nx Ny], (leb_not_nan _ _ Hyz) as [_ Nz].
  rewrite leb_rank in * by assumption. lia.
Qed.

Lemma ltb_leb_trans (x y z : float) :
  (x <? y)%float = true -> (y <=? z)%float = true -> (x <? z)%float = true.
Proof.
  intros Hxy Hyz.
  destruct (ltb_not_nan _ _ Hxy) as [Nx Ny], (leb_not_nan _ _ Hyz) as [_ Nz].
  rewrite leb_rank in Hyz by assumption. rewrite ltb_rank in * by assumption.
  lia.
Qed.

Lemma ltb_leb (x y : float) : (x <? y)%float = true -> (x <=? y)%float = true.
Proof.
  intros H. destruct (ltb_not_nan _ _ H) as [Nx Ny].
  rewrite ltb_rank in H by assumption. rewrite leb_rank by assumption. lia.
Qed.

(** [not (m <= x)] for two values that are not NaN is [x < m]. *)
Lemma not_leb_ltb (m x : float) :
  is_nan m = false -> is_nan x = false ->
  (m <=? x)%float = false -> (x <? m)%float = true.
Proof.
  intros Nm Nx H. rewrite leb_rank in H by assumption.
  rewrite ltb_rank by assumption. lia.
Qed.

End FloatOrder.

Section FloatRounding.

Lemma shr_1_m (mrs : shr_record) :
  0 <= shr_m mrs -> shr_m (shr_1 mrs) = shr_m mrs / 2.
Proof.
  destruct mrs as [m r s]. cbn [shr_m]. intros Hm.
  destruct m as [|p|p]; [reflexivity | | lia].
  destruct p as [p|p|]; cbn [shr_1 shr_m].
  - rewrite Pos2Z.inj_xI. apply Z.div_unique with 1; lia.
  - rewrite (Pos2Z.inj_xO p). apply Z.div_unique with 0; lia.
  - reflexivity.
Qed.

Lemma iter_pos_shr (p : positive) :
  forall mrs, 0 <= shr_m mrs ->
    shr_m (SpecFloat.iter_pos shr_1 p mrs) = shr_m mrs / 2 ^ Zpos p.
Proof.
  induction p as [p IH|p IH|]; intros mrs Hm; cbn [SpecFloat.iter_pos].
  - assert (H1 : 0 <= shr_m (shr_1 mrs))
      by (rewrite shr_1_m by assumption; apply Z.div_pos; lia).
    assert (H2 : 0 <= shr_m (SpecFloat.iter_pos shr_1 p (shr_1 mrs)))
      by (rewrite IH by assumption; apply Z.div_pos; [assumption|lia]).
    assert (E : 2 ^ Zpos p~1 = 2 * (2 ^ Zpos p * 2 ^ Zpos p)).
    { rewrite Pos2Z.inj_xI, Z.pow_add_r, Z.pow_twice_r by lia.
      change (2 ^ 1) with 2. ring. }
    assert (0 < 2 ^ Zpos p) by (apply Z.pow_pos_nonneg; lia).
    rewrite IH, IH, shr_1_m, E by assumption.
    rewrite !Z.div_div by lia. reflexivity.
  - assert (H2 : 0 <= shr_m (SpecFloat.iter_pos shr_1 p mrs))
      by (rewrite IH by assumption; apply Z.div_pos; [assumption|lia]).
    assert (E : 2 ^ Zpos p~0 = 2 ^ Zpos p * 2 ^ Zpos p).
    { rewrite (Pos2Z.inj_xO p), Z.pow_twice_r. reflexivity. }
    assert (0 < 2 ^ Zpos p) by (apply Z.pow_pos_nonneg; lia).
    rewrite IH, IH, E by assumption.
    rewrite Z.div_div by lia. reflexivity.
  - rewrite shr_1_m by assumption. reflexivity.
Qed.

(** Rounding a product that falls in the normal range: the result is an
    infinity, or the mantissa cut to 53 bits and possibly increased, at
    the exponent of the cut, or a power of two at the next exponent. *)
Lemma binary_round_aux_lower (P : positive) (ex : Z) :
  53 <= Zpos (digits2_pos P) ->
  -1074 <= Zpos (digits2_pos P) + ex - 53 ->
  binary_round_aux prec emax false (Zpos P) ex loc_Exact = S754_infinity false \/
  exists m' e',
    binary_round_aux prec emax false (Zpos P) ex loc_Exact
      = S754_finite false m' e' /\
    ((e' = ex + (Zpos (digits2_pos P) - 53) /\
      Zpos P / 2 ^ (Zpos (digits2_pos P) - 53) <= Zpos m') \/
     (e' = ex + (Zpos (digits2_pos P) - 53) + 1 /\ Zpos m' = 2 ^ 52)).
Proof.
  intros Hd Hn.
  pose proof (digits2_pos_bounds P) as [Hlo Hhi].
  set (d := Zpos (digits2_pos P)) in *.
  set (n := d - 53).
  assert (Hm1 : 2 ^ 52 <= Zpos P / 2 ^ n < 2 ^ 53).
  { assert (Hpow : 2 ^ d = 2 ^ n * 2 ^ 53).
    { rewrite <- Z.pow_add_r by lia. f_equal. lia. }
    assert (Hpow' : 2 ^ (d - 1) = 2 ^ n * 2 ^ 52).
    { rewrite <- Z.pow_add_r by lia. f_equal. lia. }
    assert (0 < 2 ^ n) by (apply Z.pow_pos_nonneg; lia).
    split.
    - apply Z.div_le_lower_bound; lia.
    - apply Z.div_lt_upper_bound; lia. }
  (* the first shift *)
  assert (Hfirst : exists mrs,
            shr_fexp prec emax (Zpos P) ex loc_Exact = (mrs, ex + n) /\
            shr_m mrs = Zpos P / 2 ^ n).
  { unfold shr_fexp. cbn [Zdigits2 shr_record_of_loc]. fold d.
    unfold fexp. change (SpecFloat.emin prec emax) with (-1074).
    change prec with 53.
    replace (Z.max (d + ex - 53) (-1074) - ex) with n by (subst n; lia).
    destruct n as [|p|p] eqn:En; [| |lia].
    - eexists. split; [cbn [shr]; f_equal; lia|]. cbn [shr_m].
      rewrite Z.div_1_r. reflexivity.
    - eexists. split; [reflexivity|].
      rewrite iter_pos_shr by (cbn; lia). reflexivity. }
  destruct Hfirst as (mrs & Hshift & Hmrs).
  unfold binary_round_aux. rewrite Hshift.
  set (m2 := round_nearest_even (shr_m mrs) (loc_of_shr_record mrs)).
  assert (Hm2 : m2 = shr_m mrs \/ m2 = shr_m mrs + 1).
  { subst m2. unfold round_nearest_even.
    destruct (loc_of_shr_record mrs) as [|[| |]]; auto.
    destruct (Z.even (shr_m mrs)); auto. }
  rewrite Hmrs in Hm2.
  assert (H53 : 2 ^ 53 = 9007199254740992) by reflexivity.
  assert (H52 : 2 ^ 52 = 4503599627370496) by reflexivity.
  destruct (Z.eq_dec m2 (2 ^ 53)) as [Hcarry|Hnc].
  - (* the increment carried into bit 54 *)
    rewrite Hcarry. change (2 ^ 53) with (Zpos 9007199254740992).
    unfold shr_fexp. cbn [Zdigits2 shr_record_of_loc].
    change (Zpos (digits2_pos 9007199254740992)) with 54.
    unfold fexp. change (SpecFloat.emin prec emax) with (-1074).
    change prec with 53.
    replace (Z.max (54 + (ex + n) - 53) (-1074) - (ex + n)) with 1
      by (subst n; lia).
    cbn [shr SpecFloat.iter_pos shr_1 shr_m].
    change (emax - 53) with 971.
    destruct (Z.leb (ex + n + 1) 971); [|left; reflexivity].
    right. eexists _, _. split; [reflexivity|]. right. split; reflexivity.
  - assert (Hr : 2 ^ 52 <= m2 < 2 ^ 53) by lia.
    destruct m2 as [|q|q] eqn:Eq; [lia| |lia].
    unfold shr_fexp. cbn [Zdigits2 shr_record_of_loc].
    rewrite (digits2_pos_unique q 53) by (change (53 - 1) with 52; lia).
    unfold fexp. change (SpecFloat.emin prec emax) with (-1074).
    change prec with 53.
    replace (Z.max (53 + (ex + n) - 53) (-1074) - (ex + n)) with 0
      by (subst n; lia).
    cbn [shr shr_m].
    change (emax - 53) with 971.
    destruct (Z.leb (ex + n) 971); [|left; reflexivity].
    right. eexists _, _. split; [reflexivity|]. left. split; [reflexivity|].
    fold n. lia.
Qed.

(** A confidence above one half is a percentage above fifty: the
    product by 100 is rounded, and the rounding cannot bring it down to
    50. *)
Lemma above_half_above_fifty (c : float) :
  (0.5 <? c)%float = true -> (50 <? c * 100)%float = true.
Proof.
  rewrite !FloatAxioms.ltb_spec, FloatAxioms.mul_spec.
  pose proof (Prim2SF_valid c) as Hv.
  change (Prim2SF 0.5) with (S754_finite false 4503599627370496 (-53)).
  change (Prim2SF 50) with (S754_finite false 7036874417766400 (-47)).
  change (Prim2SF 100) with (S754_finite false 7036874417766400 (-46)).
  destruct (Prim2SF c) as [s|s| |s m e]; try discriminate.
  - destruct s; [discriminate | reflexivity].
  - destruct s; [discriminate|].
    apply valid_finite in Hv as (He & Hm & Hnorm).
    unfold SFltb. cbn [SFcompare].
    intros Hc.
    assert (Hpos : -53 < e \/ (e = -53 /\ 4503599627370496 < Zpos m)).
    { destruct (Z.compare_spec (-53) e) as [<-|Hlt|Hgt]; [|lia|discriminate].
      right. split; [reflexivity|].
      change (Pos.compare_cont Eq 4503599627370496 m)
        with (Pos.compare 4503599627370496 m) in Hc.
      destruct (Pos.compare_spec 4503599627370496 m); try discriminate. lia. }
    clear Hc.
    assert (H53 : 2 ^ 53 = 9007199254740992) by reflexivity.
    assert (H52 : 2 ^ 52 = 4503599627370496) by reflexivity.
    assert (Hm52 : 4503599627370496 <= Zpos m) by (rewrite <- H52; apply Hnorm; lia).
    unfold SF64mul, SFmul. cbn [xorb].
    set (P := (m * 7036874417766400)%positive).
    assert (HP : Zpos P = Zpos m * 7036874417766400) by reflexivity.
    pose proof (digits2_pos_bounds P) as [Hlo Hhi].
    assert (Hd : 105 <= Zpos (digits2_pos P) <= 106).
    { assert (H104 : 2 ^ 104 <= Zpos P).
      { change (2 ^ 104) with (4503599627370496 * 4503599627370496). nia. }
      assert (H106 : Zpos P < 2 ^ 106).
      { change (2 ^ 106) with (9007199254740992 * 9007199254740992). nia. }
      split.
      - destruct (Z.le_gt_cases 105 (Zpos (digits2_pos P))) as [|Hlt];
          [assumption|].
        assert (2 ^ Zpos (digits2_pos P) <= 2 ^ 104)
          by (apply Z.pow_le_mono_r; lia). lia.
      - destruct (Z.le_gt_cases (Zpos (digits2_pos P)) 106) as [|Hgt];
          [assumption|].
        assert (2 ^ 106 <= 2 ^ (Zpos (digits2_pos P) - 1))
          by (apply Z.pow_le_mono_r; lia). lia. }
    destruct (binary_round_aux_lower P (e + -46)) as [-> | (m' & e' & -> & Hres)];
      [lia | lia | reflexivity |].
    cbn [SFcompare].
    destruct (Z.compare_spec (-47) e') as [<-|Hlt|Hgt]; [|reflexivity|].
    + destruct Hres as [[He' Hm'] | [He' _]]; [|lia].
      assert (Hd105 : Zpos (digits2_pos P) = 105) by lia.
      rewrite Hd105 in Hm'. change (2 ^ (105 - 53)) with 4503599627370496 in Hm'.
      assert (7036874417766400 + 1 <= Zpos P / 4503599627370496).
      { apply Z.div_le_lower_bound; lia. }
      change (Pos.compare_cont Eq 7036874417766400 m')
        with (Pos.compare 7036874417766400 m').
      clear - H Hm'.
      destruct (Pos.compare_spec 7036874417766400 m') as [E|L|G];
        [|reflexivity|].
      * subst m'. lia.
      * apply Pos2Z.pos_lt_pos in G. lia.
    + destruct Hres as [[He' _] | [He' _]]; lia.
Qed.

End FloatRounding.

Section Arithmetic.

(** [np.argmin] returns a position of the list.  When the value there is
    not a NaN it is a lower bound of the list and every earlier value is
    strictly larger; when it is a NaN no earlier value is one. *)
Lemma argmin_from_spec (t : list float) :
  forall (pre : list float) (best : nat) (m : float),
    pre !! best = Some m ->
    is_nan m = false ->
    (forall j x, pre !! j = Some x -> (m <=? x)%float = true) ->
    (forall j x, (j < best)%nat -> pre !! j = Some x -> (m <? x)%float = true) ->
    exists v,
      (pre ++ t) !! argmin_from best m (List.length pre) t = Some v /\
      (is_nan v = true ->
       forall j x, (j < argmin_from best m (List.length pre) t)%nat ->
                   (pre ++ t) !! j = Some x -> is_nan x = false) /\
      (is_nan v = false ->
       (forall j x, (pre ++ t) !! j = Some x -> (v <=? x)%float = true) /\
       (forall j x, (j < argmin_from best m (List.length pre) t)%nat ->
                    (pre ++ t) !! j = Some x -> (v <? x)%float = true)).
Proof.
  induction t as [|x t IH]; intros pre best m Hbest Hm Hmin Hfirst.
  - rewrite app_nil_r. simpl. exists m. split; [exact Hbest|].
    split; [congruence | auto].
  - assert (Hl : S (List.length pre) = List.length (pre ++ [x]))
      by (rewrite length_app; simpl; lia).
    assert (Happ : pre ++ x :: t = (pre ++ [x]) ++ t)
      by (rewrite <- app_assoc; reflexivity).
    pose proof (lookup_lt_Some _ _ _ Hbest) as Hlt.
    cbn [argmin_from].
    destruct (m <=? x)%float eqn:Hcmp.
    + rewrite Happ, Hl. apply IH; [|exact Hm| |].
      * apply lookup_app_l_Some. exact Hbest.
      * intros j y Hy. apply lookup_app_Some in Hy as [Hy | [_ Hy]].
        -- eauto.
        -- apply list_lookup_singleton_Some in Hy as [_ <-]. exact Hcmp.
      * intros j y Hj Hy. apply lookup_app_Some in Hy as [Hy | [Hge _]].
        -- eauto.
        -- lia.
    + destruct (is_nan x) eqn:Hx.
      * exists x. split; [apply list_lookup_middle; reflexivity|].
        split; [|congruence].
        intros _ j y Hj Hy. rewrite lookup_app_l in Hy by exact Hj.
        apply Hmin in Hy. apply leb_not_nan in Hy. apply Hy.
      * pose proof (not_leb_ltb m x Hm Hx Hcmp) as Hxm.
        rewrite Happ, Hl. apply IH; [|exact Hx| |].
        -- apply list_lookup_middle. reflexivity.
        -- intros j y Hy. apply lookup_app_Some in Hy as [Hy | [_ Hy]].
           ++ apply ltb_leb. eapply ltb_leb_trans; [exact Hxm | eauto].
           ++ apply list_lookup_singleton_Some in Hy as [_ <-].
              apply leb_refl. exact Hx.
        -- intros j y Hj Hy. apply lookup_app_Some in Hy as [Hy | [Hge _]].
           ++ eapply ltb_leb_trans; [exact Hxm | eauto].
           ++ lia.
Qed.

Lemma argmin_spec (x : float) (t : list float) :
  let best := if is_nan x then 0%nat else argmin_from 0 x 1 t in
  exists v,
    (x :: t) !! best = Some v /\
    (is_nan v = true ->
     forall j y, (j < best)%nat -> (x :: t) !! j = Some y -> is_nan y = false) /\
    (is_nan v = false ->
     (forall j y, (x :: t) !! j = Some y -> (v <=? y)%float = true) /\
     (forall j y, (j < best)%nat -> (x :: t) !! j = Some y ->
                  (v <? y)%float = true)).
Proof.
  destruct (is_nan x) eqn:Hx; cbv zeta.
  - exists x. split; [reflexivity|]. split; [intros _ j y Hj; lia | congruence].
  - apply (argmin_from_spec t [x] 0 x); [reflexivity | exact Hx | |].
    + intros j y Hy. apply list_lookup_singleton_Some in Hy as [_ <-].
      apply leb_refl. exact Hx.
    + intros j y Hj. lia.
Qed.

Lemma round_half_even_close (y : Q) :
  (Qabs (inject_Z (round_half_even y) - y) <= 1 # 2)%Q.
Proof.
  unfold round_half_even.
  pose proof (Qfloor_le y) as Hlo. pose proof (Qlt_floor y) as Hhi.
  rewrite inject_Z_plus in Hhi. change (inject_Z 1) with 1%Q in Hhi.
  apply Qabs_Qle_condition.
  destruct (Qcompare (y - inject_Z (Qfloor y)) (1 # 2)) eqn:Hc.
  - apply Qeq_alt in Hc.
    destruct (Z.even (Qfloor y));
      [|rewrite inject_Z_plus; change (inject_Z 1) with 1%Q]; split; lra.
  - apply Qlt_alt in Hc. split; lra.
  - apply Qgt_alt in Hc. rewrite inject_Z_plus.
    change (inject_Z 1) with 1%Q. split; lra.
Qed.

(** [f"{x:.1f}"] of a positive finite [x] is an integer part, a point
    and one digit, and the number printed is within a twentieth of the
    exact value of [x]. *)
Lemma format_1f_spec (x : float) (m : positive) (e : Z) :
  Prim2SF x = S754_finite false m e ->
  exists n k : Z,
    (0 <= k <= 9)%Z /\
    format_1f x = pretty n +:+ "." +:+ pretty k /\
    (Qabs (inject_Z (10 * n + k) - magnitude m e * 10) <= 1 # 2)%Q.
Proof.
  intros Hx. unfold format_1f. rewrite Hx.
  set (t := round_half_even (magnitude m e * 10)).
  exists (t / 10)%Z, (t mod 10)%Z. split; [|split].
  - pose proof (Z.mod_pos_bound t 10). lia.
  - reflexivity.
  - rewrite <- Z.div_mod by lia. apply round_half_even_close.
Qed.

(** A float above fifty is a positive finite value or the positive
    infinity. *)
Lemma above_fifty_shape (p : float) :
  (50 <? p)%float = true ->
  Prim2SF p = S754_infinity false \/
  exists m e, Prim2SF p = S754_finite false m e.
Proof.
  rewrite FloatAxioms.ltb_spec.
  change (Prim2SF 50) with (S754_finite false 7036874417766400 (-47)).
  destruct (Prim2SF p) as [s|s| |s m e]; try discriminate.
  - destruct s; [discriminate | auto].
  - destruct s; [discriminate | eauto].
Qed.

End Arithmetic.

Section FaceMatcher.
Context `{VP : VisionProvider}.

(** The one computation of [recognize_face] on a frame with a face. *)
Lemma recognize_face_run (s : state) (f : frame) :
  encodings_loaded (glob s) = true ->
  inv (glob s) ->
  face_locations f <> [] ->
  exists (probe : encoding) (best : nat) (d : float) (name : string),
    face_encodings f (face_locations f) !! 0%nat = Some probe /\
    face_distance (known_face_encodings (glob s)) probe !! best = Some d /\
    (is_nan d = true ->
     forall j x, (j < best)%nat ->
       face_distance (known_face_encodings (glob s)) probe !! j = Some x ->
       is_nan x = false) /\
    (is_nan d = false ->
     (forall j x,
        face_distance (known_face_encodings (glob s)) probe !! j = Some x ->
        (d <=? x)%float = true) /\
     (forall j x, (j < best)%nat ->
        face_distance (known_face_encodings (glob s)) probe !! j = Some x ->
        (d <? x)%float = true)) /\
    known_face_names (glob s) !! best = Some name /\
    recognize_face (Some f) s =
      (Return (if (0.5 <? 1 - d)%float
               then (Some name, format_1f ((1 - d) * 100) +:+ "%")
               else (None, "Face not recognized")), s).
Proof.
  intros Hloaded [Hlen Hne] Hloc.
  destruct (Hne Hloaded) as [Hknown _].
  unfold recognize_face, bind, gets, cvtColor, ret. rewrite Hloaded. simpl.
  destruct (face_locations f) as [|l0 locs] eqn:El; [congruence|].
  pose proof (face_encodings_length f (l0 :: locs)) as Henc.
  destruct (face_encodings f (l0 :: locs)) as [|probe encs]; [discriminate|].
  simpl.
  pose proof (face_distance_length (known_face_encodings (glob s)) probe) as Hd.
  destruct (face_distance (known_face_encodings (glob s)) probe)
    as [|x t] eqn:Ed.
  { destruct (known_face_encodings (glob s)); [congruence | discriminate]. }
  destruct (argmin_spec x t) as (v & Hv & Hnan & Hmin).
  set (best := if is_nan x then 0%nat else argmin_from 0 x 1 t) in *.
  assert (Hname : is_Some (known_face_names (glob s) !! best)).
  { apply lookup_lt_is_Some. rewrite <- Hlen, <- Hd.
    eapply lookup_lt_Some. exact Hv. }
  destruct Hname as [name Hname].
  exists probe, best, v, name. rewrite ?Ed.
  repeat split; auto; try (apply Hmin; assumption).
  unfold argmin, index, ret. fold best. rewrite Hv.
  destruct (0.5 <? 1 - v)%float; [|reflexivity].
  rewrite Hname. reflexivity.
Qed.

Lemma ends_with_percent_append (a : string) :
  ends_with_percent (a +:+ "%") = true.
Proof.
  induction a as [|c a IH]; [reflexivity|].
  destruct a; [reflexivity|]. exact IH.
Qed.

(** C1. For a loaded gallery and a frame with a face, [recognize_face]
    takes the distances from the probe embedding to every gallery vector
    and the position [best] [np.argmin] gives: the first position of their
    minimum [d] (when a distance is a NaN, the first such position).  It
    returns the name at [best] iff [1 - d > 0.5], computed in float64, and
    [None] otherwise, so a confidence of exactly 0.5 is rejected, and so
    is a NaN; the confidence returned on acceptance is
    [f"{(1 - d) * 100:.1f}%"], for a number above 50: an integer part, a
    point, one digit and a percent sign, within a twentieth of the float64
    product. *)
Theorem recognize_face_nearest_neighbour (s : state) (f : frame) :
  encodings_loaded (glob s) = true ->
  inv (glob s) ->
  face_locations f <> [] ->
  exists (probe : encoding) (best : nat) (d : float) (name : string),
    face_encodings f (face_locations f) !! 0%nat = Some probe /\
    face_distance (known_face_encodings (glob s)) probe !! best = Some d /\
    (is_nan d = true ->
     forall j x, (j < best)%nat ->
       face_distance (known_face_encodings (glob s)) probe !! j = Some x ->
       is_nan x = false) /\
    (is_nan d = false ->
     (forall j x,
        face_distance (known_face_encodings (glob s)) probe !! j = Some x ->
        (d <=? x)%float = true) /\
     (forall j x, (j < best)%nat ->
        face_distance (known_face_encodings (glob s)) probe !! j = Some x ->
        (d <? x)%float = true)) /\
    known_face_names (glob s) !! best = Some name /\
    ((exists msg, recognize_face (Some f) s = (Return (Some name, msg), s))
     <-> (0.5 <? 1 - d)%float = true) /\
    ((0.5 <? 1 - d)%float = true ->
     recognize_face (Some f) s =
       (Return (Some name, format_1f ((1 - d) * 100) +:+ "%"), s) /\
     (50 <? (1 - d) * 100)%float = true /\
     forall m e, Prim2SF ((1 - d) * 100) = S754_finite false m e ->
       exists n k : Z,
         (0 <= k <= 9)%Z /\
         format_1f ((1 - d) * 100) = pretty n +:+ "." +:+ pretty k /\
         (Qabs (inject_Z (10 * n + k) - magnitude m e * 10) <= 1 # 2)%Q) /\
    ((0.5 <? 1 - d)%float = false ->
     recognize_face (Some f) s = (Return (None, "Face not recognized"), s)) /\
    ((1 - d = 0.5)%float \/ is_nan d = true ->
     recognize_face (Some f) s = (Return (None, "Face not recognized"), s)).
Proof.
  intros Hloaded Hinv Hloc.
  destruct (recognize_face_run s f Hloaded Hinv Hloc)
    as (probe & best & d & name & Hp & Hd & Hnan & Hmin & Hname & Hrun).
  exists probe, best, d, name.
  repeat (split; [assumption|]).
  assert (Hrej : (0.5 <? 1 - d)%float = false ->
            recognize_face (Some f) s
              = (Return (None, "Face not recognized"), s)).
  { intros Hc. rewrite Hc in Hrun. exact Hrun. }
  split; [|split; [|split; [exact Hrej|]]].
  - destruct (0.5 <? 1 - d)%float eqn:Hc.
    + split; [reflexivity | intros _; eauto].
    + split; [|discriminate].
      intros [msg Hmsg]. rewrite Hrun in Hmsg. discriminate.
  - intros Hc. rewrite Hc in Hrun. split; [exact Hrun|].
    split; [apply above_half_above_fifty; exact Hc|].
    intros m e. apply format_1f_spec.
  - intros [Heq | Hd_nan]; apply Hrej.
    + rewrite Heq. reflexivity.
    + destruct (0.5 <? 1 - d)%float eqn:Hc; [|reflexivity].
      apply ltb_not_nan in Hc as [_ Hc].
      apply is_nan_spec in Hd_nan.
      apply is_nan_false in Hc. exfalso. apply Hc.
      rewrite FloatAxioms.sub_spec, Hd_nan.
      destruct (Prim2SF 1); reflexivity.
Qed.

(** C6, as the code has it.  When a face is detected and the confidence
    is not strictly above 0.5, [recognize_face] returns the pair
    [(None, "Face not recognized")]: the percentage it computed is no
    component of the value returned. *)
Theorem recognize_face_rejection_pair (s : state) (f : frame) :
  encodings_loaded (glob s) = true ->
  inv (glob s) ->
  face_locations f <> [] ->
  exists (probe : encoding) (best : nat) (d : float),
    face_encodings f (face_locations f) !! 0%nat = Some probe /\
    face_distance (known_face_encodings (glob s)) probe !! best = Some d /\
    (is_nan d = false ->
     forall j x,
       face_distance (known_face_encodings (glob s)) probe !! j = Some x ->
       (d <=? x)%float = true) /\
    ((0.5 <? 1 - d)%float = false ->
     recognize_face (Some f) s = (Return (None, "Face not recognized"), s) /\
     as_tuple (None, "Face not recognized")
       = [PyNone; PyStr "Face not recognized"] /\
     ~ In (PyStr (format_1f ((1 - d) * 100) +:+ "%"))
          (as_tuple (None, "Face not recognized"))).
Proof.
  intros Hloaded Hinv Hloc.
  destruct (recognize_face_run s f Hloaded Hinv Hloc)
    as (probe & best & d & name & Hp & Hd & _ & Hmin & _ & Hrun).
  exists probe, best, d. repeat (split; [assumption|]).
  split; [intros Hn; apply Hmin; exact Hn|].
  intros Hle. rewrite Hle in Hrun.
  split; [exact Hrun|]. split; [reflexivity|].
  simpl. intros [H | [H | []]]; [discriminate|].
  injection H as H.
  apply (f_equal ends_with_percent) in H.
  rewrite ends_with_percent_append in H. discriminate.
Qed.

(** C8. With the gallery not loaded, [recognize_face] answers
    ["No encodings loaded"] and the route answers 503 with an error body,
    whatever the request holds; the state is the one before the call, so
    nothing was matched and nothing was logged, and the body is no
    denial. *)
Theorem gallery_not_loaded_is_unavailable
    (s : state) (image_np : option frame) (data : gmap string string) :
  encodings_loaded (glob s) = false ->
  recognize_face image_np s = (Return (None, "No encodings loaded"), s) /\
  recognize_face_api data s =
    (Return (Response {[ "error" := JStr "No face encodings available" ]} 503),
     s) /\
  (forall resp s', recognize_face_api data s = (Return resp, s') ->
     code resp = 503%nat /\
     body resp !! "access" = None /\
     body resp !! "recognized" = None /\
     access_logs_collection (ext s') = access_logs_collection (ext s)).
Proof.
  intros Hloaded.
  assert (Hapi : recognize_face_api data s =
    (Return (Response {[ "error" := JStr "No face encodings available" ]} 503),
     s)).
  { unfold recognize_face_api, bind, gets. rewrite Hloaded. reflexivity. }
  split; [|split].
  - unfold recognize_face, bind, gets. rewrite Hloaded. reflexivity.
  - exact Hapi.
  - intros resp s' H. rewrite Hapi in H. injection H as <- <-.
    repeat split; reflexivity.
Qed.

End FaceMatcher.

Section Recorder.
Context `{VP : VisionProvider}.

(** [log_access] always returns: the entry is stored, or the failure is
    printed. *)
Lemma log_access_run (db : MongoDBConfig) (u st ty : string)
    (c : option string) (w : world) :
  log_access db u st ty c w
    = (Return tt, recorded (LogEntry u st ty c (utcnow w)) w).
Proof.
  cbv [log_access try_except bind gets insert_one recorded raise modify
       print_w].
  destruct (insert_fault w); reflexivity.
Qed.

Lemma recorded_readable (entry : AccessLogEntry) (w : world) :
  readable (recorded entry w) = readable w.
Proof. unfold recorded. destruct (insert_fault w); reflexivity. Qed.

Lemma same_but_storage_refl (s : state) : same_but_storage s s.
Proof. split; reflexivity. Qed.







Lemma replay_app (l1 l2 : list AccessLogEntry) (w : world) :
  replay (l1 ++ l2) w = replay l2 (replay l1 w).
Proof. apply fold_left_app. Qed.

Lemma replay_insert_fault (l : list AccessLogEntry) (w : world) :
  insert_fault (replay l w) = insert_fault w.
Proof.
  revert w. induction l as [|en l IH]; intros w; [reflexivity|].
  simpl. rewrite IH. unfold recorded.
  destruct (insert_fault w) eqn:E; simpl; exact E.
Qed.

(** With a healthy store the entries are appended in order; with a
    failing one the log is left as it was. *)
Lemma replay_access_logs (l : list AccessLogEntry) (w : world) :
  access_logs_collection (replay l w)
    = access_logs_collection w
      ++ match insert_fault w with None => map stored l | Some _ => [] end.
Proof.
  revert w. induction l as [|en l IH]; intros w.
  - simpl. destruct (insert_fault w); rewrite app_nil_r; reflexivity.
  - simpl. rewrite IH. unfold recorded.
    destruct (insert_fault w) eqn:E; simpl; rewrite E.
    + reflexivity.
    + rewrite <- app_assoc. reflexivity.
Qed.

Lemma records_ret P {A} (a : A) : records P (ret a).
Proof. intros s. exists []. split; [reflexivity | constructor]. Qed.

Lemma records_raise P {A} (e : exn) : records P (@raise state A e).
Proof. intros s. exists []. split; [reflexivity | constructor]. Qed.

Lemma records_gets P {A} (f : state -> A) : records P (gets f).
Proof. intros s. exists []. split; [reflexivity | constructor]. Qed.

Lemma records_set_session P (sid : string) : records P (modify (set_session sid)).
Proof. intros s. exists []. split; [reflexivity | constructor]. Qed.

Lemma records_bind P {A B} (c : py state A) (k : A -> py state B) :
  records P c -> (forall a, records P (k a)) -> records P (bind c k).
Proof.
  intros Hc Hk s. unfold bind.
  destruct (Hc s) as (n1 & H1 & F1).
  destruct (c s) as [[a|e] s']; simpl in H1.
  - destruct (Hk a s') as (n2 & H2 & F2).
    exists (n1 ++ n2). rewrite H2, H1, replay_app.
    split; [reflexivity | apply Forall_app; split; assumption].
  - exists n1. split; assumption.
Qed.

Lemma records_log_access (P : AccessLogEntry -> Prop)
    (db : MongoDBConfig) (u st ty : string) (c : option string) :
  (forall t, P (LogEntry u st ty c t)) ->
  records P (lift (log_access db u st ty c)).
Proof.
  intros HP s. unfold lift. rewrite log_access_run. simpl.
  eexists [_]. split; [reflexivity|]. constructor; [apply HP | constructor].
Qed.



Ltac records_step :=
  first [ apply records_ret | apply records_raise | apply records_set_session
        | apply records_gets
        | apply records_log_access; intro; simpl; tauto
        | apply records_bind; [|intro]
        | case_match ].




Lemma records_recognize_face P (image_np : option frame) :
  records P (recognize_face image_np).
Proof.
  unfold recognize_face, cvtColor, index, argmin. repeat records_step.
Qed.

(** What every entry written by a route looks like. *)
Lemma records_route (e : endpoint) (data : gmap string string) :
  records (fun en => confidence en = None /\ access_type en = channel e /\
                     (e = VerifyQr -> user_name en = "QR"))
          (route e data).
Proof.
  destruct e; simpl.
  - unfold verify_qr, load_image, decode_qr, cvtColor, the_mongo_db.
    repeat records_step.
  - unfold recognize_face_api, load_image, the_mongo_db.
    repeat first [ apply records_recognize_face | records_step ].
    all: apply records_log_access; intro; simpl;
      (split; [|split]); [reflexivity | reflexivity | discriminate].
Qed.


End Recorder.

Section Routes.
Context `{VP : VisionProvider}.

Lemma md5_hexdigest_length (msg : list Z) :
  String.length (Hashlib.md5_hexdigest msg) = 32%nat.
Proof.
  unfold Hashlib.md5_hexdigest.
  generalize (fold_left Hashlib.md5_compress
    (Hashlib.blocks_of (Hashlib.pad (Hashlib.bytes_le 8) msg)) Hashlib.md5_init).
  intros m. reflexivity.
Qed.

(** [verify_qr] on a request whose image decodes to the frame [f]. *)
Lemma verify_qr_decision (s : state) (data : gmap string string)
    (image : string) (bytes : list Z) (f : frame) (db : MongoDBConfig) :
  data !! "image" = Some image ->
  b64decode image = Some bytes ->
  imdecode bytes = Some f ->
  (forall rest, pyzbar_decode f <> None :: rest) ->
  mongo_db (glob s) = Some db ->
  verify_qr data s =
    if validate_qr (glob s) (qr_text f) then
      (Return (Response {[ "valid" := JBool true;
                           "session_id" := JStr (session_id_at (now (ext s))) ]}
                        200),
       State (glob (set_session (session_id_at (now (ext s))) s))
             (recorded (LogEntry "QR" "opened" "qr" None (utcnow (ext s)))
                       (ext s)))
    else
      (Return (Response {[ "valid" := JBool false ]} 200),
       State (glob s)
             (recorded (LogEntry "QR" "denied" "qr" None (utcnow (ext s)))
                       (ext s))).
Proof.
  intros Himage Hb64 Him Htext Hdb.
  destruct s as [g w]. cbn [glob ext] in Hdb |- *.
  unfold verify_qr. rewrite Himage.
  unfold load_image. rewrite Hb64.
  cbv [bind ret decode_qr cvtColor]. rewrite Him.
  unfold qr_text.
  destruct (pyzbar_decode f) as [|[data0|] rest] eqn:Eqr;
    [| | exfalso; eapply Htext; reflexivity].
  all: cbv [gets]; cbn [glob ext]; destruct (validate_qr g _);
    cbv [modify the_mongo_db bind gets ret lift set_session];
    cbn [glob ext mongo_db];
    rewrite Hdb; rewrite log_access_run; reflexivity.
Qed.

Lemma recognize_face_returns (s : state) (f : frame) :
  encodings_loaded (glob s) = true ->
  inv (glob s) ->
  exists r,
    recognize_face (Some f) s = (Return r, s) /\
    (face_locations f = [] -> r = (None, "No face detected")).
Proof.
  intros Hloaded Hinv.
  destruct (face_locations f) as [|l0 locs] eqn:El.
  - exists (None, "No face detected"). split; [|reflexivity].
    unfold recognize_face, bind, gets, cvtColor, ret.
    rewrite Hloaded. cbn [negb]. rewrite El. reflexivity.
  - destruct (recognize_face_run s f Hloaded Hinv)
      as (probe & best & d & name & _ & _ & _ & _ & _ & Hrun).
    { rewrite El. discriminate. }
    eexists. split; [exact Hrun | discriminate].
Qed.

(** [recognize_face_api] on a request whose image decodes to [f]. *)
Lemma recognize_face_api_decision (s : state) (data : gmap string string)
    (image : string) (bytes : list Z) (f : frame) :
  encodings_loaded (glob s) = true ->
  inv (glob s) ->
  data !! "image" = Some image ->
  b64decode image = Some bytes ->
  imdecode bytes = Some f ->
  exists r,
    recognize_face (Some f) s = (Return r, s) /\
    (face_locations f = [] -> r = (None, "No face detected")) /\
    recognize_face_api data s =
      match truthy (fst r) with
      | Some name =>
          (Return (Response {[ "recognized" := JBool true;
                               "name" := JStr name;
                               "confidence" := JStr (snd r);
                               "access" := JStr "granted" ]} 200),
           State (glob s)
                 (recorded (LogEntry name "opened" "face" None (utcnow (ext s)))
                           (ext s)))
      | None =>
          (Return (Response {[ "recognized" := JBool false;
                               "access" := JStr "denied" ]} 200),
           State (glob s)
                 (recorded (LogEntry "Unknown" "denied" "face" None
                                     (utcnow (ext s)))
                           (ext s)))
      end.
Proof.
  intros Hloaded Hinv Himage Hb64 Him.
  destruct (recognize_face_returns s f Hloaded Hinv) as (r & Hr & Hnoface).
  destruct (proj2 Hinv Hloaded) as [_ Hdb].
  destruct (mongo_db (glob s)) as [db|] eqn:Edb; [|congruence].
  exists r. split; [exact Hr|]. split; [exact Hnoface|].
  unfold recognize_face_api, bind at 1, gets at 1. rewrite Hloaded.
  cbn [negb]. rewrite Himage. unfold load_image. rewrite Hb64.
  unfold bind at 1, ret at 1. rewrite Him.
  unfold bind at 1. rewrite Hr. destruct r as [name msg]. cbn [fst snd].
  destruct (truthy name);
    cbv [the_mongo_db bind gets ret lift]; rewrite Edb;
    rewrite log_access_run; reflexivity.
Qed.

(** C3, as the code has it.  A request to either decision route that
    carries a decodable image (for QR: with a live [mongo_db] and a symbol,
    if any, that is text; for the face route: with the gallery loaded)
    is answered with a decision and calls [log_access] exactly once, on
    grant and on denial, for an entry of the route's channel whose
    status is the one announced to the caller.  The entry is appended to
    the access log, with its timestamp cut to milliseconds, when the
    store takes the write; when the write fails nothing is appended and
    one line is printed.  A frame without a face is recorded as
    [("Unknown", "denied", "face")]. *)
Theorem decision_calls_log_access_once
    (e : endpoint) (s : state) (data : gmap string string)
    (image : string) (bytes : list Z) (f : frame) :
  data !! "image" = Some image ->
  b64decode image = Some bytes ->
  imdecode bytes = Some f ->
  match e with
  | VerifyQr =>
      mongo_db (glob s) <> None /\
      (forall rest, pyzbar_decode f <> None :: rest)
  | RecognizeFace => encodings_loaded (glob s) = true /\ inv (glob s)
  end ->
  exists (resp : response) (entry : AccessLogEntry) (s' : state),
    route e data s = (Return resp, s') /\
    code resp = 200%nat /\
    ext s' = recorded entry (ext s) /\
    access_type entry = channel e /\
    confidence entry = None /\
    timestamp entry = utcnow (ext s) /\
    announced e resp = Some (status entry) /\
    (status entry = "opened" \/ status entry = "denied") /\
    (e = RecognizeFace -> face_locations f = [] ->
     user_name entry = "Unknown" /\ status entry = "denied") /\
    (insert_fault (ext s) = None ->
     access_logs_collection (ext s')
       = access_logs_collection (ext s) ++ [stored entry] /\
     stdout (ext s') = stdout (ext s)) /\
    (forall m, insert_fault (ext s) = Some m ->
     access_logs_collection (ext s') = access_logs_collection (ext s) /\
     stdout (ext s')
       = stdout (ext s) ++ ["✗ Failed to log access: " +:+ m]).
Proof.
  intros Himage Hb64 Him Hpre.
  assert (Hrec : forall entry,
    (insert_fault (ext s) = None ->
     access_logs_collection (recorded entry (ext s))
       = access_logs_collection (ext s) ++ [stored entry] /\
     stdout (recorded entry (ext s)) = stdout (ext s)) /\
    (forall m, insert_fault (ext s) = Some m ->
     access_logs_collection (recorded entry (ext s))
       = access_logs_collection (ext s) /\
     stdout (recorded entry (ext s))
       = stdout (ext s) ++ ["✗ Failed to log access: " +:+ m])).
  { intros entry. unfold recorded.
    split; [intros -> | intros m ->]; split; reflexivity. }
  destruct e; cbn [route channel announced].
  - destruct Hpre as [Hdb Htext].
    destruct (mongo_db (glob s)) as [db|] eqn:Edb; [|congruence].
    rewrite (verify_qr_decision s data image bytes f db) by assumption.
    generalize (session_id_at (now (ext s))). intros sid.
    destruct (validate_qr (glob s) (qr_text f));
      eexists _, (LogEntry "QR" _ "qr" None (utcnow (ext s))), _;
      (split; [reflexivity|]);
      cbn [code ext body access_type confidence timestamp status];
      do 8 (split; [first [reflexivity | auto; fail | intros; discriminate]|]);
      apply Hrec.
  - destruct Hpre as [Hloaded Hinv].
    destruct (recognize_face_api_decision s data image bytes f)
      as (r & Hr & Hnoface & Hrun); try assumption.
    rewrite Hrun.
    assert (Hnf : face_locations f = [] -> truthy (fst r) = None).
    { intros Hf. rewrite (Hnoface Hf). reflexivity. }
    destruct (truthy (fst r)) as [name|].
    + generalize (snd r). intros msg.
      eexists _, (LogEntry name "opened" "face" None (utcnow (ext s))), _.
      split; [reflexivity|].
      cbn [code ext body access_type confidence timestamp status].
      do 7 (split; [first [reflexivity | auto; fail]|]).
      split; [intros _ Hf; specialize (Hnf Hf); discriminate|].
      apply Hrec.
    + eexists _, (LogEntry "Unknown" "denied" "face" None (utcnow (ext s))), _.
      split; [reflexivity|].
      cbn [code ext body access_type confidence timestamp status user_name].
      do 8 (split; [first [reflexivity | auto; fail]|]).
      apply Hrec.
Qed.

Lemma answers_ret {A} (P : A -> Prop) (a : A) : P a -> answers P (ret a).
Proof. intros H s a' s' E. injection E as <- _. exact H. Qed.

Lemma answers_raise {A} (P : A -> Prop) (e : exn) : answers P (raise e).
Proof. intros s a s' E. discriminate. Qed.

Lemma answers_bind {A B} (P : B -> Prop) (c : py state A) (k : A -> py state B) :
  (forall a, answers P (k a)) -> answers P (bind c k).
Proof.
  intros Hk s b s'. unfold bind.
  destruct (c s) as [[a|e] s1]; [apply Hk | discriminate].
Qed.

Lemma verify_qr_session_iff_valid (data : gmap string string) :
  answers session_iff_valid (verify_qr data).
Proof.
  unfold verify_qr.
  repeat first [ apply answers_raise | apply answers_bind; intro
               | apply answers_ret | case_match ];
    unfold session_iff_valid; cbn [body];
    try generalize (Hashlib.md5_hexdigest
                      (Hashlib.encode (datetime_str a2)));
    intros; vm_compute; split;
    first [ discriminate | intros [? ?]; discriminate | eauto ].
Qed.

(** An answer [valid: true] of [verify_qr] always carries the digest of
    the clock reading of the state the call started in. *)
Lemma verify_qr_valid_answer (data : gmap string string) (s s' : state)
    (resp : response) :
  verify_qr data s = (Return resp, s') ->
  body resp !! "valid" = Some (JBool true) ->
  body resp !! "session_id" = Some (JStr (session_id_at (now (ext s)))).
Proof.
  destruct s as [g w]. unfold session_id_at, verify_qr. cbn [ext].
  destruct (data !! "image") as [image|];
    [|intros [= <- _] Hv; vm_compute in Hv; discriminate].
  cbv [bind load_image].
  destruct (b64decode image) as [bytes|]; [|discriminate].
  cbv [ret decode_qr cvtColor bind].
  destruct (imdecode bytes) as [f|]; [|discriminate].
  destruct (pyzbar_decode f) as [|[q|] rest]; [| |discriminate].
  all: cbv [gets]; cbn [glob]; destruct (validate_qr g _);
    cbv [modify bind the_mongo_db gets set_session lift ret raise];
    cbn [glob ext mongo_db]; destruct (mongo_db g); try discriminate;
    rewrite log_access_run; intros [= <- _] Hv; cbn [body] in Hv |- *;
    [ generalize (Hashlib.md5_hexdigest (Hashlib.encode (datetime_str (now w))));
      intros sid; reflexivity
    | vm_compute in Hv; discriminate ].
Qed.

(** C5, as the code has it.  Every answer of [verify_qr] carries a
    [session_id] iff it says [valid: true].  When the validation succeeds
    the answer is [valid: true] with the MD5 hex digest of the printed
    local time, which has 32 characters and so is not empty, and that
    identifier is stored as valid in [session_cache].  The identifier is
    a function of the clock reading alone and is compared with no earlier
    one: two successful calls that read the same time return the same
    identifier. *)
Theorem verify_qr_session_id (s : state) (data : gmap string string) :
  (forall resp s', verify_qr data s = (Return resp, s') ->
     session_iff_valid resp) /\
  (forall image bytes f,
     data !! "image" = Some image ->
     b64decode image = Some bytes ->
     imdecode bytes = Some f ->
     (forall rest, pyzbar_decode f <> None :: rest) ->
     mongo_db (glob s) <> None ->
     validate_qr (glob s) (qr_text f) = true ->
     exists s',
       verify_qr data s =
         (Return (Response {[ "valid" := JBool true;
                              "session_id" := JStr (session_id_at (now (ext s))) ]}
                           200), s') /\
       String.length (session_id_at (now (ext s))) = 32%nat /\
       session_id_at (now (ext s)) <> "" /\
       session_cache (glob s')
         = <[session_id_at (now (ext s)) := true]> (session_cache (glob s))) /\
  (forall data2 s2 resp resp2 s' s2',
     now (ext s2) = now (ext s) ->
     verify_qr data s = (Return resp, s') ->
     verify_qr data2 s2 = (Return resp2, s2') ->
     body resp !! "valid" = Some (JBool true) ->
     body resp2 !! "valid" = Some (JBool true) ->
     body resp2 !! "session_id" = body resp !! "session_id").
Proof.
  split; [|split].
  - intros resp s' H. eapply verify_qr_session_iff_valid. exact H.
  - intros image bytes f Himage Hb64 Him Htext Hdb Hvalid.
    destruct (mongo_db (glob s)) as [db|] eqn:Edb; [|congruence].
    rewrite (verify_qr_decision s data image bytes f db) by assumption.
    rewrite Hvalid. eexists. split; [reflexivity|].
    pose proof (md5_hexdigest_length
                  (Hashlib.encode (datetime_str (now (ext s))))) as Hlen.
    fold (session_id_at (now (ext s))) in Hlen.
    split; [exact Hlen|]. split; [|reflexivity].
    intros E. rewrite E in Hlen. discriminate.
  - intros data2 s2 resp resp2 s' s2' Hnow H1 H2 Hv1 Hv2.
    rewrite (verify_qr_valid_answer data s s' resp H1 Hv1).
    rewrite (verify_qr_valid_answer data2 s2 s2' resp2 H2 Hv2).
    rewrite Hnow. reflexivity.
Qed.



(** C10. Whatever the request and the state, the entries a decision route
    adds to the access log all have [confidence = None] and the channel
    of the route, and those of the QR route all have the subject ["QR"];
    the entries that were in the log stay in place. *)
Theorem logged_entries_have_no_confidence
    (e : endpoint) (data : gmap string string) (s : state) :
  exists new : list AccessLogEntry,
    access_logs_collection (ext (snd (route e data s)))
      = access_logs_collection (ext s) ++ new /\
    Forall (fun en => confidence en = None /\
                      access_type en = channel e /\
                      (e = VerifyQr -> user_name en = "QR")) new.
Proof.
  destruct (records_route e data s) as (entries & Hext & HP).
  rewrite Hext, replay_access_logs.
  destruct (insert_fault (ext s)); eexists; (split; [reflexivity|]);
    [constructor|].
  apply Forall_map. exact HP.
Qed.

End Routes.

Section QrValidator.
Context `{VP : VisionProvider}.

(** C2, as the code has it.  [validate_qr] is a total function to
    [bool] (no statement of its body can raise on [None] or on a string),
    and it answers [True] iff the payload is present, is not empty, and
    either equals [QR_HASH] or has [QR_HASH] as its SHA-256 hex digest;
    [None] and the empty string are refused before any comparison. *)
Theorem validate_qr_accepts_iff (g : globals) (p : option string) :
  (validate_qr g p = true <->
   exists q, p = Some q /\ q <> "" /\
     (q = QR_HASH g \/
      Hashlib.sha256_hexdigest (Hashlib.encode q) = QR_HASH g)) /\
  (validate_qr g p = true -> qr_authorized (QR_HASH g) p) /\
  (p <> Some "" -> qr_authorized (QR_HASH g) p -> validate_qr g p = true) /\
  validate_qr g None = false /\
  validate_qr g (Some "") = false.
Proof.
  assert (Hiff : validate_qr g p = true <->
    exists q, p = Some q /\ q <> "" /\
      (q = QR_HASH g \/
       Hashlib.sha256_hexdigest (Hashlib.encode q) = QR_HASH g)).
  { destruct p as [[|c q]|]; unfold validate_qr.
    - split; [discriminate | intros (q & [= <-] & Hq & _); congruence].
    - destruct (String.eqb_spec (String c q) (QR_HASH g)) as [E|E].
      + split; [|reflexivity]. intros _. exists (String c q).
        split; [reflexivity|]. split; [discriminate | left; exact E].
      + rewrite String.eqb_eq. split.
        * intros H. exists (String c q).
          split; [reflexivity|]. split; [discriminate | right; exact H].
        * intros (q' & [= <-] & _ & [H | H]); [contradiction | exact H].
    - split; [discriminate | intros (q & H & _); discriminate]. }
  split; [exact Hiff|]. split; [|split; [|split; reflexivity]].
  - intros H. apply Hiff in H as (q & -> & _ & H). exact H.
  - intros Hne H. apply Hiff. destruct p as [q|]; [|contradiction].
    exists q. split; [reflexivity|]. split; [congruence | exact H].
Qed.

End QrValidator.

Section Startup.
Context `{VP : VisionProvider}.
Variable int : string -> option Z.

Lemma for_doc_in_ok (c : list cursor_item) :
  forall encodings names encodings' names',
    for_doc_in c encodings names = (None, (encodings', names')) ->
    exists pairs : list (encoding * string),
      c = (fun p => Doc (EncodingDoc (Some (fst p)) (Some (snd p)))) <$> pairs /\
      encodings' = encodings ++ (fst <$> pairs) /\
      names' = names ++ (snd <$> pairs).
Proof.
  induction c as [|[d|e] c IH]; intros encs names encs' names' H; simpl in H.
  - injection H as <- <-. exists []. simpl. rewrite !app_nil_r. auto.
  - destruct d as [[enc|] [n|]]; simpl in H; try discriminate.
    apply IH in H as (pairs & -> & -> & ->).
    exists ((enc, n) :: pairs). simpl. rewrite <- !app_assoc. auto.
  - discriminate.
Qed.

(** The two lists [get_all_face_encodings] returns have one length and
    are aligned: position [i] of both comes from document [i]. *)
Lemma fetched_aligned (c : list cursor_item) :
  List.length (fst (fetched c)) = List.length (snd (fetched c)) /\
  (forall i enc n,
      fst (fetched c) !! i = Some enc ->
      snd (fetched c) !! i = Some n ->
      c !! i = Some (Doc (EncodingDoc (Some enc) (Some n)))) /\
  (forall e rest, for_doc_in c [] [] = (Some e, rest) ->
      fetched c = ([], [])).
Proof.
  unfold fetched.
  destruct (for_doc_in c [] []) as [[e|] [encs names]] eqn:E.
  - split; [reflexivity|]. split; [intros i enc n H; discriminate | reflexivity].
  - apply for_doc_in_ok in E as (pairs & -> & -> & ->). simpl.
    split; [rewrite !length_fmap; reflexivity|].
    split; [|discriminate].
    intros i enc n He Hn.
    rewrite list_lookup_fmap in He. rewrite list_lookup_fmap in Hn.
    rewrite list_lookup_fmap.
    destruct (pairs !! i) as [[enc' n']|]; simpl in *; congruence.
Qed.

Lemma get_all_face_encodings_run (db : MongoDBConfig) (w : world) :
  exists w',
    get_all_face_encodings db w = (Return (fetched (encodings_cursor w)), w') /\
    readable w' = readable w /\
    access_logs_collection w' = access_logs_collection w.
Proof.
  unfold get_all_face_encodings, fetched, bind, gets.
  destruct (for_doc_in (encodings_cursor w) [] []) as [[e|] [encs names]];
    eexists; (split; [reflexivity | split; reflexivity]).
Qed.

Lemma load_faces_from_mongo_run (g : globals) (w : world) (db : MongoDBConfig) :
  mongo_db g = Some db ->
  exists w',
    load_faces_from_mongo (State g w) =
      (Return tt,
       State (match fst (fetched (encodings_cursor w)) with
              | [] => g
              | _ => Globals (QR_HASH g) (PORT g) (mongo_db g)
                             (fst (fetched (encodings_cursor w)))
                             (snd (fetched (encodings_cursor w)))
                             true (session_cache g)
              end) w') /\
    readable w' = readable w /\
    access_logs_collection w' = access_logs_collection w.
Proof.
  intros Hdb.
  destruct (get_all_face_encodings_run db w) as (w1 & Hrun & Hread & Hlogs).
  destruct g as [qr port mdb encs0 names0 loaded sc].
  cbn [mongo_db] in Hdb. subst mdb.
  unfold load_faces_from_mongo, the_mongo_db, bind at 1, bind at 1, gets.
  cbn [glob mongo_db]. unfold ret at 1, bind at 1, lift.
  cbn [ext glob]. rewrite Hrun.
  destruct (fetched (encodings_cursor w)) as [[|enc encs] names];
    cbn [fst snd List.length Nat.eqb];
    cbv [bind modify print lift print_w set_gallery]; cbn [ext glob];
    (eexists; split; [reflexivity|]);
    cbv [readable set_stdout] in *; cbn [access_logs_collection environ
      connect_fault index_fault encodings_cursor now utcnow];
    split; assumption.
Qed.

(** [initialize_system] catches every exception of its [try] block, so
    it returns in every world. *)
Lemma initialize_system_run (qr : string) (port : Z) (w : world) :
  exists s',
    initialize_system (State (process_start qr port) w) = (Return tt, s') /\
    access_logs_collection (ext s') = access_logs_collection w /\
    (storage_misconfigured w ->
     glob s' = process_start qr port /\
     exists e, In ("✗ Startup error: " +:+ e) (stdout (ext s'))) /\
    (forall uri,
       environ w !! "MONGO_URI" = Some uri -> uri <> "" ->
       connect_fault w = None -> index_fault w = None ->
       glob s' =
         match fst (fetched (encodings_cursor w)) with
         | [] => Globals qr port (Some (MkMongoDBConfig uri)) [] [] false ∅
         | _ => Globals qr port (Some (MkMongoDBConfig uri))
                        (fst (fetched (encodings_cursor w)))
                        (snd (fetched (encodings_cursor w))) true ∅
         end).
Proof.
  unfold storage_misconfigured.
  destruct w as [env cf idf cur logs insf nw unw out].
  cbn [environ connect_fault index_fault encodings_cursor
       access_logs_collection].
  unfold initialize_system.
  cbv [print lift print_w modify bind try_except gets set_stdout].
  cbn [ext glob environ stdout connect_fault index_fault encodings_cursor
       access_logs_collection insert_fault now utcnow].
  destruct (env !! "MONGO_URI") as [[|c uri]|] eqn:Euri.
  - cbv [raise].
    cbn [ext glob environ stdout connect_fault index_fault encodings_cursor
         access_logs_collection insert_fault now utcnow].
    eexists. split; [reflexivity|]. cbn [ext glob stdout access_logs_collection].
    split; [reflexivity|]. split; [|intros u [= <-] Hu; congruence].
    intros _. split; [reflexivity|]. eexists.
    rewrite !in_app_iff. left. left. right. left. reflexivity.
  - cbv [MongoDBConfig_init bind ret gets try_except raise print_w modify
         set_stdout set_mongo_db].
    cbn [ext glob environ stdout connect_fault index_fault encodings_cursor
         access_logs_collection insert_fault now utcnow].
    destruct cf as [e|].
    { cbn [ext glob environ stdout connect_fault index_fault encodings_cursor
           access_logs_collection insert_fault now utcnow].
      eexists. split; [reflexivity|].
      cbn [ext glob stdout access_logs_collection].
      split; [reflexivity|]. split; [|intros u _ _ [=]].
      intros _. split; [reflexivity|]. eexists.
      rewrite !in_app_iff. left. left. right. left. reflexivity. }
    cbn [ext glob environ stdout connect_fault index_fault encodings_cursor
         access_logs_collection insert_fault now utcnow].
    destruct idf as [e|].
    { cbn [ext glob environ stdout connect_fault index_fault encodings_cursor
           access_logs_collection insert_fault now utcnow].
      eexists. split; [reflexivity|].
      cbn [ext glob stdout access_logs_collection].
      split; [reflexivity|]. split; [|intros u _ _ _ [=]].
      intros _. split; [reflexivity|]. eexists.
      rewrite !in_app_iff. left. left. right. left. reflexivity. }
    cbn [ext glob environ stdout connect_fault index_fault encodings_cursor
         access_logs_collection insert_fault now utcnow QR_HASH PORT
         known_face_encodings known_face_names encodings_loaded session_cache
         process_start].
    unfold process_start.
    cbn [ext glob environ stdout connect_fault index_fault encodings_cursor
         access_logs_collection insert_fault now utcnow QR_HASH PORT
         known_face_encodings known_face_names encodings_loaded session_cache].
    match goal with
    | |- context [load_faces_from_mongo (State ?g ?w0)] =>
        destruct (load_faces_from_mongo_run g w0 (MkMongoDBConfig (String c uri)))
          as (w1 & Hload & Hread & Hlogs); [reflexivity|];
        rewrite Hload
    end.
    cbn [ext glob environ stdout connect_fault index_fault encodings_cursor
         access_logs_collection insert_fault now utcnow QR_HASH PORT
         known_face_encodings known_face_names encodings_loaded session_cache
         mongo_db] in *.
    eexists. split; [reflexivity|].
    cbn [ext glob stdout access_logs_collection].
    split; [exact Hlogs|]. split.
    + intros [H | [H | [H | H]]]; congruence.
    + intros u [= <-] _ _ _. reflexivity.
  - cbv [raise].
    cbn [ext glob environ stdout connect_fault index_fault encodings_cursor
         access_logs_collection insert_fault now utcnow].
    eexists. split; [reflexivity|]. cbn [ext glob stdout access_logs_collection].
    split; [reflexivity|]. split; [|intros u [=]].
    intros _. split; [reflexivity|]. eexists.
    rewrite !in_app_iff. left. left. right. left. reflexivity.
Qed.

Lemma keeps_ret {A} (a : A) : keeps_gallery (ret a).
Proof. intros s. repeat split. Qed.

Lemma keeps_raise {A} (e : exn) : keeps_gallery (@raise state A e).
Proof. intros s. repeat split. Qed.

Lemma keeps_gets {A} (f : state -> A) : keeps_gallery (gets f).
Proof. intros s. repeat split. Qed.

Lemma keeps_set_session (sid : string) : keeps_gallery (modify (set_session sid)).
Proof. intros s. repeat split. Qed.

Lemma keeps_lift {A} (c : py world A) : keeps_gallery (lift c).
Proof. intros s. unfold lift. destruct (c (ext s)). repeat split. Qed.

Lemma keeps_bind {A B} (c : py state A) (k : A -> py state B) :
  keeps_gallery c -> (forall a, keeps_gallery (k a)) -> keeps_gallery (bind c k).
Proof.
  intros Hc Hk s. unfold bind. specialize (Hc s).
  destruct (c s) as [[a|e] s1]; cbn [snd] in Hc; [|exact Hc].
  specialize (Hk a s1).
  destruct Hc as (H1 & H2 & H3 & H4 & H5), Hk as (K1 & K2 & K3 & K4 & K5).
  repeat split; congruence.
Qed.

Ltac keeps_step :=
  first [ apply keeps_ret | apply keeps_raise | apply keeps_set_session
        | apply keeps_gets | apply keeps_lift
        | apply keeps_bind; [|intro]
        | case_match ].

(** No route writes the gallery, [encodings_loaded], [mongo_db] or
    [QR_HASH]. *)
Lemma keeps_route (e : endpoint) (data : gmap string string) :
  keeps_gallery (route e data).
Proof.
  destruct e; cbn [route].
  - unfold verify_qr, load_image, decode_qr, cvtColor, the_mongo_db.
    repeat keeps_step.
  - unfold recognize_face_api, load_image, the_mongo_db, recognize_face,
      cvtColor, index, argmin.
    repeat keeps_step.
Qed.

Lemma cloud_server_run (w : world) (qr : string) (port : Z) :
  environ w !! "QR_HASH" = Some qr -> qr <> "" ->
  port_of int w = Some port ->
  exists s',
    initialize_system (State (process_start qr port) w) = (Return tt, s') /\
    cloud_server int w = (Return (glob s'), ext s').
Proof.
  intros Hqr Hne Hport.
  destruct (initialize_system_run qr port w) as (s' & Hinit & _).
  exists s'. split; [exact Hinit|].
  unfold cloud_server. rewrite Hqr.
  destruct qr as [|c qr]; [congruence|].
  unfold port_of in Hport. rewrite Hport, Hinit. reflexivity.
Qed.

Lemma cloud_server_started (w : world) (g : globals) (w' : world) :
  cloud_server int w = (Return g, w') ->
  exists qr port s',
    environ w !! "QR_HASH" = Some qr /\ qr <> "" /\
    port_of int w = Some port /\
    initialize_system (State (process_start qr port) w) = (Return tt, s') /\
    g = glob s' /\ w' = ext s'.
Proof.
  unfold cloud_server, port_of. intros H.
  destruct (environ w !! "QR_HASH") as [[|c qr]|]; try discriminate.
  destruct (match environ w !! "PORT" with
            | Some p => int p
            | None => Some 5000%Z
            end) as [port|]; [|discriminate].
  destruct (initialize_system_run (String c qr) port w) as (s' & Hinit & _).
  rewrite Hinit in H. injection H as <- <-.
  exists (String c qr), port, s'. repeat split; auto; discriminate.
Qed.

(** The state the import leaves satisfies the invariant. *)
Lemma cloud_server_inv (w : world) (g : globals) (w' : world) :
  cloud_server int w = (Return g, w') -> inv g.
Proof.
  intros H.
  apply cloud_server_started in H
    as (qr & port & s' & _ & _ & _ & Hinit & -> & _).
  destruct (initialize_system_run qr port w) as (s2 & Hinit2 & _ & Hbad & Hok).
  rewrite Hinit in Hinit2. injection Hinit2 as <-.
  destruct (environ w !! "MONGO_URI") as [[|c uri]|] eqn:Euri.
  - destruct Hbad as [-> _]; [unfold storage_misconfigured; auto|].
    split; [reflexivity | discriminate].
  - destruct (connect_fault w) as [e|] eqn:Ecf.
    { destruct Hbad as [-> _].
      { unfold storage_misconfigured. rewrite Ecf. right. right. left.
        discriminate. }
      split; [reflexivity | discriminate]. }
    destruct (index_fault w) as [e|] eqn:Eif.
    { destruct Hbad as [-> _].
      { unfold storage_misconfigured. rewrite Eif. right. right. right.
        discriminate. }
      split; [reflexivity | discriminate]. }
    rewrite (Hok (String c uri)); try reflexivity; try discriminate.
    pose proof (fetched_aligned (encodings_cursor w)) as (Hlen & _ & _).
    destruct (fst (fetched (encodings_cursor w))) as [|enc encs] eqn:Ef.
    + split; [reflexivity | discriminate].
    + split; [exact Hlen|]. intros _. split; discriminate.
  - destruct Hbad as [-> _]; [unfold storage_misconfigured; auto|].
    split; [reflexivity | discriminate].
Qed.

(** The invariant holds in every state the application can be in. *)
Lemma reachable_inv (s : state) : reachable int s -> inv (glob s).
Proof.
  induction 1 as [w g w' H | s e data _ IH | s w _ IH].
  - cbn. eapply cloud_server_inv. exact H.
  - destruct (keeps_route e data s) as (He & Hn & Hl & Hdb & _).
    unfold inv in *. rewrite He, Hn, Hl, Hdb. exact IH.
  - exact IH.
Qed.

(** C4, as the code has it.  A missing or empty [QR_HASH] is fatal: the
    import raises [RuntimeError] and no request is served.  A storage
    configuration error is not: with [QR_HASH] set (and a [PORT] that is
    absent or an integer) the import succeeds whatever the storage
    settings are; when [MONGO_URI] is missing or the server cannot be
    used, [initialize_system] catches the exception, prints a
    ["Startup error"] line, and the application serves with [mongo_db]
    unset and the gallery not loaded. *)
Theorem startup_configuration_errors (w : world) :
  (environ w !! "QR_HASH" = None \/ environ w !! "QR_HASH" = Some "" ->
   cloud_server int w
     = (Raise (RuntimeError "QR_HASH environment variable not set"), w)) /\
  (forall qr port,
     environ w !! "QR_HASH" = Some qr -> qr <> "" ->
     port_of int w = Some port ->
     exists g w',
       cloud_server int w = (Return g, w') /\
       QR_HASH g = qr /\
       access_logs_collection w' = access_logs_collection w /\
       (storage_misconfigured w ->
        mongo_db g = None /\
        encodings_loaded g = false /\
        known_face_encodings g = [] /\
        known_face_names g = [] /\
        exists e, In ("✗ Startup error: " +:+ e) (stdout w'))).
Proof.
  split.
  - unfold cloud_server. intros [-> | ->]; reflexivity.
  - intros qr port Hqr Hne Hport.
    destruct (cloud_server_run w qr port Hqr Hne Hport) as (s' & Hinit & Hrun).
    destruct (initialize_system_run qr port w)
      as (s2 & Hinit2 & Hlogs & Hbad & Hok).
    rewrite Hinit in Hinit2. injection Hinit2 as <-.
    exists (glob s'), (ext s'). split; [exact Hrun|].
    assert (Hq : QR_HASH (glob s') = qr).
    { destruct (environ w !! "MONGO_URI") as [[|c uri]|] eqn:Euri;
        try solve [destruct Hbad as [-> _];
                   [unfold storage_misconfigured; auto | reflexivity]].
      destruct (connect_fault w) as [e|] eqn:Ecf.
      { destruct Hbad as [-> _]; [|reflexivity].
        unfold storage_misconfigured. rewrite Ecf.
        right. right. left. discriminate. }
      destruct (index_fault w) as [e|] eqn:Eif.
      { destruct Hbad as [-> _]; [|reflexivity].
        unfold storage_misconfigured. rewrite Eif.
        right. right. right. discriminate. }
      rewrite (Hok (String c uri)); try reflexivity; try discriminate.
      destruct (fst (fetched (encodings_cursor w))); reflexivity. }
    split; [exact Hq|]. split; [exact Hlogs|].
    intros Hmis. destruct (Hbad Hmis) as [-> Hout].
    repeat split; auto.
Qed.

(** C9, as the code has it.  A load from the globals of the process
    start, the only load the program performs, sets the gallery to
    exactly what [get_all_face_encodings] returned: two lists of one
    length, position [i] of both taken from document [i] of the
    collection; when the iteration raised, the two lists are empty.
    [encodings_loaded] becomes true iff at least one pair was returned,
    and with no pair it stays false with an empty gallery.  From any
    globals, a load that returns at least one pair replaces the gallery by
    the pairs returned and sets [encodings_loaded]; a load that returns no
    pair, the storage-failure branch included, leaves every global as it
    was, a loaded gallery too.  The two lists keep one length either way.
    The invariant then holds in every state the application reaches, and
    no route writes the gallery. *)
Theorem gallery_after_load
    (qr : string) (port : Z) (db : MongoDBConfig)
    (sessions : gmap string bool) (w : world) :
  (exists s' w1,
     get_all_face_encodings db w = (Return (fetched (encodings_cursor w)), w1) /\
     load_faces_from_mongo (State (Globals qr port (Some db) [] [] false sessions) w)
       = (Return tt, s') /\
     known_face_encodings (glob s') = fst (fetched (encodings_cursor w)) /\
     known_face_names (glob s') = snd (fetched (encodings_cursor w)) /\
     List.length (known_face_encodings (glob s'))
       = List.length (known_face_names (glob s')) /\
     (forall i enc n,
        known_face_encodings (glob s') !! i = Some enc ->
        known_face_names (glob s') !! i = Some n ->
        encodings_cursor w !! i = Some (Doc (EncodingDoc (Some enc) (Some n)))) /\
     (encodings_loaded (glob s') = true
      <-> fst (fetched (encodings_cursor w)) <> []) /\
     (fst (fetched (encodings_cursor w)) = [] ->
      encodings_loaded (glob s') = false /\
      known_face_encodings (glob s') = [] /\
      known_face_names (glob s') = []) /\
     (forall e rest,
        for_doc_in (encodings_cursor w) [] [] = (Some e, rest) ->
        encodings_loaded (glob s') = false /\
        known_face_encodings (glob s') = [] /\
        known_face_names (glob s') = []) /\
     inv (glob s')) /\
  (forall g : globals,
     mongo_db g = Some db ->
     List.length (known_face_encodings g) = List.length (known_face_names g) ->
     exists s',
       load_faces_from_mongo (State g w) = (Return tt, s') /\
       List.length (known_face_encodings (glob s'))
         = List.length (known_face_names (glob s')) /\
       (fst (fetched (encodings_cursor w)) <> [] ->
        known_face_encodings (glob s') = fst (fetched (encodings_cursor w)) /\
        known_face_names (glob s') = snd (fetched (encodings_cursor w)) /\
        encodings_loaded (glob s') = true /\
        mongo_db (glob s') = mongo_db g /\
        session_cache (glob s') = session_cache g /\
        QR_HASH (glob s') = QR_HASH g /\ PORT (glob s') = PORT g) /\
       (fst (fetched (encodings_cursor w)) = [] -> glob s' = g) /\
       (encodings_loaded (glob s') = true
        <-> fst (fetched (encodings_cursor w)) <> []
            \/ encodings_loaded g = true)) /\
  (forall s, reachable int s -> inv (glob s)) /\
  (forall s e data,
     known_face_encodings (glob (snd (route e data s)))
       = known_face_encodings (glob s) /\
     known_face_names (glob (snd (route e data s)))
       = known_face_names (glob s) /\
     encodings_loaded (glob (snd (route e data s)))
       = encodings_loaded (glob s)).
Proof.
  split; [|split; [|split]].
  - destruct (get_all_face_encodings_run db w) as (w1 & Hget & _).
    destruct (load_faces_from_mongo_run
                (Globals qr port (Some db) [] [] false sessions) w db)
      as (w2 & Hload & _); [reflexivity|].
    pose proof (fetched_aligned (encodings_cursor w)) as (Hlen & Halign & Hfail).
    eexists _, w1. split; [exact Hget|]. split; [exact Hload|].
    cbn [glob].
    destruct (fetched (encodings_cursor w)) as [encs names] eqn:Ef.
    cbn [fst snd] in *.
    assert (Hnames : encs = [] -> names = []).
    { intros ->. destruct names; [reflexivity | discriminate]. }
    destruct encs as [|enc encs];
      cbn [known_face_encodings known_face_names encodings_loaded mongo_db].
    + rewrite (Hnames eq_refl) in *.
      repeat split; try reflexivity; try discriminate; try congruence.
    + repeat split; try reflexivity; try assumption; try discriminate.
      all: intros; match goal with
           | He : for_doc_in _ _ _ = (Some _, _) |- _ =>
               specialize (Hfail _ _ He); discriminate
           end.
  - intros g Hdb Hlen.
    destruct (load_faces_from_mongo_run g w db Hdb) as (w2 & Hload & _).
    pose proof (fetched_aligned (encodings_cursor w)) as (Hfl & _ & _).
    eexists. split; [exact Hload|]. cbn [glob].
    destruct (fst (fetched (encodings_cursor w))) as [|enc encs] eqn:Ef.
    + split; [exact Hlen|]. split; [congruence|]. split; [reflexivity|].
      split; [auto | intros [H | H]; congruence].
    + cbn [known_face_encodings known_face_names encodings_loaded mongo_db
           session_cache QR_HASH PORT].
      split; [exact Hfl|].
      split; [intros _; repeat split; reflexivity|].
      split; [discriminate|].
      split; [intros _; left; discriminate | reflexivity].
  - apply reachable_inv.
  - intros s e data. destruct (keeps_route e data s) as (He & Hn & Hl & _).
    auto.
Qed.

End Startup.

(** * The rest of the server and of the storage layer *)

Section ValidatorDigest.
Context `{VP : VisionProvider}.

Lemma sha256_hexdigest_length (msg : list Z) :
  String.length (Hashlib.sha256_hexdigest msg) = 64%nat.
Proof.
  unfold Hashlib.sha256_hexdigest.
  generalize (fold_left Hashlib.sha_compress
    (Hashlib.blocks_of (Hashlib.pad (Hashlib.bytes_be 8) msg))
    Hashlib.sha256_init).
  intros m. reflexivity.
Qed.

(** X1. A payload other than the configured value is accepted only through
    its SHA-256 digest, which has 64 characters: a configured value of
    another length accepts exactly itself, and a configured value that is
    not empty always accepts itself. *)
Theorem validate_qr_digest_needs_64_characters (g : globals) :
  (forall p, String.length (QR_HASH g) <> 64%nat ->
     (validate_qr g (Some p) = true <-> p = QR_HASH g /\ p <> "")) /\
  (forall p, validate_qr g (Some p) = true -> p <> QR_HASH g ->
     String.length (QR_HASH g) = 64%nat) /\
  (QR_HASH g <> "" -> validate_qr g (Some (QR_HASH g)) = true).
Proof.
  assert (Hhash : forall p, validate_qr g (Some p) = true -> p <> QR_HASH g ->
                            String.length (QR_HASH g) = 64%nat).
  { intros p H Hne. unfold validate_qr in H.
    destruct p as [|c p]; [discriminate|].
    destruct (String.eqb_spec (String c p) (QR_HASH g)) as [E|_];
      [contradiction|].
    apply String.eqb_eq in H. rewrite <- H. apply sha256_hexdigest_length. }
  split; [|split].
  - intros p Hlen. split.
    + intros H. destruct (String.eqb_spec p (QR_HASH g)) as [E|E].
      * split; [exact E|]. intros ->. discriminate.
      * specialize (Hhash p H E). contradiction.
    + intros [-> Hne]. unfold validate_qr.
      destruct (QR_HASH g) as [|c q] eqn:E; [congruence|].
      rewrite String.eqb_refl. reflexivity.
  - exact Hhash.
  - intros Hne. unfold validate_qr.
    destruct (QR_HASH g) as [|c q] eqn:E; [congruence|].
    rewrite String.eqb_refl. reflexivity.
Qed.

End ValidatorDigest.

Section InputErrors.
Context `{VP : VisionProvider}.

(** X2. Only the first symbol pyzbar reports is looked at. *)
Theorem verify_qr_reads_first_symbol_only
    (s : state) (data1 data2 : gmap string string)
    (image1 image2 : string) (bytes1 bytes2 : list Z) (f1 f2 : frame) :
  data1 !! "image" = Some image1 -> b64decode image1 = Some bytes1 ->
  imdecode bytes1 = Some f1 ->
  data2 !! "image" = Some image2 -> b64decode image2 = Some bytes2 ->
  imdecode bytes2 = Some f2 ->
  head (pyzbar_decode f1) = head (pyzbar_decode f2) ->
  verify_qr data1 s = verify_qr data2 s.
Proof.
  intros H1 B1 I1 H2 B2 I2 Hhead.
  unfold verify_qr. rewrite H1, H2.
  unfold load_image. rewrite B1, B2.
  unfold bind at 1. unfold ret at 1. symmetry.
  unfold bind at 1. unfold ret at 1. symmetry.
  rewrite I1, I2.
  assert (Hd : decode_qr (Some f1) s = decode_qr (Some f2) s).
  { unfold decode_qr, cvtColor, bind, ret.
    destruct (pyzbar_decode f1) as [|[a|] r1], (pyzbar_decode f2) as [|[b|] r2];
      simpl in Hhead; try discriminate; try reflexivity.
    injection Hhead as ->. reflexivity. }
  unfold bind at 1. symmetry. unfold bind at 1. rewrite Hd. reflexivity.
Qed.


(** X4. Without a storage handle the QR route raises after it has decided:
    a valid payload has its session stored all the same, nothing is
    logged and no answer is given. *)
Theorem verify_qr_without_storage_handle
    (s : state) (data : gmap string string)
    (image : string) (bytes : list Z) (f : frame) :
  data !! "image" = Some image ->
  b64decode image = Some bytes ->
  imdecode bytes = Some f ->
  (forall rest, pyzbar_decode f <> None :: rest) ->
  mongo_db (glob s) = None ->
  exists msg s',
    verify_qr data s = (Raise (AttributeError msg), s') /\
    ext s' = ext s /\
    (validate_qr (glob s) (qr_text f) = true ->
     session_cache (glob s')
       = <[session_id_at (now (ext s)) := true]> (session_cache (glob s))) /\
    (validate_qr (glob s) (qr_text f) = false -> s' = s).
Proof.
  intros Himage Hb64 Him Htext Hdb.
  destruct s as [g w]. cbn [glob ext] in *.
  unfold verify_qr. rewrite Himage. unfold load_image. rewrite Hb64.
  cbv [bind ret decode_qr cvtColor]. rewrite Him. unfold qr_text.
  destruct (pyzbar_decode f) as [|[data0|] rest] eqn:Eqr;
    [| | exfalso; eapply Htext; reflexivity].
  all: cbv [gets]; cbn [glob ext]; destruct (validate_qr g _);
    cbv [modify the_mongo_db bind gets ret lift set_session raise];
    cbn [glob ext mongo_db]; rewrite Hdb;
    eexists _, _; (split; [reflexivity|]); cbn [glob ext session_cache];
    (split; [reflexivity|]); split; intros; try discriminate; reflexivity.
Qed.

End InputErrors.

Section MatcherNames.
Context `{VP : VisionProvider}.

Lemma recognize_face_name (image_np : option frame) (s s' : state)
    (n msg : string) :
  recognize_face image_np s = (Return (Some n, msg), s') ->
  s' = s /\ n ∈ known_face_names (glob s) /\
  encodings_loaded (glob s) = true /\
  exists c : float, (50 <? c)%float = true /\ msg = format_1f c +:+ "%".
Proof.
  unfold recognize_face, bind at 1, gets at 1.
  destruct (encodings_loaded (glob s)) eqn:Hl; cbn [negb]; [|discriminate].
  unfold cvtColor. destruct image_np as [f|]; [|discriminate].
  unfold bind at 1, ret at 1.
  destruct (face_locations f) as [|l0 locs]; [discriminate|].
  unfold index at 1.
  destruct (face_encodings f (l0 :: locs) !! 0%nat) as [probe|];
    [|discriminate].
  unfold bind at 1, ret at 1, bind at 1, gets at 1.
  unfold argmin.
  destruct (face_distance (known_face_encodings (glob s)) probe)
    as [|x t]; [discriminate|].
  unfold bind at 1, ret at 1.
  set (best := if is_nan x then 0%nat else argmin_from 0 x 1 t).
  unfold index at 1. destruct ((x :: t) !! best) as [d|]; [|discriminate].
  unfold bind at 1, ret at 1.
  destruct (0.5 <? 1 - d)%float eqn:Hc; [|discriminate].
  unfold bind at 1, gets at 1, index.
  destruct (known_face_names (glob s) !! best) as [name|] eqn:Hn;
    [|discriminate].
  unfold bind, ret. intros [= <- <- <-].
  split; [reflexivity|]. split; [eapply list_elem_of_lookup_2; exact Hn|].
  split; [reflexivity|].
  exists ((1 - d) * 100)%float. split; [|reflexivity].
  apply above_half_above_fifty. exact Hc.
Qed.

(** X5. A granted answer names an enrolled, non-empty name, with a
    confidence above 50. *)
Theorem granted_name_is_enrolled
    (data : gmap string string) (s s' : state) (resp : response) (n : string) :
  recognize_face_api data s = (Return resp, s') ->
  body resp !! "name" = Some (JStr n) ->
  n ∈ known_face_names (glob s) /\ n <> "" /\
  body resp !! "access" = Some (JStr "granted") /\
  (exists c : float, (50 <? c)%float = true /\
     body resp !! "confidence" = Some (JStr (format_1f c +:+ "%"))) /\
  glob s' = glob s.
Proof.
  unfold recognize_face_api, bind at 1, gets at 1.
  destruct (encodings_loaded (glob s)) eqn:Hl; cbn [negb];
    [|intros [= <- _] H; vm_compute in H; discriminate].
  destruct (data !! "image") as [image|];
    [|intros [= <- _] H; vm_compute in H; discriminate].
  unfold load_image. destruct (b64decode image) as [bytes|]; [|discriminate].
  unfold bind at 1, ret at 1. unfold bind at 1.
  destruct (recognize_face (imdecode bytes) s) as [[[name msg]|x] s1] eqn:Hr;
    [|discriminate].
  destruct name as [name|].
  - apply recognize_face_name in Hr as (-> & Hin & _ & c & Hc & ->).
    unfold truthy. destruct name as [|ch name].
    + cbv [the_mongo_db bind gets ret lift raise].
      destruct (mongo_db (glob s)); [|discriminate].
      rewrite log_access_run. intros [= <- _] H. vm_compute in H. discriminate.
    + cbv [the_mongo_db bind gets ret lift raise].
      destruct (mongo_db (glob s)); [|discriminate].
      rewrite log_access_run. intros [= <- <-]. cbn [body glob].
      intros H.
      assert (Hn : n = String ch name).
      { revert H. generalize (format_1f c +:+ "%"). intros pct H.
        vm_compute in H. congruence. }
      subst n. split; [exact Hin|]. split; [discriminate|].
      split; [|split; [|reflexivity]].
      * generalize (format_1f c +:+ "%"). intros pct. reflexivity.
      * exists c. split; [exact Hc|].
        generalize (format_1f c +:+ "%"). intros pct. reflexivity.
  - unfold truthy. cbv [the_mongo_db bind gets ret lift raise].
    destruct (mongo_db (glob s1)); [|discriminate].
    rewrite log_access_run. intros [= <- _] H. vm_compute in H. discriminate.
Qed.

End MatcherNames.

Section MatcherFaces.
Context `{VP : VisionProvider}.

(** X6. A gallery entry under the empty name is matched by [recognize_face]
    and refused by the route. *)
Theorem empty_name_is_denied
    (s : state) (data : gmap string string) (image : string)
    (bytes : list Z) (f : frame) (msg : string) (db : MongoDBConfig) :
  encodings_loaded (glob s) = true ->
  mongo_db (glob s) = Some db ->
  data !! "image" = Some image ->
  b64decode image = Some bytes ->
  imdecode bytes = Some f ->
  recognize_face (Some f) s = (Return (Some "", msg), s) ->
  recognize_face_api data s =
    (Return (Response {[ "recognized" := JBool false;
                         "access" := JStr "denied" ]} 200),
     State (glob s)
           (recorded (LogEntry "Unknown" "denied" "face" None (utcnow (ext s)))
                     (ext s))).
Proof.
  intros Hloaded Hdb Himage Hb64 Him Hr.
  unfold recognize_face_api, bind at 1, gets at 1. rewrite Hloaded.
  cbn [negb]. rewrite Himage. unfold load_image. rewrite Hb64.
  unfold bind at 1, ret at 1. rewrite Him.
  unfold bind at 1. rewrite Hr. cbn [truthy].
  cbv [the_mongo_db bind gets ret lift]. rewrite Hdb.
  rewrite log_access_run. reflexivity.
Qed.

(** X7. Only the first face of a frame is matched. *)
Theorem recognize_face_first_face_only (s : state) (f1 f2 : frame) :
  face_locations f1 <> [] ->
  face_locations f2 <> [] ->
  face_encodings f1 (face_locations f1) !! 0%nat
    = face_encodings f2 (face_locations f2) !! 0%nat ->
  recognize_face (Some f1) s = recognize_face (Some f2) s.
Proof.
  intros H1 H2 Hhead.
  unfold recognize_face, bind at 1, gets at 1. symmetry.
  unfold bind at 1, gets at 1. symmetry.
  destruct (negb (encodings_loaded (glob s))); [reflexivity|].
  unfold cvtColor, bind at 1, ret at 1. symmetry.
  unfold bind at 1, ret at 1. symmetry.
  destruct (face_locations f1) as [|a1 l1]; [congruence|].
  destruct (face_locations f2) as [|a2 l2]; [congruence|].
  unfold index at 1. symmetry. unfold index at 1. symmetry.
  rewrite Hhead. reflexivity.
Qed.

End MatcherFaces.

Section Serving.
Context `{VP : VisionProvider}.

Lemma upto_zero {A} (c : py state A) :
  (forall s, ext (snd (c s)) = ext s) -> records_upto 0 c.
Proof. intros H s. exists []. split; [reflexivity | apply H]. Qed.

Lemma upto_weaken {A} (n m : nat) (c : py state A) :
  (n <= m)%nat -> records_upto n c -> records_upto m c.
Proof.
  intros Hle H s. destruct (H s) as (l & Hl & He). exists l. split; [lia | exact He].
Qed.

Lemma upto_bind {A B} (n m : nat) (c : py state A) (k : A -> py state B) :
  records_upto n c -> (forall a, records_upto m (k a)) ->
  records_upto (n + m) (bind c k).
Proof.
  intros Hc Hk s. unfold bind.
  destruct (Hc s) as (l1 & L1 & E1).
  destruct (c s) as [[a|e] s1]; cbn [snd] in E1.
  - destruct (Hk a s1) as (l2 & L2 & E2).
    exists (l1 ++ l2). rewrite length_app, E2, E1, replay_app.
    split; [lia | reflexivity].
  - exists l1. split; [lia | exact E1].
Qed.

Lemma upto_log_access (db : MongoDBConfig) (u st ty : string)
    (c : option string) :
  records_upto 1 (lift (log_access db u st ty c)).
Proof.
  intros s. unfold lift. rewrite log_access_run. cbn.
  eexists [_]. split; [reflexivity | reflexivity].
Qed.

Ltac upto0 :=
  repeat first
    [ apply upto_zero; intros; reflexivity
    | apply (upto_bind 0 0); [|intro]
    | case_match ].

Lemma upto_recognize_face (image_np : option frame) :
  records_upto 0 (recognize_face image_np).
Proof. unfold recognize_face, cvtColor, index, argmin. upto0. Qed.

Ltac upto1 :=
  repeat first
    [ apply upto_log_access
    | apply upto_zero; intros; reflexivity
    | apply (upto_weaken 0 1); [lia|]; apply upto_zero; intros; reflexivity
    | apply (upto_bind 1 0); [apply upto_log_access | intro]
    | apply (upto_bind 0 1);
        [ first [ apply upto_recognize_face | upto0; fail ] | intro ]
    | case_match ].

(** Whatever the request, a route calls [log_access] at most once and
    does nothing else to the world. *)
Lemma upto_route (e : endpoint) (data : gmap string string) :
  records_upto 1 (route e data).
Proof.
  destruct e; cbn [route].
  - unfold verify_qr, load_image, decode_qr, cvtColor, the_mongo_db. upto1.
  - unfold recognize_face_api, load_image, the_mongo_db. upto1.
Qed.

Lemma sessions_bind {A B} (c : py state A) (k : A -> py state B) :
  keeps_sessions c -> (forall a, keeps_sessions (k a)) ->
  keeps_sessions (bind c k).
Proof.
  intros Hc Hk s sid H. unfold bind. specialize (Hc s sid H).
  destruct (c s) as [[a|e] s1]; cbn [snd] in Hc; [|exact Hc].
  apply Hk. exact Hc.
Qed.

Lemma sessions_same {A} (c : py state A) :
  (forall s, glob (snd (c s)) = glob s) -> keeps_sessions c.
Proof. intros H s sid Hs. rewrite H. exact Hs. Qed.

Lemma sessions_set_session (sid : string) :
  keeps_sessions (modify (set_session sid)).
Proof.
  intros s k H. cbn. destruct (decide (sid = k)) as [->|Hne].
  - apply lookup_insert_eq.
  - rewrite lookup_insert_ne by exact Hne. exact H.
Qed.

Ltac sessions_step :=
  first [ apply sessions_set_session
        | apply sessions_same; intros [g w]; reflexivity
        | apply sessions_same; intros [g w]; unfold lift;
          rewrite log_access_run; reflexivity
        | apply sessions_bind; [|intro]
        | case_match ].

Lemma sessions_route (e : endpoint) (data : gmap string string) :
  keeps_sessions (route e data).
Proof.
  destruct e; cbn [route].
  - unfold verify_qr, load_image, decode_qr, cvtColor, the_mongo_db.
    repeat sessions_step.
  - unfold recognize_face_api, load_image, the_mongo_db, recognize_face,
      cvtColor, index, argmin.
    repeat sessions_step.
Qed.

(** X8. Over any run of requests: the access log keeps its entries and
    gains at most one per request, nothing else of the world but the
    output changes, the gallery is not written and every session that was
    valid stays valid. *)
Theorem serve_keeps_log_gallery_and_sessions
    (requests : list (endpoint * gmap string string)) (s : state) :
  (exists new,
     access_logs_collection (ext (serve requests s))
       = access_logs_collection (ext s) ++ new /\
     (List.length new <= List.length requests)%nat) /\
  readable (ext (serve requests s)) = readable (ext s) /\
  insert_fault (ext (serve requests s)) = insert_fault (ext s) /\
  known_face_encodings (glob (serve requests s))
    = known_face_encodings (glob s) /\
  known_face_names (glob (serve requests s)) = known_face_names (glob s) /\
  encodings_loaded (glob (serve requests s)) = encodings_loaded (glob s) /\
  QR_HASH (glob (serve requests s)) = QR_HASH (glob s) /\
  (forall sid, session_cache (glob s) !! sid = Some true ->
               session_cache (glob (serve requests s)) !! sid = Some true).
Proof.
  revert s. induction requests as [|[e data] rest IH]; intros s.
  - cbn. split; [exists []; rewrite app_nil_r; auto|]. repeat split; auto.
  - cbn [serve].
    destruct (IH (snd (route e data s)))
      as ((new & Hlog & Hlen) & Hread & Hfault & He & Hn & Hl & Hq & Hs).
    destruct (upto_route e data s) as (entries & Hle & Hext).
    destruct (keeps_route e data s) as (Ke & Kn & Kl & _ & Kq).
    assert (Hf1 : insert_fault (ext (snd (route e data s)))
                  = insert_fault (ext s))
      by (rewrite Hext; apply replay_insert_fault).
    assert (Hr1 : readable (ext (snd (route e data s))) = readable (ext s)).
    { rewrite Hext. generalize (ext s) as w. clear.
      induction entries as [|en l IHl]; intros w; [reflexivity|].
      change (replay (en :: l) w) with (replay l (recorded en w)).
      rewrite IHl. apply recorded_readable. }
    split.
    + rewrite Hlog, Hext, replay_access_logs.
      destruct (insert_fault (ext s)).
      * exists new. rewrite app_nil_r. split; [reflexivity | cbn; lia].
      * exists (map stored entries ++ new).
        rewrite app_assoc, length_app, length_map.
        split; [reflexivity | cbn; lia].
    + repeat split; try congruence.
      intros sid H. apply Hs. apply sessions_route. exact H.
Qed.

End Serving.

Section StatusRoute.
Context `{VP : VisionProvider}.
Variable int : string -> option Z.

Lemma distinct_count_remove_dups (names : list string) :
  distinct_count names = List.length (remove_dups names).
Proof.
  unfold distinct_count.
  rewrite <- (size_list_to_set (C := gset string) (remove_dups names))
    by apply NoDup_remove_dups.
  f_equal. apply set_eq. intros x.
  rewrite !elem_of_list_to_set, elem_of_remove_dups. reflexivity.
Qed.

Lemma distinct_count_le (names : list string) :
  (distinct_count names <= List.length names)%nat.
Proof.
  rewrite distinct_count_remove_dups.
  induction names as [|x l IH]; [reflexivity|].
  cbn. destruct (decide_rel elem_of x l); cbn; lia.
Qed.

Lemma distinct_count_pos (names : list string) :
  names <> [] -> (1 <= distinct_count names)%nat.
Proof.
  intros Hne. destruct names as [|x l]; [congruence|].
  unfold distinct_count.
  assert (H : size (list_to_set (x :: l) : gset string) <> 0%nat).
  { apply size_non_empty_iff. intros E.
    assert (Hx : x ∈ (list_to_set (x :: l) : gset string))
      by (apply elem_of_list_to_set; left).
    rewrite E in Hx. set_solver. }
  lia.
Qed.

(** In a state the application can be in, a gallery that is not loaded
    is empty. *)
Lemma reachable_unloaded_empty (s : state) :
  reachable int s ->
  encodings_loaded (glob s) = false ->
  known_face_encodings (glob s) = [] /\ known_face_names (glob s) = [].
Proof.
  induction 1 as [w g w' H | s e data _ IH | s w _ IH]; cbn [glob].
  - apply cloud_server_started in H
      as (qr & port & s' & _ & _ & _ & Hinit & -> & _).
    destruct (initialize_system_run qr port w) as (s2 & Hinit2 & _ & Hbad & Hok).
    rewrite Hinit in Hinit2. injection Hinit2 as <-.
    destruct (environ w !! "MONGO_URI") as [[|c uri]|] eqn:Euri.
    + destruct Hbad as [-> _]; [unfold storage_misconfigured; auto|]. auto.
    + destruct (connect_fault w) as [e|] eqn:Ecf.
      { destruct Hbad as [-> _]; [|auto].
        unfold storage_misconfigured. rewrite Ecf. right. right. left.
        discriminate. }
      destruct (index_fault w) as [e|] eqn:Eif.
      { destruct Hbad as [-> _]; [|auto].
        unfold storage_misconfigured. rewrite Eif. right. right. right.
        discriminate. }
      rewrite (Hok (String c uri)); try reflexivity; try discriminate.
      destruct (fst (fetched (encodings_cursor w))); [auto | discriminate].
    + destruct Hbad as [-> _]; [unfold storage_misconfigured; auto|]. auto.
  - destruct (keeps_route e data s) as (He & Hn & Hl & _).
    rewrite He, Hn, Hl. exact IH.
  - exact IH.
Qed.

(** X9. The status route never raises, prints one line and changes nothing
    else; the number it reports counts each enrolled name once, and in
    every state the application can be in it reports [faces_loaded]
    exactly when that number is not zero. *)
Theorem api_status_reports_distinct_names (s : state) :
  exists body s',
    api_status s = (Return body, s') /\
    glob s' = glob s /\
    access_logs_collection (ext s') = access_logs_collection (ext s) /\
    (exists line, stdout (ext s') = stdout (ext s) ++ [line]) /\
    online body = true /\
    faces_loaded body = encodings_loaded (glob s) /\
    known_faces body = List.length (remove_dups (known_face_names (glob s))) /\
    (known_faces body <= List.length (known_face_names (glob s)))%nat /\
    (reachable int s ->
     (faces_loaded body = true <-> (1 <= known_faces body)%nat)).
Proof.
  eexists _, _. split; [reflexivity|].
  cbn [glob ext online faces_loaded known_faces access_logs_collection stdout
       set_stdout].
  repeat (split; [first [reflexivity | eexists; reflexivity
                        | apply distinct_count_remove_dups
                        | apply distinct_count_le ]|]).
  intros Hreach. pose proof (reachable_inv int s Hreach) as [Hlen Hne].
  split.
  - intros Hl. destruct (Hne Hl) as [Hk _].
    apply distinct_count_pos. intros E. rewrite E in Hlen.
    destruct (known_face_encodings (glob s)); [congruence | discriminate].
  - intros Hpos. destruct (encodings_loaded (glob s)) eqn:Hl; [reflexivity|].
    destruct (reachable_unloaded_empty s Hreach Hl) as [_ E].
    rewrite E in Hpos. vm_compute in Hpos. lia.
Qed.

End StatusRoute.

Section StartupOutcomes.
Context `{VP : VisionProvider}.
Variable int : string -> option Z.

(** X10. A [PORT] that [int] refuses is fatal at import, before any
    connection is attempted; a missing [QR_HASH] is reported first. *)
Theorem invalid_port_is_fatal (w : world) (p : string) :
  environ w !! "PORT" = Some p ->
  int p = None ->
  exists e, cloud_server int w = (Raise e, w) /\
    ((environ w !! "QR_HASH" = None \/ environ w !! "QR_HASH" = Some "") ->
     e = RuntimeError "QR_HASH environment variable not set") /\
    (forall qr, environ w !! "QR_HASH" = Some qr -> qr <> "" ->
     e = ValueError "invalid literal for int()").
Proof.
  intros Hp Hint. unfold cloud_server. rewrite Hp, Hint.
  destruct (environ w !! "QR_HASH") as [[|c qr]|]; eexists;
    (split; [reflexivity|]); split;
    try (intros [H|H]; try discriminate; reflexivity);
    try (intros qr' [= <-] Hne; congruence);
    try (intros qr' H; discriminate); try reflexivity.
Qed.

(** X11. A second load on unchanged stored encodings leaves the globals of
    the first. *)
Theorem load_faces_twice (g : globals) (w : world) (db : MongoDBConfig) :
  mongo_db g = Some db ->
  exists s1 s2,
    load_faces_from_mongo (State g w) = (Return tt, s1) /\
    load_faces_from_mongo s1 = (Return tt, s2) /\
    glob s2 = glob s1 /\
    access_logs_collection (ext s2) = access_logs_collection w.
Proof.
  intros Hdb.
  destruct (load_faces_from_mongo_run g w db Hdb) as (w1 & H1 & Hr1 & Hl1).
  assert (Hc : encodings_cursor w1 = encodings_cursor w).
  { unfold readable in Hr1. congruence. }
  set (g1 := match fst (fetched (encodings_cursor w)) with
             | [] => g
             | _ => Globals (QR_HASH g) (PORT g) (mongo_db g)
                           (fst (fetched (encodings_cursor w)))
                           (snd (fetched (encodings_cursor w)))
                           true (session_cache g)
             end) in *.
  assert (Hdb1 : mongo_db g1 = Some db).
  { unfold g1. destruct (fst (fetched (encodings_cursor w))); exact Hdb. }
  destruct (load_faces_from_mongo_run g1 w1 db Hdb1) as (w2 & H2 & _ & Hl2).
  eexists _, _. split; [exact H1|]. split; [exact H2|].
  cbn [glob ext]. split; [|congruence].
  rewrite Hc. unfold g1.
  destruct (fst (fetched (encodings_cursor w))); reflexivity.
Qed.



(** X13. A start with the secret and a usable storage loads exactly what the
    reader returns. *)
Theorem healthy_start_loads_gallery (w : world) (qr uri : string) (port : Z) :
  environ w !! "QR_HASH" = Some qr -> qr <> "" ->
  port_of int w = Some port ->
  environ w !! "MONGO_URI" = Some uri -> uri <> "" ->
  connect_fault w = None -> index_fault w = None ->
  exists g w',
    cloud_server int w = (Return g, w') /\
    QR_HASH g = qr /\ PORT g = port /\
    mongo_db g = Some (MkMongoDBConfig uri) /\
    session_cache g = ∅ /\
    known_face_encodings g = fst (fetched (encodings_cursor w)) /\
    known_face_names g = snd (fetched (encodings_cursor w)) /\
    (encodings_loaded g = true <-> fst (fetched (encodings_cursor w)) <> []) /\
    access_logs_collection w' = access_logs_collection w.
Proof.
  intros Hqr Hne Hport Huri Hune Hcf Hif.
  destruct (cloud_server_run int w qr port Hqr Hne Hport) as (s' & Hinit & Hrun).
  destruct (initialize_system_run qr port w) as (s2 & Hinit2 & Hlogs & _ & Hok).
  rewrite Hinit in Hinit2. injection Hinit2 as <-.
  specialize (Hok uri Huri Hune Hcf Hif).
  exists (glob s'), (ext s'). split; [exact Hrun|]. rewrite Hok.
  pose proof (fetched_aligned (encodings_cursor w)) as (Hlen & _ & _).
  destruct (fetched (encodings_cursor w)) as [encs names]. cbn [fst snd] in *.
  destruct encs as [|enc encs]; cbn.
  - destruct names; [|discriminate].
    repeat split; try reflexivity; try exact Hlogs; try congruence.
  - repeat split; try reflexivity; try exact Hlogs; try discriminate.
Qed.

End StartupOutcomes.

Section Users.
Context `{VP : VisionProvider}.

Lemma find_existsb (name : string) (users : list user_doc) :
  existsb (fun u => String.eqb (user_doc_name u) name) users
  = match List.find (fun u => String.eqb (user_doc_name u) name) users with
    | Some _ => true
    | None => false
    end.
Proof.
  induction users as [|u l IH]; [reflexivity|].
  cbn. destruct (String.eqb (user_doc_name u) name); [reflexivity | exact IH].
Qed.

Lemma find_app_new (name : string) (users : list user_doc) (u : user_doc) :
  List.find (fun u => String.eqb (user_doc_name u) name) users = None ->
  user_doc_name u = name ->
  List.find (fun u => String.eqb (user_doc_name u) name) (users ++ [u]) = Some u.
Proof.
  intros Hnone Hu. induction users as [|x l IH]; cbn in *.
  - rewrite Hu, String.eqb_refl. reflexivity.
  - destruct (String.eqb (user_doc_name x) name); [discriminate | auto].
Qed.

(** On a database that answers, a name that is not stored yet is
    inserted under the next identifier. *)
Lemma add_user_new (users : list user_doc) (encs : list face_doc) (oid : N)
    (w : world) (name role : string) :
  List.find (fun x => String.eqb (user_doc_name x) name) users = None ->
  add_user name role (Database users encs oid [] w)
    = (Return (Some (oid_str oid)),
       Database (users ++ [UserDoc oid name role (bson_date (utcnow w)) true])
                encs (N.succ oid) [] w).
Proof.
  intros Efind.
  cbv [add_user try_except bind gets insert_user fresh_oid driver_call
       get_user_by_name raise ret modify set_users].
  cbn [faults tail users_collection encodings_collection next_oid srv].
  rewrite find_existsb, Efind. reflexivity.
Qed.

(** X14. [add_user] on a database that answers: a new name gets a document
    with the role given and a fresh identifier; a name already present
    gets the identifier it has, and its document, role included, is left
    as it is.  In both cases the name then looks up to the identifier
    returned, and a second call returns it again without writing. *)
Theorem add_user_is_idempotent (d : database) (name role role' : string) :
  faults d = [] ->
  exists (u : user_doc) (d1 d2 : database),
    add_user name role d = (Return (Some (oid_str (user_oid u))), d1) /\
    List.find (fun x => String.eqb (user_doc_name x) name) (users_collection d1)
      = Some u /\
    add_user name role' d1 = (Return (Some (oid_str (user_oid u))), d2) /\
    users_collection d2 = users_collection d1 /\
    encodings_collection d2 = encodings_collection d /\
    faults d2 = [] /\
    match List.find (fun x => String.eqb (user_doc_name x) name)
                    (users_collection d) with
    | Some u0 => u = u0 /\ users_collection d1 = users_collection d
    | None =>
        u = UserDoc (next_oid d) name role (bson_date (utcnow (srv d))) true /\
        users_collection d1 = users_collection d ++ [u]
    end.
Proof.
  intros Hf. destruct d as [users encs oid fl w]. cbn [faults] in Hf. subst fl.
  cbn [users_collection encodings_collection next_oid srv].
  destruct (List.find (fun x => String.eqb (user_doc_name x) name) users)
    as [u0|] eqn:Efind.
  - exists u0.
    assert (Hrun : forall r oid',
      add_user name r (Database users encs oid' [] w)
      = (Return (Some (oid_str (user_oid u0))),
         Database users encs (N.succ oid') [] w)).
    { intros r oid'.
      cbv [add_user try_except bind gets insert_user fresh_oid driver_call
           get_user_by_name raise ret modify].
      cbn [faults tail users_collection encodings_collection next_oid srv].
      rewrite find_existsb, Efind.
      cbn [faults tail users_collection encodings_collection next_oid srv].
      rewrite Efind. reflexivity. }
    eexists _, _. rewrite !Hrun.
    cbn [users_collection encodings_collection faults].
    repeat split; auto.
  - set (u := UserDoc oid name role (bson_date (utcnow w)) true).
    exists u.
    assert (Hfind1 : List.find (fun x => String.eqb (user_doc_name x) name)
                               (users ++ [u]) = Some u)
      by (apply find_app_new; [exact Efind | reflexivity]).
    eexists (Database (users ++ [u]) encs (N.succ oid) [] w), _.
    split; [apply add_user_new; exact Efind|].
    split; [exact Hfind1|].
    split.
    { cbv [add_user try_except bind gets insert_user fresh_oid driver_call
           get_user_by_name raise ret modify set_users].
      cbn [faults tail users_collection encodings_collection next_oid srv].
      rewrite find_existsb, Hfind1.
      cbn [faults tail users_collection encodings_collection next_oid srv].
      rewrite Hfind1. reflexivity. }
    cbn [users_collection encodings_collection faults].
    repeat split; auto.
Qed.

(** X15. A user that [add_user] creates is active and is listed last by
    [get_all_users]. *)
Theorem added_user_is_listed (d : database) (name role : string) :
  faults d = [] ->
  List.find (fun x => String.eqb (user_doc_name x) name) (users_collection d)
    = None ->
  exists (u : user_doc) (d1 d2 : database),
    add_user name role d = (Return (Some (oid_str (user_oid u))), d1) /\
    user_doc_name u = name /\ user_role u = role /\ user_is_active u = true /\
    get_all_users d1
      = (Return (List.filter user_is_active (users_collection d) ++ [u]), d2).
Proof.
  intros Hf Hnone. destruct d as [users encs oid fl w].
  cbn [faults] in Hf. subst fl. cbn [users_collection] in Hnone |- *.
  exists (UserDoc oid name role (bson_date (utcnow w)) true). eexists _, _.
  split; [apply add_user_new; exact Hnone|].
  cbn [user_doc_name user_role user_is_active].
  repeat (split; [reflexivity|]).
  cbv [get_all_users bind driver_call gets].
  cbn [faults users_collection].
  rewrite List.filter_app. reflexivity.
Qed.

End Users.

Section Consistency.
Context `{VP : VisionProvider}.

Lemma steady_bind {A B} (c : py database A) (k : A -> py database B) :
  steady c -> (forall a, steady (k a)) -> steady (bind c k).
Proof.
  intros Hc Hk d H. unfold bind. specialize (Hc d H).
  destruct (c d) as [[a|e] d1]; cbn [snd] in Hc |- *; [apply Hk|]; exact Hc.
Qed.

Lemma steady_try {A} (c : py database A) (h : exn -> py database A) :
  steady c -> (forall e, steady (h e)) -> steady (try_except c h).
Proof.
  intros Hc Hh d H. unfold try_except. specialize (Hc d H).
  destruct (c d) as [[a|e] d1]; cbn [snd] in Hc |- *; [|apply Hh]; exact Hc.
Qed.

Lemma steady_same {A} (c : py database A) :
  (forall d, users_collection (snd (c d)) = users_collection d /\
             encodings_collection (snd (c d)) = encodings_collection d /\
             (next_oid d <= next_oid (snd (c d)))%N) ->
  steady c.
Proof.
  intros Hsame d (Hn & Ho & Hlt). destruct (Hsame d) as (Hu & He & Hle).
  unfold consistent, all_oids in *. rewrite Hu, He.
  split; [exact Hn|]. split; [exact Ho|].
  eapply Forall_impl; [exact Hlt|]. cbn. intros x Hx. lia.
Qed.

Lemma steady_driver_call : steady driver_call.
Proof.
  apply steady_same. intros d. unfold driver_call.
  destruct (faults d) as [|[e|] fl]; cbn; repeat split; lia.
Qed.

Lemma steady_get_user_by_name (name : string) : steady (get_user_by_name name).
Proof.
  apply steady_same. intros d. unfold get_user_by_name, bind, driver_call, gets.
  destruct (faults d) as [|[e|] fl]; cbn; repeat split; lia.
Qed.

Lemma fresh_oid_fits (us fs : list N) (oid : N) :
  NoDup (us ++ fs) ->
  Forall (fun x => (x < oid)%N) (us ++ fs) ->
  (NoDup ((us ++ [oid]) ++ fs) /\
   Forall (fun x => (x < N.succ oid)%N) ((us ++ [oid]) ++ fs)) /\
  (NoDup (us ++ fs ++ [oid]) /\
   Forall (fun x => (x < N.succ oid)%N) (us ++ fs ++ [oid])).
Proof.
  intros Hnd Hlt.
  assert (Hnew : NoDup (oid :: us ++ fs) /\
                 Forall (fun x => (x < N.succ oid)%N) (oid :: us ++ fs)).
  { split.
    - apply NoDup_cons. split; [|exact Hnd].
      intros Hin. rewrite Forall_forall in Hlt. specialize (Hlt oid Hin). lia.
    - apply Forall_cons. split; [lia|].
      eapply Forall_impl; [exact Hlt|]. cbn. intros x Hx. lia. }
  assert (P1 : (us ++ [oid]) ++ fs ≡ₚ oid :: us ++ fs).
  { rewrite <- app_assoc. cbn. symmetry. apply Permutation_middle. }
  assert (P2 : us ++ fs ++ [oid] ≡ₚ oid :: us ++ fs).
  { rewrite app_assoc. symmetry. apply Permutation_cons_append. }
  rewrite P1, P2. auto.
Qed.

Lemma consistent_bump (users : list user_doc) (encs : list face_doc)
    (oid : N) (fl fl' : list (option string)) (w w' : world) :
  consistent (Database users encs oid fl w) ->
  consistent (Database users encs (N.succ oid) fl' w').
Proof.
  intros (Hn & Ho & Hlt). split; [exact Hn|]. split; [exact Ho|].
  eapply Forall_impl; [exact Hlt|]. cbn. intros x Hx. lia.
Qed.

Lemma steady_insert_user (name role : string) (t : datetime) :
  steady (insert_user name role t).
Proof.
  intros [users encs oid fl w] H.
  cbv [insert_user bind fresh_oid driver_call gets raise modify ret set_users].
  cbn [faults users_collection encodings_collection next_oid srv].
  pose proof (consistent_bump users encs oid fl (tail fl) w w H) as Hkeep.
  assert (Hnew :
    existsb (fun u => String.eqb (user_doc_name u) name) users = false ->
    consistent (Database (users ++ [UserDoc oid name role (bson_date t) true])
                         encs
                         (N.succ oid) (tail fl) w)).
  { intros Ex. destruct H as (Hn & Ho & Hlt).
    unfold consistent, all_oids in *.
    cbn [users_collection encodings_collection next_oid] in *.
    rewrite !fmap_app. cbn [fmap list_fmap user_oid user_doc_name].
    destruct (fresh_oid_fits _ _ oid Ho Hlt) as [[H1 H2] _].
    split; [|split; assumption].
    apply NoDup_app. split; [exact Hn|]. split; [|apply NoDup_singleton].
    intros x Hx Hx'. apply list_elem_of_singleton in Hx'. subst x.
    apply list_elem_of_fmap in Hx as (u & Hu & Hin).
    apply not_true_iff_false in Ex. apply Ex.
    apply existsb_exists. exists u.
    split; [apply list_elem_of_In; exact Hin|].
    rewrite <- Hu. apply String.eqb_refl. }
  destruct fl as [|[e|] fl];
    cbn [tail snd faults users_collection encodings_collection next_oid srv]
      in *;
    try exact Hkeep;
    (destruct (existsb (fun u => String.eqb (user_doc_name u) name) users)
       eqn:Ex;
     cbn [snd]; [exact Hkeep | apply Hnew; reflexivity]).
Qed.

Lemma steady_add_user (name role : string) : steady (add_user name role).
Proof.
  unfold add_user. apply steady_try.
  - apply steady_bind; [apply steady_same; intros d; cbn; repeat split; lia|].
    intros t. apply steady_bind; [apply steady_insert_user|].
    intros oid. apply steady_same. intros d. cbn. repeat split; lia.
  - intros _. apply steady_bind; [apply steady_get_user_by_name|].
    intros u. apply steady_same. intros d. cbn. repeat split; lia.
Qed.

Lemma steady_save_face_encoding (user_name : string) (enc : encoding)
    (image_name : option string) :
  steady (save_face_encoding user_name enc image_name).
Proof.
  unfold save_face_encoding. apply steady_try.
  - apply steady_bind; [apply steady_get_user_by_name|]. intros user.
    apply steady_bind.
    { destruct user; [|apply steady_add_user].
      apply steady_same. intros d. cbn. repeat split; lia. }
    intros user_id.
    apply steady_bind; [apply steady_same; intros d; cbn; repeat split; lia|].
    intros t.
    intros [users encs oid fl w] H.
    cbv [bind fresh_oid driver_call modify ret set_encodings].
    cbn [faults users_collection encodings_collection next_oid srv].
    pose proof (consistent_bump users encs oid fl (tail fl) w w H) as Hkeep.
    destruct fl as [|[e|] fl]; cbn [tail snd] in *; try exact Hkeep.
    all: destruct H as (Hn & Ho & Hlt); unfold consistent, all_oids in *;
      cbn [users_collection encodings_collection next_oid] in *;
      rewrite !fmap_app; cbn [fmap list_fmap face_oid];
      destruct (fresh_oid_fits _ _ oid Ho Hlt) as [_ [H1 H2]];
      split; [exact Hn | split; assumption].
  - intros e. apply steady_same. intros d. cbn. repeat split; lia.
Qed.

Lemma List_filter_sublist {A} (f : A -> bool) (l : list A) :
  List.filter f l `sublist_of` l.
Proof.
  induction l as [|x l IH]; cbn; [constructor|].
  destruct (f x); [apply sublist_skip | apply sublist_cons]; exact IH.
Qed.

Lemma steady_delete_user_encodings (user_name : string) :
  steady (delete_user_encodings user_name).
Proof.
  intros [users encs oid fl w] (Hn & Ho & Hlt).
  cbv [delete_user_encodings try_except bind driver_call gets modify ret
       set_encodings].
  cbn [faults users_collection encodings_collection next_oid srv].
  assert (Hsub : forall sub : list face_doc, sub `sublist_of` encs ->
    consistent (Database users sub oid (tail fl) w)).
  { intros sub Hs. unfold consistent, all_oids in *.
    cbn [users_collection encodings_collection next_oid] in *.
    assert (Hs' : (user_oid <$> users) ++ (face_oid <$> sub)
                  `sublist_of` (user_oid <$> users) ++ (face_oid <$> encs)).
    { apply sublist_app; [reflexivity|]. apply fmap_sublist. exact Hs. }
    split; [exact Hn|]. split.
    - eapply sublist_NoDup; eassumption.
    - rewrite Forall_forall in Hlt |- *. intros x Hx. apply Hlt.
      eapply elem_of_sublist; eassumption. }
  destruct fl as [|[e|] fl]; cbn [tail snd].
  - apply Hsub. apply List_filter_sublist.
  - apply (Hsub encs). reflexivity.
  - apply Hsub. apply List_filter_sublist.
Qed.

Lemma NoDup_fmap_same {A B} (f : A -> B) (l : list A) (x y : A) :
  NoDup (f <$> l) -> x ∈ l -> y ∈ l -> f x = f y -> x = y.
Proof.
  induction l as [|a l IH]; intros Hnd Hx Hy Hf; [inversion Hx|].
  cbn in Hnd. apply NoDup_cons in Hnd as [Hna Hnd].
  apply elem_of_cons in Hx as [->|Hx], Hy as [->|Hy]; auto.
  - exfalso. apply Hna. rewrite Hf. apply list_elem_of_fmap. eauto.
  - exfalso. apply Hna. rewrite <- Hf. apply list_elem_of_fmap. eauto.
Qed.

(** X16. Every method of [MongoDBConfig] that writes keeps the database
    consistent, whatever the driver calls do: no two users share a name
    or an identifier, and no two documents share an identifier. *)
Theorem mongo_writers_keep_consistency (d : database) :
  consistent d ->
  (forall name role, consistent (snd (add_user name role d))) /\
  (forall user_name enc image_name,
     consistent (snd (save_face_encoding user_name enc image_name d))) /\
  (forall user_name, consistent (snd (delete_user_encodings user_name d))) /\
  (forall u1 u2, u1 ∈ users_collection d -> u2 ∈ users_collection d ->
     user_doc_name u1 = user_doc_name u2 \/ user_oid u1 = user_oid u2 ->
     u1 = u2) /\
  (forall f1 f2, f1 ∈ encodings_collection d -> f2 ∈ encodings_collection d ->
     face_oid f1 = face_oid f2 -> f1 = f2).
Proof.
  intros H. split; [|split; [|split; [|split]]].
  - intros. apply steady_add_user. exact H.
  - intros. apply steady_save_face_encoding. exact H.
  - intros. apply steady_delete_user_encodings. exact H.
  - destruct H as (Hn & Ho & _). unfold all_oids in Ho.
    apply NoDup_app in Ho as (Hu & _ & _).
    intros u1 u2 H1 H2 [E|E].
    + exact (NoDup_fmap_same user_doc_name _ _ _ Hn H1 H2 E).
    + exact (NoDup_fmap_same user_oid _ _ _ Hu H1 H2 E).
  - destruct H as (_ & Ho & _). unfold all_oids in Ho.
    apply NoDup_app in Ho as (_ & _ & Hf).
    intros f1 f2 H1 H2 E. exact (NoDup_fmap_same face_oid _ _ _ Hf H1 H2 E).
Qed.

End Consistency.

Section Encodings.
Context `{VP : VisionProvider}.

Lemma for_doc_in_cursor_docs (docs : list face_doc) :
  forall encodings names,
    for_doc_in (List.map cursor_doc docs) encodings names
    = (None, (encodings ++ List.map face_encoding docs,
              names ++ List.map face_user_name docs)).
Proof.
  induction docs as [|f docs IH]; intros encs names; cbn.
  - rewrite !app_nil_r. reflexivity.
  - rewrite IH, <- !app_assoc. reflexivity.
Qed.

Lemma load_on_view (db : MongoDBConfig) (d : database) :
  faults d = [] ->
  fst (on_view (get_all_face_encodings db) d)
  = Return (List.map face_encoding (encodings_collection d),
            List.map face_user_name (encodings_collection d)).
Proof.
  intros Hf. unfold on_view.
  destruct (get_all_face_encodings_run db (view d)) as (w' & Hrun & _).
  rewrite Hrun. cbn [fst]. f_equal.
  unfold view. rewrite Hf. cbn [encodings_cursor].
  unfold fetched. rewrite for_doc_in_cursor_docs. reflexivity.
Qed.

Lemma get_user_by_name_run (name : string) (d : database) :
  let d' := Database (users_collection d) (encodings_collection d)
                     (next_oid d) (tail (faults d)) (srv d) in
  get_user_by_name name d
  = match faults d with
    | Some e :: _ => (Raise (PyMongoError e), d')
    | _ => (Return (List.find (fun u => String.eqb (user_doc_name u) name)
                              (users_collection d)), d')
    end.
Proof.
  cbv [get_user_by_name bind driver_call gets].
  destruct (faults d) as [|[e|] fl]; reflexivity.
Qed.

Lemma add_user_effect (name role : string) (d : database) :
  adds_at_most_user name d (snd (add_user name role d)).
Proof.
  destruct d as [users encs oid fl w].
  cbv [add_user try_except bind gets insert_user fresh_oid driver_call
       get_user_by_name raise ret modify set_users].
  cbn [faults users_collection encodings_collection next_oid srv].
  unfold adds_at_most_user.
  destruct fl as [|[e|] fl];
    cbn [tail faults users_collection encodings_collection next_oid srv snd].
  - destruct (existsb _ users); cbn; eauto 6.
  - destruct fl as [|[e'|] fl]; cbn; eauto 6.
  - destruct (existsb _ users); cbn; [|eauto 6].
    destruct fl as [|[e'|] fl]; cbn; eauto 6.
Qed.

(** X17. A saved encoding is what the next load returns last: on a database
    that answers, [save_face_encoding] appends one document, under an
    owner that exists afterwards, and [get_all_face_encodings] then
    returns what it returned before followed by the new pair. *)
Theorem save_then_load (d : database) (owner : string) (enc : encoding)
    (image_name : option string) (db : MongoDBConfig) :
  faults d = [] ->
  exists (doc : face_doc) (usr : user_doc) (d1 : database)
         (encodings : list encoding) (names : list string),
    save_face_encoding owner enc image_name d
      = (Return (Some (oid_str (face_oid doc))), d1) /\
    faults d1 = [] /\
    encodings_collection d1 = encodings_collection d ++ [doc] /\
    face_user_name doc = owner /\ face_encoding doc = enc /\
    face_image_name doc = image_name /\
    List.find (fun u => String.eqb (user_doc_name u) owner) (users_collection d1)
      = Some usr /\
    face_user_id doc = Some (oid_str (user_oid usr)) /\
    (users_collection d1 = users_collection d \/
     users_collection d1 = users_collection d ++ [usr]) /\
    srv d1 = srv d /\
    fst (on_view (get_all_face_encodings db) d) = Return (encodings, names) /\
    fst (on_view (get_all_face_encodings db) d1)
      = Return (encodings ++ [enc], names ++ [owner]).
Proof.
  intros Hf. destruct d as [users encs oid fl w]. cbn [faults] in Hf. subst fl.
  assert (Hload : forall d1 doc,
    faults d1 = [] -> encodings_collection d1 = encs ++ [doc] ->
    face_user_name doc = owner -> face_encoding doc = enc ->
    fst (on_view (get_all_face_encodings db) d1)
    = Return (List.map face_encoding encs ++ [enc],
              List.map face_user_name encs ++ [owner])).
  { intros d1 doc H1 H2 H3 H4. rewrite load_on_view by exact H1.
    rewrite H2, !map_app. cbn. rewrite H3, H4. reflexivity. }
  destruct (List.find (fun u => String.eqb (user_doc_name u) owner) users)
    as [u0|] eqn:Efind.
  - eexists (FaceDoc oid (Some (oid_str (user_oid u0))) owner enc image_name
                     (bson_date (utcnow w))), u0,
            (Database users _ (N.succ oid) [] w), _, _.
    split.
    { cbv [save_face_encoding try_except bind gets fresh_oid driver_call
           get_user_by_name ret modify set_encodings].
      cbn [faults tail users_collection encodings_collection next_oid srv].
      rewrite Efind. reflexivity. }
    cbn [faults users_collection encodings_collection face_user_name
         face_encoding face_image_name face_user_id].
    repeat (split; [first [reflexivity | exact Efind]|]).
    split; [cbn; auto|]. split; [reflexivity|].
    split; [apply load_on_view; reflexivity|].
    eapply Hload; reflexivity.
  - set (u := UserDoc oid owner "user" (bson_date (utcnow w)) true).
    assert (Hfind1 : List.find (fun x => String.eqb (user_doc_name x) owner)
                               (users ++ [u]) = Some u).
    { clear Hload. induction users as [|x l IH]; cbn in *.
      - rewrite String.eqb_refl. reflexivity.
      - destruct (String.eqb (user_doc_name x) owner); [discriminate | auto]. }
    assert (Hex : existsb (fun u => String.eqb (user_doc_name u) owner) users
                  = false).
    { clear - Efind. induction users as [|x l IH]; cbn in *; [reflexivity|].
      destruct (String.eqb (user_doc_name x) owner); [discriminate | auto]. }
    eexists (FaceDoc (N.succ oid) (Some (oid_str oid)) owner enc image_name
                     (bson_date (utcnow w))), u,
            (Database (users ++ [u]) _ (N.succ (N.succ oid)) [] w), _, _.
    split.
    { cbv [save_face_encoding try_except bind gets fresh_oid driver_call
           get_user_by_name ret modify set_encodings add_user insert_user
           raise set_users].
      cbn [faults tail users_collection encodings_collection next_oid srv].
      rewrite Efind.
      cbn [faults tail users_collection encodings_collection next_oid srv].
      rewrite Hex. reflexivity. }
    cbn [faults users_collection encodings_collection face_user_name
         face_encoding face_image_name face_user_id user_oid].
    repeat (split; [first [reflexivity | exact Hfind1]|]).
    split; [cbn; auto|]. split; [reflexivity|].
    split; [apply load_on_view; reflexivity|].
    eapply Hload; reflexivity.
Qed.

(** X18. [save_face_encoding] returns in every case.  With an identifier it
    has appended exactly one document, for the owner and the encoding
    given, and printed nothing; with [None] the stored encodings are as
    before and one line is printed.  Either way the owner may have been
    created, and nothing else is written. *)
Theorem save_face_encoding_never_raises
    (d : database) (owner : string) (enc : encoding)
    (image_name : option string) :
  exists (r : option string) (d' : database),
    save_face_encoding owner enc image_name d = (Return r, d') /\
    access_logs_collection (srv d') = access_logs_collection (srv d) /\
    (users_collection d' = users_collection d \/
     exists usr, users_collection d' = users_collection d ++ [usr] /\
                 user_doc_name usr = owner) /\
    match r with
    | Some id =>
        exists doc, encodings_collection d' = encodings_collection d ++ [doc] /\
                    id = oid_str (face_oid doc) /\
                    face_user_name doc = owner /\ face_encoding doc = enc /\
                    face_image_name doc = image_name /\
                    stdout (srv d') = stdout (srv d)
    | None =>
        encodings_collection d' = encodings_collection d /\
        exists line, stdout (srv d') = stdout (srv d) ++ [line]
    end.
Proof.
  set (good := fun (r : outcome (option string)) (d2 : database) =>
      srv d2 = srv d /\
      (users_collection d2 = users_collection d \/
       exists usr, users_collection d2 = users_collection d ++ [usr] /\
                   user_doc_name usr = owner) /\
      match r with
      | Return (Some id) =>
          exists doc, encodings_collection d2 = encodings_collection d ++ [doc] /\
                 id = oid_str (face_oid doc) /\
                 face_user_name doc = owner /\ face_encoding doc = enc /\
                 face_image_name doc = image_name
      | Return None => False
      | Raise _ => encodings_collection d2 = encodings_collection d
      end).
  assert (Hfinal : forall (uid : option string) (d1 : database),
    adds_at_most_user owner d d1 ->
    exists r d2,
      bind (gets (fun d => utcnow (srv d)))
        (fun t => bind fresh_oid (fun oid => bind driver_call (fun _ =>
           bind (modify (set_encodings
                   (fun l => l ++ [FaceDoc oid uid owner enc image_name
                                            (bson_date t)])))
                (fun _ => ret (Some (oid_str oid)))))) d1 = (r, d2) /\
      good r d2).
  { intros uid [users1 encs1 oid1 fl1 w1] (He & Hs & Hu).
    cbn [users_collection encodings_collection srv] in He, Hs, Hu.
    cbv [bind gets fresh_oid driver_call modify ret set_encodings].
    cbn [faults users_collection encodings_collection next_oid srv].
    unfold good.
    destruct fl1 as [|[e|] fl1]; eexists _, _; (split; [reflexivity|]);
      cbn [users_collection encodings_collection srv];
      (split; [exact Hs|]); (split; [exact Hu|]);
      try exact He;
      (eexists; rewrite He; repeat split; reflexivity). }
  assert (Hb : exists r d2,
      bind (get_user_by_name owner)
        (fun user =>
           bind match user with
                | Some u => ret (Some (oid_str (user_oid u)))
                | None => add_user owner "user"
                end
             (fun user_id =>
                bind (gets (fun d => utcnow (srv d)))
                  (fun t => bind fresh_oid (fun oid => bind driver_call (fun _ =>
                     bind (modify (set_encodings
                             (fun l => l ++ [FaceDoc oid user_id owner enc
                                                     image_name
                                                     (bson_date t)])))
                          (fun _ => ret (Some (oid_str oid)))))))) d
      = (r, d2) /\ good r d2).
  { unfold bind at 1. rewrite get_user_by_name_run.
    set (d0 := Database (users_collection d) (encodings_collection d)
                        (next_oid d) (tail (faults d)) (srv d)).
    assert (H0 : adds_at_most_user owner d d0) by (repeat split; auto).
    assert (Hgo : forall user : option user_doc,
      exists r d2,
        bind match user with
             | Some u => ret (Some (oid_str (user_oid u)))
             | None => add_user owner "user"
             end
          (fun user_id =>
             bind (gets (fun d => utcnow (srv d)))
               (fun t => bind fresh_oid (fun oid => bind driver_call (fun _ =>
                  bind (modify (set_encodings
                          (fun l => l ++ [FaceDoc oid user_id owner enc
                                                  image_name (bson_date t)])))
                       (fun _ => ret (Some (oid_str oid))))))) d0
        = (r, d2) /\ good r d2).
    { intros [u|]; unfold bind at 1.
      - unfold ret at 1. apply Hfinal. exact H0.
      - pose proof (add_user_effect owner "user" d0) as Hadd.
        destruct (add_user owner "user" d0) as [[uid|e] d1]; cbn [snd] in Hadd.
        + apply Hfinal. destruct H0 as (E0 & S0 & U0), Hadd as (E1 & S1 & U1).
          cbn [users_collection] in U1.
          split; [congruence|]. split; [congruence|].
          cbn [d0 users_collection] in U1. exact U1.
        + eexists _, _. split; [reflexivity|]. unfold good.
          destruct Hadd as (E1 & S1 & U1). cbn [d0 users_collection
            encodings_collection srv] in E1, S1, U1. auto. }
    destruct (faults d) as [|[e|] fl].
    - apply Hgo.
    - eexists _, _. split; [reflexivity|]. unfold good. cbn. auto.
    - apply Hgo. }
  destruct Hb as (r & d2 & Hrun & Hs & Hu & Hr).
  unfold save_face_encoding, try_except. rewrite Hrun.
  destruct r as [[id|]|e].
  - exists (Some id), d2. split; [reflexivity|]. rewrite Hs.
    split; [reflexivity|]. split; [exact Hu|].
    destruct Hr as (doc & H1 & H2 & H3 & H4 & H5). exists doc. auto 10.
  - contradiction.
  - eexists None, _. split; [reflexivity|].
    cbn [srv set_srv access_logs_collection set_stdout stdout
         users_collection encodings_collection].
    rewrite Hs. split; [reflexivity|]. split; [exact Hu|].
    split; [exact Hr|]. eexists. reflexivity.
Qed.

(** X19. [delete_user_encodings] returns in every case: on a database that
    answers it removes the documents of the owner and no other, keeps the
    order of the rest and returns how many it removed; when the call
    fails it returns 0 and removes nothing.  The users are never
    touched. *)
Theorem delete_user_encodings_removes_owner (d : database) (owner : string) :
  exists (n : nat) (d' : database),
    delete_user_encodings owner d = (Return n, d') /\
    users_collection d' = users_collection d /\
    srv d' = srv d /\
    ((exists e fl, faults d = Some e :: fl) ->
     n = 0%nat /\ encodings_collection d' = encodings_collection d) /\
    ((forall e fl, faults d <> Some e :: fl) ->
     encodings_collection d'
       = List.filter (fun f => negb (String.eqb (face_user_name f) owner))
                     (encodings_collection d) /\
     (forall f, f ∈ encodings_collection d' <->
                f ∈ encodings_collection d /\ face_user_name f <> owner) /\
     n = List.length (List.filter
                        (fun f => String.eqb (face_user_name f) owner)
                        (encodings_collection d)) /\
     List.length (encodings_collection d)
       = (n + List.length (encodings_collection d'))%nat).
Proof.
  destruct d as [users encs oid fl w].
  cbv [delete_user_encodings try_except bind driver_call gets modify ret
       set_encodings].
  cbn [faults users_collection encodings_collection next_oid srv].
  assert (Hok :
    (forall f, f ∈ List.filter
                 (fun f => negb (String.eqb (face_user_name f) owner)) encs <->
               f ∈ encs /\ face_user_name f <> owner) /\
    List.length encs
    = (List.length (List.filter
                      (fun f => String.eqb (face_user_name f) owner) encs)
       + List.length (List.filter
                        (fun f => negb (String.eqb (face_user_name f) owner))
                        encs))%nat).
  { split.
    - intros f. rewrite !list_elem_of_In, filter_In, negb_true_iff.
      rewrite <- not_true_iff_false, String.eqb_eq. reflexivity.
    - induction encs as [|f l IH]; [reflexivity|]. cbn.
      destruct (String.eqb (face_user_name f) owner); cbn; lia. }
  destruct Hok as [H1 H2].
  destruct fl as [|[e|] fl]; eexists _, _; (split; [reflexivity|]);
    cbn [users_collection encodings_collection srv];
    (split; [reflexivity|]); (split; [reflexivity|]); split.
  - intros (e' & fl' & [=]).
  - intros _. auto.
  - intros _. split; reflexivity.
  - intros Hno. exfalso. eapply Hno. reflexivity.
  - intros (e' & fl' & [=]).
  - intros _. auto.
Qed.

End Encodings.

Section AccessLogs.
Context `{VP : VisionProvider}.

Lemma lex_leb_total (a b : list N) : lex_leb a b = true \/ lex_leb b a = true.
Proof.
  revert b. induction a as [|x a IH]; intros [|y b]; cbn; auto.
  destruct (N.ltb_spec x y), (N.ltb_spec y x); auto; lia.
Qed.

Lemma lex_leb_trans (a b c : list N) :
  lex_leb a b = true -> lex_leb b c = true -> lex_leb a c = true.
Proof.
  revert b c. induction a as [|x a IH]; intros [|y b] [|z c]; cbn; auto;
    try discriminate.
  destruct (N.ltb_spec x y), (N.ltb_spec y x), (N.ltb_spec y z),
    (N.ltb_spec z y), (N.ltb_spec x z), (N.ltb_spec z x);
    try discriminate; try lia; auto.
  apply IH.
Qed.

Lemma newer_first_total : Total newer_first.
Proof. intros a b. unfold newer_first. apply lex_leb_total. Qed.

Lemma newer_first_trans : Transitive newer_first.
Proof.
  intros a b c Hab Hbc. unfold newer_first in *.
  eapply lex_leb_trans; eassumption.
Qed.

(** The filter of the reader keeps the entries the query selects. *)
Lemma selected_spec (wanted : option string) (logs : list AccessLogEntry)
    (en : AccessLogEntry) :
  en ∈ match wanted with
       | None | Some "" => logs
       | Some name => List.filter (fun en => String.eqb (user_name en) name) logs
       end
  <-> en ∈ logs /\ selects wanted en.
Proof.
  unfold selects. destruct wanted as [[|c name]|].
  - split; [intros H; split; [exact H|]; intros n [= <-]; congruence
           | intros [H _]; exact H].
  - rewrite !list_elem_of_In, filter_In, String.eqb_eq. split.
    + intros [H1 H2]. split; [exact H1|]. intros n [= <-] _. exact H2.
    + intros [H1 H2]. split; [exact H1|]. apply H2; [reflexivity|discriminate].
  - split; [intros H; split; [exact H|]; intros n [=]
           | intros [H _]; exact H].
Qed.

(** Without a limit the reader returns every selected entry. *)
Lemma get_access_logs_unlimited (d : database) (wanted : option string) :
  (forall e fl, faults d <> Some e :: fl) ->
  exists l d',
    get_access_logs 0 wanted d = (Return l, d') /\
    forall en, en ∈ l <->
               en ∈ access_logs_collection (srv d) /\ selects wanted en.
Proof.
  intros Hok. destruct d as [users encs oid fl w]. cbn [faults srv] in *.
  eexists _, _. split.
  - cbv [get_access_logs bind driver_call gets ret].
    cbn [faults users_collection encodings_collection srv next_oid N.eqb].
    destruct fl as [|[e|] fl]; [reflexivity | | reflexivity].
    exfalso. eapply Hok. reflexivity.
  - intros en. rewrite merge_sort_Permutation. apply selected_spec.
Qed.

(** X20. The log reader raises when the driver call fails.  Otherwise it
    writes nothing and returns entries of the log, newest first at
    millisecond precision, all of the user asked for when one is named
    (an empty name selects everyone), at most [limit] of them when the
    limit is not 0, and the newest ones when some are left out. *)
Theorem get_access_logs_newest_first
    (d : database) (limit : N) (wanted : option string) :
  (forall e fl, faults d = Some e :: fl ->
     exists d', get_access_logs limit wanted d = (Raise (PyMongoError e), d') /\
                srv d' = srv d) /\
  ((forall e fl, faults d <> Some e :: fl) ->
   exists l d',
     get_access_logs limit wanted d = (Return l, d') /\
     srv d' = srv d /\
     users_collection d' = users_collection d /\
     encodings_collection d' = encodings_collection d /\
     StronglySorted newer_first l /\
     l ⊆+ access_logs_collection (srv d) /\
     Forall (selects wanted) l /\
     (limit <> 0%N -> (List.length l <= N.to_nat limit)%nat) /\
     (limit = 0%N ->
      forall en, en ∈ l <->
                 en ∈ access_logs_collection (srv d) /\ selects wanted en) /\
     (forall a b, a ∈ l -> b ∈ access_logs_collection (srv d) ->
                  selects wanted b -> b ∉ l -> newer_first a b)).
Proof.
  destruct d as [users encs oid fl w].
  cbn [faults users_collection encodings_collection srv].
  split.
  - intros e fl' ->. eexists. split; reflexivity.
  - intros Hok.
    set (found := match wanted with
                  | None | Some "" => access_logs_collection w
                  | Some name =>
                      List.filter (fun en => String.eqb (user_name en) name)
                                  (access_logs_collection w)
                  end).
    assert (Hfound : forall en, en ∈ found <->
                       en ∈ access_logs_collection w /\ selects wanted en).
    { intros en. apply selected_spec. }
    assert (Hsub : found ⊆+ access_logs_collection w).
    { apply sublist_submseteq. unfold found.
      destruct wanted as [[|c name]|]; try reflexivity.
      clear. induction (access_logs_collection w) as [|x l IH]; cbn;
        [constructor|].
      destruct (String.eqb (user_name x) (String c name));
        [apply sublist_skip | apply sublist_cons]; exact IH. }
    set (sorted := merge_sort newer_first found).
    assert (Hperm : sorted ≡ₚ found) by apply merge_sort_Permutation.
    assert (Hsorted : StronglySorted newer_first sorted).
    { apply (@StronglySorted_merge_sort _ newer_first _
               newer_first_trans newer_first_total). }
    exists (if (limit =? 0)%N then sorted else firstn (N.to_nat limit) sorted).
    eexists. split.
    { cbv [get_access_logs bind driver_call gets ret].
      cbn [faults users_collection encodings_collection srv next_oid].
      destruct fl as [|[e|] fl]; [reflexivity | | reflexivity].
      exfalso. eapply Hok. reflexivity. }
    cbn [srv users_collection encodings_collection].
    split; [reflexivity|]. split; [reflexivity|]. split; [reflexivity|].
    destruct (N.eqb_spec limit 0) as [Hz|Hnz].
    + split; [exact Hsorted|].
      split; [rewrite Hperm; exact Hsub|].
      split.
      { rewrite Forall_forall. intros en Hen. apply Hfound.
        rewrite <- Hperm. exact Hen. }
      split; [intros; contradiction|].
      split.
      { intros _ en. rewrite Hperm. apply Hfound. }
      intros a b Ha Hb Hsel Hnot. exfalso. apply Hnot.
      rewrite Hperm. apply Hfound. auto.
    + pose proof (take_drop (N.to_nat limit) sorted) as Htd.
      assert (Hs2 : StronglySorted newer_first
                      (take (N.to_nat limit) sorted ++ drop (N.to_nat limit) sorted))
        by (rewrite Htd; exact Hsorted).
      split; [eapply StronglySorted_app_1_l; exact Hs2|].
      split.
      { etransitivity; [apply submseteq_take|]. rewrite Hperm. exact Hsub. }
      split.
      { rewrite Forall_forall. intros en Hen. apply Hfound.
        rewrite <- Hperm. eapply elem_of_submseteq; [exact Hen|].
        apply submseteq_take. }
      split; [intros _; rewrite length_take; lia|].
      split; [intros; contradiction|].
      intros a b Ha Hb Hsel Hnot.
      eapply (StronglySorted_app_1_elem_of newer_first); [exact Hs2 | exact Ha |].
      assert (Hbs : b ∈ sorted) by (rewrite Hperm; apply Hfound; auto).
      rewrite <- Htd in Hbs. apply elem_of_app in Hbs as [Hbs|Hbs];
        [contradiction | exact Hbs].
Qed.

(** X21. An entry that [log_access] stored is found again by the reader
    when it asks for the user of the entry, or for everyone: the fields
    are those of the call, the timestamp is the time of the call cut to
    milliseconds. *)
Theorem logged_entry_is_read_back
    (d : database) (db : MongoDBConfig) (u st ty : string)
    (c : option string) (wanted : option string) :
  faults d = [] ->
  wanted = None \/ wanted = Some "" \/ wanted = Some u ->
  exists d1 l d2,
    on_view (log_access db u st ty c) d = (Return tt, d1) /\
    access_logs_collection (srv d1)
      = access_logs_collection (srv d)
        ++ [LogEntry u st ty c (bson_date (utcnow (srv d)))] /\
    get_access_logs 0 wanted d1 = (Return l, d2) /\
    LogEntry u st ty c (bson_date (utcnow (srv d))) ∈ l /\
    (forall en, en ∈ access_logs_collection (srv d) -> selects wanted en ->
                en ∈ l).
Proof.
  intros Hf Hw. destruct d as [users encs oid fl w]. cbn [faults] in Hf.
  subst fl. cbn [srv].
  set (entry := LogEntry u st ty c (bson_date (utcnow w))).
  set (d1 := Database users encs oid []
               (World (environ w) (connect_fault w) (index_fault w)
                      (encodings_cursor w) (access_logs_collection w ++ [entry])
                      (insert_fault w) (now w) (utcnow w) (stdout w))).
  assert (H1 : on_view (log_access db u st ty c)
                 (Database users encs oid [] w) = (Return tt, d1)).
  { unfold on_view. rewrite log_access_run. reflexivity. }
  destruct (get_access_logs_unlimited d1 wanted) as (l & d2 & Hrun & Hall).
  { intros e fl. discriminate. }
  exists d1, l, d2. split; [exact H1|]. split; [reflexivity|].
  split; [exact Hrun|].
  assert (Hsel : selects wanted entry).
  { intros n Hn Hne. destruct Hw as [-> | [-> | ->]]; [discriminate | |].
    - injection Hn as <-. congruence.
    - injection Hn as <-. reflexivity. }
  split.
  - apply Hall. split; [|exact Hsel].
    cbn. apply elem_of_app. right. apply list_elem_of_singleton. reflexivity.
  - intros en Hen Hs. apply Hall. split; [|exact Hs].
    cbn. apply elem_of_app. left. exact Hen.
Qed.

End AccessLogs.

(** * Scenarios on the concrete provider *)

Import Demo.

(** Digests of known inputs, as [hashlib] gives them. *)
Example sha256_of_empty :
  Hashlib.sha256_hexdigest (Hashlib.encode "")
    = "e3b0c44298fc1c149afbf4c8996fb92427ae41e4649b934ca495991b7852b855".
Proof. vm_compute. reflexivity. Qed.

Example sha256_of_two_blocks :
  Hashlib.sha256_hexdigest (Hashlib.encode
    "The quick brown fox jumps over the lazy dog, and then the quick brown fox jumps again.")
    = "a6b7baf9a277b0100f6fb8969483e860cabb1a577546a5ef05e1e2aafd70cf21".
Proof. vm_compute. reflexivity. Qed.

Example md5_of_empty :
  Hashlib.md5_hexdigest (Hashlib.encode "") = "d41d8cd98f00b204e9800998ecf8427e".
Proof. vm_compute. reflexivity. Qed.

Example md5_of_two_blocks :
  Hashlib.md5_hexdigest (Hashlib.encode
    "The quick brown fox jumps over the lazy dog, and then the quick brown fox jumps again.")
    = "bbee31dd4d80ac8fa15e70a3e5cb3999".
Proof. vm_compute. reflexivity. Qed.

Example str_of_datetime :
  datetime_str epoch = "2026-11-04 09:30:15.250000" /\
  datetime_str (Datetime 2026 11 4 9 30 15 0) = "2026-11-04 09:30:15".
Proof. split; vm_compute; reflexivity. Qed.

(** Spec scenarios 1 and 2: the secret ["ABC123"] is accepted against
    itself and against its SHA-256 digest. *)
Example scenario_plain_secret : validate_qr plain_secret (Some "ABC123") = true.
Proof. reflexivity. Qed.

Example scenario_hashed_secret : validate_qr hashed_secret (Some "ABC123") = true.
Proof. vm_compute. reflexivity. Qed.

(** Spec scenario 3: one embedding of alice at distance 0.3. *)
Example scenario_alice_70 :
  recognize_face (Some face_03) (running None)
    = (Return (Some "alice", "70.0%"), running None).
Proof. vm_compute. reflexivity. Qed.

(** A confidence of exactly 0.5 is refused. *)
Example scenario_boundary :
  recognize_face (Some face_05) (running None)
    = (Return (None, "Face not recognized"), running None).
Proof. vm_compute. reflexivity. Qed.

(** A distance just under one half: [1 - d] is rounded to 0.5, and the
    face is refused. *)
Example scenario_just_under_half :
  (0x1.fffffffffffffp-2 <? 0.5)%float = true /\
  (1 - 0x1.fffffffffffffp-2)%float = 0.5%float /\
  fst (recognize_face (VP := Album.provider)
         (Some (Album.Picture [] [0x1.fffffffffffffp-2]%float)) Album.enrolled)
    = Return (None, "Face not recognized").
Proof. repeat split; vm_compute; reflexivity. Qed.

(** The percentage printed is that of the float64 product: at distance
    0.0005 it is 99.950000000000003, printed as 100.0. *)
Example scenario_percentage_of_the_product :
  fst (recognize_face (VP := Album.provider)
         (Some (Album.Picture [] [0.0005]%float)) Album.enrolled)
    = Return (Some "alice", "100.0%").
Proof. vm_compute. reflexivity. Qed.

(** A distance that is not a number is refused. *)
Example scenario_nan_distance :
  fst (recognize_face (VP := Album.provider)
         (Some (Album.Picture [] [nan]%float)) Album.enrolled)
    = Return (None, "Face not recognized").
Proof. vm_compute. reflexivity. Qed.

(** The entry stored for a decision taken at 09:30:15.250123 carries
    09:30:15.250000: a BSON date keeps milliseconds. *)
Example scenario_stored_timestamp :
  access_logs_collection
    (snd (log_access (MkMongoDBConfig "mongodb://db") "QR" "opened" "qr" None
            (World ∅ None None [] [] None epoch
                   (Datetime 2026 11 4 9 30 15 250123) [])))
    = [LogEntry "QR" "opened" "qr" None (Datetime 2026 11 4 9 30 15 250000)].
Proof. vm_compute. reflexivity. Qed.

(** A granted face request returns its confidence to the caller and logs
    none. *)
Example scenario_granted_face_logs_no_confidence :
  let r := recognize_face_api (img "F3") (running None) in
  (exists resp, fst r = Return resp /\
     body resp !! "confidence" = Some (JStr "70.0%") /\
     body resp !! "access" = Some (JStr "granted")) /\
  access_logs_collection (ext (snd r))
    = [LogEntry "alice" "opened" "face" None epoch].
Proof.
  vm_compute. split; [|reflexivity].
  eexists. split; [reflexivity|]. split; reflexivity.
Qed.

(** C1 at a concrete input: the theorem, applied to the gallery of alice
    and a face at distance 0.3, yields spec scenario 3. *)
Lemma recognize_face_nearest_neighbour_witness :
  recognize_face (Some face_03) (running None)
    = (Return (Some "alice", "70.0%"), running None).
Proof.
  destruct (recognize_face_nearest_neighbour (running None) face_03)
    as (probe & best & d & name & Hp & Hd & _ & _ & Hname & _ & Hacc & _).
  - reflexivity.
  - split; [reflexivity | intros _; split; discriminate].
  - discriminate.
  - injection Hp as <-.
    destruct best as [|best]; [|discriminate].
    injection Hd as <-. injection Hname as <-.
    destruct Hacc as [Hrun _]; [reflexivity|].
    eapply eq_trans; [exact Hrun | reflexivity].
Defined.

(** C2 as stated fails: with the SHA-256 digest of the empty string as
    the configured value, the empty payload is authorized by the stated
    condition and refused by [validate_qr]. *)
Lemma validate_qr_empty_payload_counterexample :
  QR_HASH digest_of_empty <> "" /\
  qr_authorized (QR_HASH digest_of_empty) (Some "") /\
  validate_qr digest_of_empty (Some "") = false /\
  ~ (validate_qr digest_of_empty (Some "") = true
     <-> qr_authorized (QR_HASH digest_of_empty) (Some "")).
Proof.
  assert (H : qr_authorized (QR_HASH digest_of_empty) (Some "")).
  { right. vm_compute. reflexivity. }
  split; [discriminate|]. split; [exact H|]. split; [reflexivity|].
  intros [_ Hback]. specialize (Hback H). discriminate.
Defined.

(** C2 at a concrete input: the secret is accepted through its digest. *)
Lemma validate_qr_accepts_iff_witness :
  validate_qr hashed_secret (Some "ABC123") = true.
Proof.
  apply (validate_qr_accepts_iff hashed_secret (Some "ABC123")).
  - discriminate.
  - right. vm_compute. reflexivity.
Defined.

(** C3 as stated fails: with a store that refuses the write, a QR request
    is answered with a denial and the access log gains no entry. *)
Lemma failed_write_leaves_no_entry_counterexample :
  let s := running (Some "server selection timeout") in
  let r := verify_qr (img "Qnope") s in
  fst r = Return (Response {[ "valid" := JBool false ]} 200) /\
  ~ exists entry,
      access_logs_collection (ext (snd r))
        = access_logs_collection (ext s) ++ [entry].
Proof.
  split; [vm_compute; reflexivity|].
  intros [entry H]. vm_compute in H. discriminate.
Defined.

(** C3 at a concrete input: a frame without a face, with a healthy
    store, leaves exactly the entry [("Unknown", "denied", "face")]. *)
Lemma decision_calls_log_access_once_witness :
  access_logs_collection
    (ext (snd (recognize_face_api (img "X") (running None))))
    = [LogEntry "Unknown" "denied" "face" None epoch].
Proof.
  destruct (decision_calls_log_access_once RecognizeFace (running None)
              (img "X") "X" [88] [88])
    as (resp & entry & s' & Hrun & _ & _ & Hty & Hconf & Htime & _ & _
        & Hnoface & Hok & _).
  - reflexivity.
  - reflexivity.
  - reflexivity.
  - split; [reflexivity|]. split; [reflexivity | intros _; split; discriminate].
  - cbn [route] in Hrun. rewrite Hrun. cbn [snd].
    destruct (Hok eq_refl) as [-> _].
    destruct (Hnoface eq_refl eq_refl) as [Hu Hs].
    destruct entry as [u st ty c t].
    cbn in Hty, Hconf, Htime, Hu, Hs. subst. reflexivity.
Defined.

(** C4 as stated fails: without [MONGO_URI] the import succeeds and the
    application answers requests. *)
Lemma missing_mongo_uri_still_serves_counterexample :
  environ no_mongo_uri !! "MONGO_URI" = None /\
  (exists g w',
     cloud_server int no_mongo_uri = (Return g, w') /\
     mongo_db g = None /\
     fst (recognize_face_api (img "F3") (State g w'))
       = Return (Response {[ "error" := JStr "No face encodings available" ]}
                          503)) /\
  ~ exists e w', cloud_server int no_mongo_uri = (Raise e, w').
Proof.
  split; [reflexivity|]. split.
  - eexists _, _. split; [vm_compute; reflexivity|].
    split; [reflexivity | vm_compute; reflexivity].
  - intros (e & w' & H). vm_compute in H. discriminate.
Defined.

(** C4 at a concrete input: the same environment, through the theorem. *)
Lemma startup_configuration_errors_witness :
  exists g w',
    cloud_server int no_mongo_uri = (Return g, w') /\
    QR_HASH g = "ABC123" /\ mongo_db g = None /\ encodings_loaded g = false.
Proof.
  destruct (proj2 (startup_configuration_errors int no_mongo_uri)
                  "ABC123" 5000%Z)
    as (g & w' & Hrun & Hqr & _ & Hmis).
  - reflexivity.
  - discriminate.
  - reflexivity.
  - destruct Hmis as (Hdb & Hloaded & _); [left; reflexivity|].
    exists g, w'. auto.
Defined.

(** C5 as stated fails: two successful calls in a row that read the
    same clock value answer with the same session identifier. *)
Lemma same_clock_same_session_id_counterexample :
  let s0 := running None in
  let r1 := verify_qr (img "QABC123") s0 in
  let r2 := verify_qr (img "QABC123") (snd r1) in
  now (ext (snd r1)) = now (ext s0) /\
  (exists resp1 resp2,
     fst r1 = Return resp1 /\ fst r2 = Return resp2 /\
     body resp1 !! "valid" = Some (JBool true) /\
     body resp2 !! "valid" = Some (JBool true) /\
     body resp1 !! "session_id"
       = Some (JStr "505d7c9e8d1e1184ab2129426c615f2c") /\
     body resp2 !! "session_id" = body resp1 !! "session_id").
Proof.
  split; [vm_compute; reflexivity|].
  eexists _, _. vm_compute. repeat split; reflexivity.
Defined.

(** C5 at a concrete input: a successful validation, through the
    theorem. *)
Lemma verify_qr_session_id_witness :
  exists s',
    verify_qr (img "QABC123") (running None) =
      (Return (Response {[ "valid" := JBool true;
                           "session_id" := JStr (session_id_at epoch) ]} 200),
       s') /\
    String.length (session_id_at epoch) = 32%nat.
Proof.
  destruct (proj1 (proj2 (verify_qr_session_id (running None) (img "QABC123")))
                  "QABC123" (Hashlib.encode "QABC123") (Hashlib.encode "QABC123"))
    as (s' & Hrun & Hlen & _).
  - reflexivity.
  - reflexivity.
  - reflexivity.
  - intros rest. discriminate.
  - discriminate.
  - reflexivity.
  - exists s'. split; [exact Hrun | exact Hlen].
Defined.

(** C6 as stated fails: at distance 0.6 the percentage computed is
    ["40.0%"], and the value returned is the pair without it, not a
    triple. *)
Lemma rejection_returns_no_percentage_counterexample :
  format_1f ((1 - 0.6) * 100)%float +:+ "%" = "40.0%" /\
  recognize_face (Some face_06) (running None)
    = (Return (None, "Face not recognized"), running None) /\
  (forall pct,
     as_tuple (None, "Face not recognized")
       <> [PyNone; PyStr pct; PyStr "Face not recognized"]) /\
  ~ In (PyStr "40.0%") (as_tuple (None, "Face not recognized")).
Proof.
  split; [vm_compute; reflexivity|]. split; [vm_compute; reflexivity|].
  split; [intros pct; discriminate|].
  intros [H | [H | []]]; discriminate.
Defined.

(** C6 at a concrete input: the rejection at distance 0.6, through the
    theorem. *)
Lemma recognize_face_rejection_pair_witness :
  recognize_face (Some face_06) (running None)
    = (Return (None, "Face not recognized"), running None).
Proof.
  destruct (recognize_face_rejection_pair (running None) face_06)
    as (probe & best & d & Hp & Hd & _ & Hrej).
  - reflexivity.
  - split; [reflexivity | intros _; split; discriminate].
  - discriminate.
  - injection Hp as <-.
    destruct best as [|best]; [|discriminate].
    injection Hd as <-.
    apply Hrej. vm_compute. reflexivity.
Defined.



(** C8 at a concrete input: a face request to the process before any
    load. *)
Lemma gallery_not_loaded_is_unavailable_witness :
  recognize_face_api (img "F3") idle
    = (Return (Response {[ "error" := JStr "No face encodings available" ]} 503),
       idle).
Proof.
  exact (proj1 (proj2
    (gallery_not_loaded_is_unavailable idle None (img "F3") eq_refl))).
Defined.

(** C9 as stated fails: a reload of a loaded gallery from a store that
    returns no pair leaves [encodings_loaded] true and the old gallery in
    place. *)
Lemma reload_without_pairs_keeps_gallery_counterexample :
  fetched (encodings_cursor (store [] None)) = ([], []) /\
  exists s',
    load_faces_from_mongo (State (glob (running None)) (store [] None))
      = (Return tt, s') /\
    encodings_loaded (glob s') = true /\
    known_face_encodings (glob s') = [0%float] /\
    known_face_names (glob s') = ["alice"].
Proof.
  split; [reflexivity|].
  eexists. split; [vm_compute; reflexivity|].
  split; [reflexivity|]. split; reflexivity.
Defined.

(** C9 at a concrete input: the same reload, through the theorem; the
    globals are those before the call. *)
Lemma gallery_after_load_witness :
  exists s',
    load_faces_from_mongo (State (glob (running None)) (store [] None))
      = (Return tt, s') /\
    glob s' = glob (running None).
Proof.
  destruct (proj1 (proj2
              (gallery_after_load int "ABC123" 5000
                 (MkMongoDBConfig "mongodb://db") ∅ (store [] None)))
              (glob (running None)))
    as (s' & Hrun & _ & _ & Hkeep & _).
  - reflexivity.
  - reflexivity.
  - exists s'. split; [exact Hrun | apply Hkeep; reflexivity].
Defined.

(** * The further properties at concrete inputs *)

(** X1 at a concrete input: a secret of six characters accepts itself
    and, by the first part, nothing else. *)
Lemma validate_qr_digest_needs_64_characters_witness :
  (validate_qr plain_secret (Some "ABC123") = true
   <-> "ABC123" = QR_HASH plain_secret /\ "ABC123" <> "") /\
  (validate_qr plain_secret (Some "abc123") = true
   <-> "abc123" = QR_HASH plain_secret /\ "abc123" <> "") /\
  validate_qr plain_secret (Some (QR_HASH plain_secret)) = true.
Proof.
  pose proof (validate_qr_digest_needs_64_characters plain_secret)
    as (Hshort & _ & Hself).
  split; [apply Hshort; vm_compute; lia|].
  split; [apply Hshort; vm_compute; lia|].
  apply Hself. discriminate.
Defined.

(** X2 at a concrete input: picture a shows the symbols of picture b
    followed by the secret; both are refused alike. *)
Lemma verify_qr_reads_first_symbol_only_witness :
  verify_qr (VP := Album.provider) (Album.photo "a") Album.enrolled
    = verify_qr (VP := Album.provider) (Album.photo "b") Album.enrolled.
Proof.
  eapply (verify_qr_reads_first_symbol_only (VP := Album.provider)
            Album.enrolled (Album.photo "a") (Album.photo "b") "a" "b");
    reflexivity.
Defined.


(** X4 at a concrete input: the secret shown to a server without a
    storage handle. *)
Lemma verify_qr_without_storage_handle_witness :
  exists msg s',
    verify_qr (VP := Album.provider) (Album.photo "g") Album.detached
      = (Raise (AttributeError msg), s') /\
    session_cache (glob s')
      = {[ session_id_at (now (ext Album.detached)) := true ]}.
Proof.
  destruct (verify_qr_without_storage_handle (VP := Album.provider)
              Album.detached (Album.photo "g") "g" [103]
              (Album.Picture [Some "ABC123"] []))
    as (msg & s' & Hrun & _ & Hvalid & _).
  - reflexivity.
  - reflexivity.
  - reflexivity.
  - intros rest. discriminate.
  - reflexivity.
  - exists msg, s'. split; [exact Hrun|]. apply Hvalid. reflexivity.
Defined.

(** X5 at a concrete input: the face at distance 0.3 from alice is
    granted under her name. *)
Lemma granted_name_is_enrolled_witness :
  "alice" ∈ known_face_names (glob (running None)) /\
  exists c : float, (50 <? c)%float = true /\ format_1f c +:+ "%" = "70.0%".
Proof.
  pose (resp := Response {[ "recognized" := JBool true; "name" := JStr "alice";
                            "confidence" := JStr "70.0%";
                            "access" := JStr "granted" ]} 200).
  destruct (granted_name_is_enrolled (img "F3") (running None)
              (snd (recognize_face_api (img "F3") (running None))) resp
              "alice")
    as (Hin & _ & _ & (c & Hc & Hconf) & _).
  - vm_compute. reflexivity.
  - reflexivity.
  - split; [exact Hin|]. exists c. split; [exact Hc|].
    assert (L : body resp !! "confidence" = Some (JStr "70.0%"))
      by reflexivity.
    rewrite L in Hconf. clear L.
    injection Hconf as Hconf. symmetry. exact Hconf.
Defined.

(** X6 at a concrete input: picture e shows the face enrolled under the
    empty name. *)
Lemma empty_name_is_denied_witness :
  fst (recognize_face_api (VP := Album.provider) (Album.photo "e")
                          Album.enrolled)
    = Return (Response {[ "recognized" := JBool false;
                          "access" := JStr "denied" ]} 200).
Proof.
  rewrite (empty_name_is_denied (VP := Album.provider) Album.enrolled
             (Album.photo "e") "e" [101] (Album.Picture [] [5]%float) "100.0%"
             (MkMongoDBConfig "mongodb://db"));
    reflexivity.
Defined.

(** X7 at a concrete input: picture c shows the face of picture d and a
    second one. *)
Lemma recognize_face_first_face_only_witness :
  recognize_face (VP := Album.provider)
                 (Some (Album.Picture [] [0.3; 0.9]%float)) Album.enrolled
    = recognize_face (VP := Album.provider)
                     (Some (Album.Picture [] [0.3]%float)) Album.enrolled.
Proof.
  apply (recognize_face_first_face_only (VP := Album.provider));
    [discriminate | discriminate | reflexivity].
Defined.

(** X8 at a concrete input: the session of the enrolled server outlives
    a refused QR code and a face request. *)
Lemma serve_keeps_log_gallery_and_sessions_witness :
  session_cache
    (glob (serve (VP := Album.provider)
                 [(VerifyQr, Album.photo "b"); (RecognizeFace, Album.photo "c")]
                 Album.enrolled)) !! "s1" = Some true.
Proof.
  apply (serve_keeps_log_gallery_and_sessions (VP := Album.provider)
           [(VerifyQr, Album.photo "b"); (RecognizeFace, Album.photo "c")]
           Album.enrolled).
  reflexivity.
Defined.

(** X9 at a concrete input: the server started on the store of alice
    reports one known face and a loaded gallery. *)
Lemma api_status_reports_distinct_names_witness :
  exists body s',
    api_status (running None) = (Return body, s') /\
    known_faces body = 1%nat /\
    (faces_loaded body = true <-> (1 <= known_faces body)%nat).
Proof.
  destruct (api_status_reports_distinct_names int (running None))
    as (body & s' & Hrun & _ & _ & _ & _ & _ & Hn & _ & Hreach).
  exists body, s'. split; [exact Hrun|]. split; [exact Hn|].
  apply Hreach.
  apply (reach_world int
           (State (glob (running None))
                  (snd (cloud_server int (store alice None))))
           (store alice None)).
  apply (reach_start int (store alice None)).
  vm_compute. reflexivity.
Defined.

(** X10 at a concrete input: [PORT] set to a word. *)
Lemma invalid_port_is_fatal_witness :
  cloud_server (VP := Album.provider) int Album.bad_port
    = (Raise (ValueError "invalid literal for int()"), Album.bad_port).
Proof.
  destruct (invalid_port_is_fatal (VP := Album.provider) int Album.bad_port
              "http")
    as (e & Hrun & _ & He).
  - reflexivity.
  - reflexivity.
  - rewrite Hrun, (He "ABC123"); [reflexivity | reflexivity | discriminate].
Defined.

(** X11 at a concrete input: two loads in a row on the store of alice. *)
Lemma load_faces_twice_witness :
  exists s1 s2,
    load_faces_from_mongo (running None) = (Return tt, s1) /\
    load_faces_from_mongo s1 = (Return tt, s2) /\
    glob s2 = glob s1.
Proof.
  destruct (load_faces_twice (glob (running None)) (ext (running None))
              (MkMongoDBConfig "mongodb://db"))
    as (s1 & s2 & H1 & H2 & Hg & _).
  - reflexivity.
  - exists s1, s2. split; [exact H1|]. split; [exact H2 | exact Hg].
Defined.


(** X13 at a concrete input: a start on the store of alice. *)
Lemma healthy_start_loads_gallery_witness :
  exists g w',
    cloud_server int (store alice None) = (Return g, w') /\
    known_face_names g = ["alice"] /\ encodings_loaded g = true.
Proof.
  destruct (healthy_start_loads_gallery int (store alice None)
              "ABC123" "mongodb://db" 5000)
    as (g & w' & Hrun & _ & _ & _ & _ & He & Hn & Hl & _);
    try reflexivity; try discriminate.
  exists g, w'. split; [exact Hrun|]. split; [exact Hn|].
  apply Hl. vm_compute. discriminate.
Defined.

(** X14 at a concrete input: bob is added to the small database, then
    added again under another role. *)
Lemma add_user_is_idempotent_witness :
  exists d1 d2,
    add_user (VP := Album.provider) "bob" "user" Album.small_db
      = (Return (Some "2"), d1) /\
    add_user (VP := Album.provider) "bob" "admin" d1 = (Return (Some "2"), d2) /\
    users_collection d2 = users_collection d1.
Proof.
  destruct (add_user_is_idempotent (VP := Album.provider) Album.small_db
              "bob" "user" "admin")
    as (u & d1 & d2 & H1 & _ & H2 & Hsame & _ & _ & Hnew).
  - reflexivity.
  - cbn in Hnew. destruct Hnew as [-> _].
    exists d1, d2. split; [exact H1|]. split; [exact H2 | exact Hsame].
Defined.

(** X15 at a concrete input: bob is listed after alice. *)
Lemma added_user_is_listed_witness :
  exists u d1 d2,
    add_user (VP := Album.provider) "bob" "user" Album.small_db
      = (Return (Some (oid_str (user_oid u))), d1) /\
    get_all_users d1
      = (Return [UserDoc 0 "alice" "admin" epoch true; u], d2).
Proof.
  destruct (added_user_is_listed (VP := Album.provider) Album.small_db
              "bob" "user")
    as (u & d1 & d2 & H1 & _ & _ & _ & H2).
  - reflexivity.
  - reflexivity.
  - exists u, d1, d2. split; [exact H1 | exact H2].
Defined.

(** X16 at a concrete input: the small database is consistent, and so
    is what a save for a new owner leaves. *)
Lemma mongo_writers_keep_consistency_witness :
  consistent (VP := Album.provider) Album.small_db /\
  consistent (snd (save_face_encoding (VP := Album.provider)
                     "bob" 1%float None Album.small_db)).
Proof.
  assert (H : consistent (VP := Album.provider) Album.small_db).
  { split; [|split].
    - apply (NoDup_singleton "alice").
    - apply (NoDup_cons_2 0%N [1%N]).
      + intros Hin. apply list_elem_of_singleton in Hin. discriminate.
      + apply (NoDup_singleton 1%N).
    - repeat constructor. }
  split; [exact H|].
  apply (mongo_writers_keep_consistency (VP := Album.provider)
           Album.small_db H).
Defined.

(** X17 at a concrete input: an encoding saved for bob is returned
    after the one of alice. *)
Lemma save_then_load_witness :
  exists id d1,
    save_face_encoding (VP := Album.provider) "bob" 1%float None Album.small_db
      = (Return (Some id), d1) /\
    fst (on_view (get_all_face_encodings (MkMongoDBConfig "mongodb://db")) d1)
      = Return ([0; 1]%float, ["alice"; "bob"]).
Proof.
  destruct (save_then_load (VP := Album.provider) Album.small_db "bob" 1%float
              None (MkMongoDBConfig "mongodb://db"))
    as (doc & usr & d1 & encodings & names & Hrun & _ & _ & _ & _ & _ & _
        & _ & _ & _ & Hbefore & Hafter).
  - reflexivity.
  - exists (oid_str (face_oid doc)), d1. split; [exact Hrun|].
    rewrite Hafter. vm_compute in Hbefore.
    injection Hbefore as <- <-. reflexivity.
Defined.

(** X18 at a concrete input: a save on a database whose first driver
    call fails returns [None] and stores nothing. *)
Lemma save_face_encoding_never_raises_witness :
  exists d',
    save_face_encoding (VP := Album.provider) "alice" 1%float None
      (Database (users_collection Album.small_db)
                (encodings_collection Album.small_db)
                2 [Some "timeout"] Album.quiet)
      = (Return None, d') /\
    encodings_collection d' = encodings_collection Album.small_db.
Proof.
  destruct (save_face_encoding_never_raises (VP := Album.provider)
              (Database (users_collection Album.small_db)
                        (encodings_collection Album.small_db)
                        2 [Some "timeout"] Album.quiet)
              "alice" 1%float None)
    as (r & d' & Hrun & _ & _ & Hr).
  exists d'. rewrite Hrun. vm_compute in Hrun.
  injection Hrun as <- _. split; [reflexivity|]. exact (proj1 Hr).
Defined.

(** X19 at a concrete input: the one encoding of alice is removed. *)
Lemma delete_user_encodings_removes_owner_witness :
  exists d',
    delete_user_encodings (VP := Album.provider) "alice" Album.small_db
      = (Return 1%nat, d') /\
    encodings_collection d' = [].
Proof.
  destruct (delete_user_encodings_removes_owner (VP := Album.provider)
              Album.small_db "alice")
    as (n & d' & Hrun & _ & _ & _ & Hok).
  destruct Hok as (Hleft & _ & -> & _).
  - intros e fl. discriminate.
  - exists d'. split; [exact Hrun | exact Hleft].
Defined.

(** X20 at a concrete input: the newest decision on alice. *)
Lemma get_access_logs_newest_first_witness :
  exists l d',
    get_access_logs (VP := Album.provider) 1 (Some "alice") Album.audited
      = (Return l, d') /\
    Forall (selects (Some "alice")) l /\
    (List.length l <= 1)%nat /\
    l ⊆+ access_logs_collection (srv Album.audited).
Proof.
  destruct (proj2 (get_access_logs_newest_first (VP := Album.provider)
                     Album.audited 1 (Some "alice")))
    as (l & d' & Hrun & _ & _ & _ & _ & Hsub & Hsel & Hlen & _).
  - intros e fl. discriminate.
  - exists l, d'. split; [exact Hrun|]. split; [exact Hsel|].
    split; [apply Hlen; discriminate | exact Hsub].
Defined.

(** X21 at a concrete input: a decision on bob, stored after the
    three others, is read back among the decisions on bob. *)
Lemma logged_entry_is_read_back_witness :
  exists d1 l d2,
    on_view (log_access (VP := Album.provider) (MkMongoDBConfig "mongodb://db")
                        "bob" "denied" "qr" None) Album.audited
      = (Return tt, d1) /\
    get_access_logs 0 (Some "bob") d1 = (Return l, d2) /\
    LogEntry "bob" "denied" "qr" None epoch ∈ l /\
    LogEntry "bob" "opened" "face" (Some "81.5%") (Datetime 2026 11 4 9 31 2 0)
      ∈ l.
Proof.
  destruct (logged_entry_is_read_back (VP := Album.provider) Album.audited
              (MkMongoDBConfig "mongodb://db") "bob" "denied" "qr" None
              (Some "bob"))
    as (d1 & l & d2 & Hlog & _ & Hread & Hnew & Hold).
  - reflexivity.
  - right. right. reflexivity.
  - exists d1, l, d2. split; [exact Hlog|]. split; [exact Hread|].
    split; [exact Hnew|]. apply Hold.
    + apply list_elem_of_further, list_elem_of_here.
    + intros name [= <-] _. reflexivity.
Defined.
